(** * SEO metadata consistency engine of the Altiora admin panel

    A shallow embedding of the Next.js route handlers that manage the
    per-page SEO overrides, the redirects and the cached page listing:

    - [app/api/admin/seo-pages/route.ts]          (listing, upsert, bulk PUT)
    - [app/api/admin/seo-pages/[path]/route.ts]   (GET / PUT / DELETE of one page)
    - [app/api/admin/seo-pages/bulk/route.ts]     (enhanced bulk POST)
    - [app/api/admin/seo-pages/redirects/route.ts]
    - [app/api/admin/seo-pages/seed/route.ts]
    - [lib/data/predefined-pages.ts]              (the page catalog)

    MongoDB collections are finite maps keyed by their unique compound
    index; a handler is a function from the world before the request to
    the HTTP response and the world after it.  A handler is entered with
    the caller that [requirePermission] returned and with the body that
    its zod schema parsed: a denied access or a malformed body ends the
    request before anything modelled here runs.  The wrappers of
    [SEOPerformanceMonitor] only time the call they wrap and are left
    out. *)

From Stdlib Require Import ZArith Ascii String List Bool Lia Sorted.
From stdpp Require Import base strings list gmap pretty.

(** ** JavaScript conventions *)

Module Js.

(** Result of a computation that may [throw new Error(msg)]. *)
Inductive result (A : Type) : Type :=
| Ok (a : A)
| Throw (msg : string).
Arguments Ok {A} a.
Arguments Throw {A} msg.

(** Truthiness of an optional string: [undefined] and [''] are falsy. *)
Definition truthy (x : option string) : bool :=
  match x with
  | Some EmptyString => false
  | Some _ => true
  | None => false
  end.

(** [x || d] on an optional string. *)
Definition or_else (x : option string) (d : string) : string :=
  match x with
  | Some EmptyString => d
  | Some s => s
  | None => d
  end.

(** [x || y] where both sides may be [undefined]. *)
Definition or_opt (x y : option string) : option string :=
  if truthy x then x else y.

(** [Object.assign(target, { ...source })] on one optional key: a key
    that is absent from the source leaves the target untouched. *)
Definition assign {A : Type} (source target : option A) : option A :=
  match source with
  | Some v => Some v
  | None => target
  end.

Definition startsWith (s p : string) : bool := String.prefix p s.

(** [s.includes(sub)] *)
Fixpoint includes (s sub : string) : bool :=
  String.prefix sub s ||
  match s with
  | EmptyString => false
  | String _ rest => includes rest sub
  end.

(** [toLowerCase] on the ASCII letters.  It is the part of the built-in
    that [Sanitize] needs, and the lowering of the scenarios, whose
    strings are ASCII. *)
Definition lowerAscii (c : ascii) : ascii :=
  let n := nat_of_ascii c in
  if (65 <=? n)%nat && (n <=? 90)%nat then ascii_of_nat (n + 32) else c.

Fixpoint toLowerCase (s : string) : string :=
  match s with
  | EmptyString => EmptyString
  | String c rest => String (lowerAscii c) (toLowerCase rest)
  end.

(** [arr.join(', ')] *)
Fixpoint join (sep : string) (l : list string) : string :=
  match l with
  | [] => EmptyString
  | [x] => x
  | x :: rest => x +:+ sep +:+ join sep rest
  end.

(** JSON values, the bodies handed to [NextResponse.json]. *)
#[warnings="-register-all"]
Inductive json : Type :=
| JNull
| JBool (b : bool)
| JNum (n : Z)
| JStr (s : string)
| JArr (l : list json)
| JObj (fields : list (string * json)).

(** Property access [obj.key]; [undefined] is [None]. *)
Definition get (key : string) (j : json) : option json :=
  match j with
  | JObj fields => snd <$> List.find (fun kv => (fst kv =? key)%string) fields
  | _ => None
  end.

Definition keys (j : json) : list string :=
  match j with
  | JObj fields => map fst fields
  | _ => []
  end.

(** Every string value that occurs anywhere inside a JSON value. *)
Fixpoint strings (j : json) : list string :=
  match j with
  | JStr s => [s]
  | JArr l => concat (map strings l)
  | JObj fields => concat (map (fun kv => strings (snd kv)) fields)
  | _ => []
  end.

Definition optStr (x : option string) : json :=
  match x with Some s => JStr s | None => JNull end.

Definition optNum (x : option Z) : json :=
  match x with Some n => JNum n | None => JNull end.

(** [NextResponse.json(body, { status, headers })] *)
Record Response : Type := mkResponse {
  status : nat;
  body : json;
  headers : list (string * string)
}.

Definition respond (st : nat) (b : json) : Response := mkResponse st b [].

Definition failure (st : nat) (msg : string) : Response :=
  respond st (JObj [("success", JBool false); ("error", JStr msg)]).

End Js.

(** ** [decodeURIComponent]

    Strings are byte strings holding the UTF-8 form of the JavaScript
    string.  An escape [%XY] stands for one octet; octets above 0x7F must
    come as a complete, well-formed UTF-8 sequence of escapes, otherwise
    the built-in throws [URIError]. *)

Module Uri.

Definition hexDigit (c : ascii) : option N :=
  let n := N_of_ascii c in
  if (48 <=? n)%N && (n <=? 57)%N then Some (n - 48)%N
  else if (65 <=? n)%N && (n <=? 70)%N then Some (n - 55)%N
  else if (97 <=? n)%N && (n <=? 102)%N then Some (n - 87)%N
  else None.

(** An octet of the decoded string, tagged with whether it was written
    as an escape. *)
Definition octet : Type := (bool * N)%type.

Fixpoint unescape (s : string) : option (list octet) :=
  match s with
  | EmptyString => Some []
  | String "%" (String h (String l rest)) =>
      match hexDigit h, hexDigit l, unescape rest with
      | Some a, Some b, Some os => Some ((true, (16 * a + b)%N) :: os)
      | _, _, _ => None
      end
  | String "%" _ => None
  | String c rest =>
      match unescape rest with
      | Some os => Some ((false, N_of_ascii c) :: os)
      | None => None
      end
  end.

Definition between (lo hi : N) (o : octet) : bool :=
  fst o && (lo <=? snd o)%N && (snd o <=? hi)%N.

Definition cont : octet -> bool := between 128 191.

(** Well-formed UTF-8 over the escaped octets (Unicode table 3-7). *)
Fixpoint wellFormed (os : list octet) : bool :=
  match os with
  | [] => true
  | (false, _) :: rest => wellFormed rest
  | (true, b) :: rest =>
      if (b <? 128)%N then wellFormed rest
      else if (194 <=? b)%N && (b <=? 223)%N then
        match rest with
        | c1 :: rest' => cont c1 && wellFormed rest'
        | _ => false
        end
      else if (224 <=? b)%N && (b <=? 239)%N then
        match rest with
        | c1 :: c2 :: rest' =>
            (if (b =? 224)%N then between 160 191 c1
             else if (b =? 237)%N then between 128 159 c1
             else cont c1)
            && cont c2 && wellFormed rest'
        | _ => false
        end
      else if (240 <=? b)%N && (b <=? 244)%N then
        match rest with
        | c1 :: c2 :: c3 :: rest' =>
            (if (b =? 240)%N then between 144 191 c1
             else if (b =? 244)%N then between 128 143 c1
             else cont c1)
            && cont c2 && cont c3 && wellFormed rest'
        | _ => false
        end
      else false
  end.

Definition bytes (os : list octet) : string :=
  fold_right (fun o acc => String (ascii_of_N (snd o)) acc) EmptyString os.

(** [None] is the thrown [URIError]. *)
Definition decodeURIComponent (s : string) : option string :=
  match unescape s with
  | Some os => if wellFormed os then Some (bytes os) else None
  | None => None
  end.

End Uri.

(** ** [encodeURIComponent]

    The built-in that the admin page applies to a path before it puts
    the path into the address of a request. *)

Module UriEncode.

(** The characters that [encodeURIComponent] leaves as they are:
    letters, digits and - _ . ! ~ * ' ( ). *)
Definition unreserved (c : ascii) : bool :=
  let n := N_of_ascii c in
  ((65 <=? n)%N && (n <=? 90)%N) || ((97 <=? n)%N && (n <=? 122)%N)
  || ((48 <=? n)%N && (n <=? 57)%N)
  || (n =? 45)%N || (n =? 95)%N || (n =? 46)%N || (n =? 33)%N || (n =? 126)%N
  || (n =? 42)%N || (n =? 39)%N || (n =? 40)%N || (n =? 41)%N.

(** An upper-case hexadecimal digit. *)
Definition hexChar (d : N) : ascii :=
  if (d <? 10)%N then ascii_of_N (48 + d) else ascii_of_N (55 + d).

Fixpoint escape (s : string) : string :=
  match s with
  | EmptyString => EmptyString
  | String c rest =>
      if unreserved c then String c (escape rest)
      else
        let n := N_of_ascii c in
        String "%" (String (hexChar (n / 16)) (String (hexChar (n mod 16)) (escape rest)))
  end.

(** Whether the octets of a string are well-formed UTF-8. *)
Definition utf8 (s : string) : bool :=
  Uri.wellFormed (map (fun c => (true, N_of_ascii c)) (list_ascii_of_string s)).

(** [encodeURIComponent] over the UTF-8 form of a string.  [None] is the
    [URIError] that the built-in throws on a lone surrogate, the one
    kind of string that has no well-formed UTF-8 form. *)
Definition encodeURIComponent (s : string) : option string :=
  if utf8 s then Some (escape s) else None.

End UriEncode.

(** ** The predefined page catalog ([lib/data/predefined-pages.ts]) *)

Module PredefinedPages.

Inductive Category : Type :=
| Cat_main | Cat_services | Cat_blog | Cat_about | Cat_contact | Cat_other.

#[global] Instance Category_eq_dec : EqDecision Category.
Proof. solve_decision. Defined.

Definition categoryName (c : Category) : string :=
  match c with
  | Cat_main => "main"
  | Cat_services => "services"
  | Cat_blog => "blog"
  | Cat_about => "about"
  | Cat_contact => "contact"
  | Cat_other => "other"
  end.

Record PredefinedPage : Type := mkPage {
  path : string;
  defaultSlug : string;
  category : Category;
  defaultTitle : string;
  defaultDescription : string
}.

#[global] Instance PredefinedPage_eq_dec : EqDecision PredefinedPage.
Proof. solve_decision. Defined.

Definition PREDEFINED_PAGES : list PredefinedPage := [
  mkPage "/" "home" Cat_main
    "Altiora Infotech - AI, Web3 & Growth Engineering Solutions"
    "Leading AI, Web3, and growth engineering solutions for modern businesses. Transform your digital presence with cutting-edge technology.";
  mkPage "/about" "about-us" Cat_about
    "About Altiora Infotech - Innovation & Excellence"
    "Learn about Altiora Infotech's mission to deliver innovative AI, Web3, and growth engineering solutions for businesses worldwide.";
  mkPage "/contact" "contact-us" Cat_contact
    "Contact Altiora Infotech - Get In Touch"
    "Contact Altiora Infotech for AI, Web3, and growth engineering solutions. Let's discuss your project requirements.";
  mkPage "/careers" "careers" Cat_other
    "Careers at Altiora Infotech - Join Our Team"
    "Join Altiora Infotech and work on cutting-edge AI, Web3, and growth engineering projects. Explore career opportunities.";
  mkPage "/portfolio" "portfolio" Cat_other
    "Portfolio - Altiora Infotech Projects & Case Studies"
    "Explore Altiora Infotech's portfolio of successful AI, Web3, and growth engineering projects and case studies.";
  mkPage "/services/ai-ml" "ai-ml-services" Cat_services
    "AI & ML Services - Machine Learning Solutions | Altiora Infotech"
    "Comprehensive AI and machine learning services to transform your business with intelligent automation and data-driven insights.";
  mkPage "/services/ai-ml/machine-learning-development" "machine-learning-development" Cat_services
    "Machine Learning Development Services | Altiora Infotech"
    "Custom machine learning development services for predictive analytics, automation, and intelligent business solutions.";
  mkPage "/services/ai-ml/natural-language-processing" "natural-language-processing" Cat_services
    "Natural Language Processing Services | NLP Solutions"
    "Advanced NLP services for text analysis, chatbots, sentiment analysis, and language understanding applications.";
  mkPage "/services/ai-ml/computer-vision" "computer-vision-services" Cat_services
    "Computer Vision Services - Image & Video Analysis"
    "Computer vision solutions for image recognition, object detection, and automated visual analysis applications.";
  mkPage "/services/ai-ml/deep-learning" "deep-learning-services" Cat_services
    "Deep Learning Services - Neural Network Solutions"
    "Deep learning and neural network development for complex pattern recognition and AI-powered applications.";
  mkPage "/services/web3" "web3-services" Cat_services
    "Web3 Development Services - Blockchain & DeFi Solutions"
    "Complete Web3 development services including blockchain, DeFi, NFTs, and decentralized application development.";
  mkPage "/services/web3/blockchain-development-services-building-the-future-of-web3-with-altiora-infotech" "blockchain-development-services-building-the-future-of-web3-with-altiora-infotech" Cat_services
    "Blockchain Development Services - Building the Future of Web3 | Altiora Infotech"
    "Expert blockchain development services for Web3 applications, smart contracts, and decentralized solutions. Build the future with Altiora Infotech.";
  mkPage "/services/web3/smart-contract-development" "smart-contract-development" Cat_services
    "Smart Contract Development Services | Ethereum & Solidity"
    "Professional smart contract development services for Ethereum, Binance Smart Chain, and other blockchain platforms.";
  mkPage "/services/web3/defi-development" "defi-development-services" Cat_services
    "DeFi Development Services - Decentralized Finance Solutions"
    "DeFi development services for decentralized exchanges, lending platforms, yield farming, and financial protocols.";
  mkPage "/services/web3/nft-marketplace-development" "nft-marketplace-development" Cat_services
    "NFT Marketplace Development - Create Your NFT Platform"
    "Custom NFT marketplace development services with advanced features for trading, minting, and managing digital assets.";
  mkPage "/services/web3/dapp-development" "dapp-development-services" Cat_services
    "DApp Development Services - Decentralized Applications"
    "Decentralized application development services for Web3 platforms with user-friendly interfaces and robust functionality.";
  mkPage "/services/growth-engineering" "growth-engineering-services" Cat_services
    "Growth Engineering Services - Data-Driven Growth Solutions"
    "Growth engineering services combining data analytics, automation, and optimization for sustainable business growth.";
  mkPage "/services/growth-engineering/conversion-optimization" "conversion-optimization-services" Cat_services
    "Conversion Rate Optimization Services | CRO Solutions"
    "Conversion rate optimization services to maximize your website performance and increase customer conversions.";
  mkPage "/services/growth-engineering/analytics-implementation" "analytics-implementation-services" Cat_services
    "Analytics Implementation Services - Data Tracking Solutions"
    "Professional analytics implementation services for comprehensive data tracking and business intelligence insights.";
  mkPage "/services/growth-engineering/marketing-automation" "marketing-automation-services" Cat_services
    "Marketing Automation Services - Streamline Your Marketing"
    "Marketing automation services to streamline campaigns, nurture leads, and optimize customer engagement workflows.";
  mkPage "/services/growth-engineering/ab-testing" "ab-testing-services" Cat_services
    "A/B Testing Services - Optimize Your Conversions"
    "Professional A/B testing services to optimize user experience, increase conversions, and drive data-driven decisions.";
  mkPage "/services/web-development" "web-development-services" Cat_services
    "Web Development Services - Custom Web Solutions"
    "Professional web development services for custom websites, web applications, and digital solutions tailored to your business.";
  mkPage "/services/web-development/react-development" "react-development-services" Cat_services
    "React Development Services - Modern Web Applications"
    "Expert React development services for building fast, scalable, and interactive web applications with modern UI/UX.";
  mkPage "/services/web-development/nextjs-development" "nextjs-development-services" Cat_services
    "Next.js Development Services - Full-Stack React Solutions"
    "Next.js development services for server-side rendered applications, static sites, and full-stack React solutions.";
  mkPage "/services/web-development/nodejs-development" "nodejs-development-services" Cat_services
    "Node.js Development Services - Backend Solutions"
    "Node.js development services for scalable backend applications, APIs, and server-side solutions.";
  mkPage "/services/web-development/ecommerce-development" "ecommerce-development-services" Cat_services
    "E-commerce Development Services - Online Store Solutions"
    "Custom e-commerce development services for online stores, marketplaces, and digital commerce platforms.";
  mkPage "/services/mobile-development" "mobile-development-services" Cat_services
    "Mobile App Development Services - iOS & Android Apps"
    "Professional mobile app development services for iOS and Android platforms with native and cross-platform solutions.";
  mkPage "/services/mobile-development/react-native-development" "react-native-development-services" Cat_services
    "React Native Development Services - Cross-Platform Apps"
    "React Native development services for cross-platform mobile applications with native performance and user experience.";
  mkPage "/services/mobile-development/flutter-development" "flutter-development-services" Cat_services
    "Flutter Development Services - Cross-Platform Mobile Apps"
    "Flutter development services for beautiful, fast, and cross-platform mobile applications with single codebase.";
  mkPage "/services/mobile-development/ios-development" "ios-development-services" Cat_services
    "iOS App Development Services - Native iPhone Apps"
    "Native iOS app development services for iPhone and iPad applications with optimal performance and user experience.";
  mkPage "/services/mobile-development/android-development" "android-development-services" Cat_services
    "Android App Development Services - Native Android Apps"
    "Native Android app development services for smartphones and tablets with Google Play Store optimization.";
  mkPage "/services/cloud-services" "cloud-services" Cat_services
    "Cloud Services - AWS, Azure & Google Cloud Solutions"
    "Comprehensive cloud services including migration, deployment, and management on AWS, Azure, and Google Cloud platforms.";
  mkPage "/services/cloud-services/aws-development" "aws-development-services" Cat_services
    "AWS Development Services - Amazon Web Services Solutions"
    "AWS development services for cloud infrastructure, serverless applications, and scalable cloud solutions on Amazon Web Services.";
  mkPage "/services/cloud-services/azure-development" "azure-development-services" Cat_services
    "Azure Development Services - Microsoft Cloud Solutions"
    "Microsoft Azure development services for enterprise cloud applications, infrastructure, and digital transformation solutions.";
  mkPage "/services/cloud-services/google-cloud-development" "google-cloud-development-services" Cat_services
    "Google Cloud Development Services - GCP Solutions"
    "Google Cloud Platform development services for scalable applications, data analytics, and machine learning solutions.";
  mkPage "/services/cloud-services/serverless-development" "serverless-development-services" Cat_services
    "Serverless Development Services - Function-as-a-Service"
    "Serverless development services for cost-effective, scalable applications using AWS Lambda, Azure Functions, and Google Cloud Functions.";
  mkPage "/services/devops" "devops-services" Cat_services
    "DevOps Services - CI/CD & Infrastructure Automation"
    "DevOps services for continuous integration, deployment automation, infrastructure management, and development workflow optimization.";
  mkPage "/services/devops/ci-cd-implementation" "ci-cd-implementation-services" Cat_services
    "CI/CD Implementation Services - Continuous Integration & Deployment"
    "CI/CD implementation services for automated testing, deployment pipelines, and continuous integration workflows.";
  mkPage "/services/devops/docker-kubernetes" "docker-kubernetes-services" Cat_services
    "Docker & Kubernetes Services - Container Orchestration"
    "Docker and Kubernetes services for containerization, orchestration, and scalable microservices architecture.";
  mkPage "/services/devops/infrastructure-as-code" "infrastructure-as-code-services" Cat_services
    "Infrastructure as Code Services - IaC Solutions"
    "Infrastructure as Code services using Terraform, CloudFormation, and other IaC tools for automated infrastructure management.";
  mkPage "/services/data-services" "data-services" Cat_services
    "Data Services - Analytics, Engineering & Science Solutions"
    "Comprehensive data services including data engineering, analytics, visualization, and data science solutions for business insights.";
  mkPage "/services/data-services/data-engineering" "data-engineering-services" Cat_services
    "Data Engineering Services - ETL & Data Pipeline Solutions"
    "Data engineering services for ETL processes, data pipelines, data warehousing, and big data processing solutions.";
  mkPage "/services/data-services/data-analytics" "data-analytics-services" Cat_services
    "Data Analytics Services - Business Intelligence Solutions"
    "Data analytics services for business intelligence, reporting, dashboard creation, and data-driven decision making.";
  mkPage "/services/data-services/data-visualization" "data-visualization-services" Cat_services
    "Data Visualization Services - Interactive Dashboards"
    "Data visualization services for interactive dashboards, charts, and visual analytics using modern visualization tools.";
  mkPage "/services/ui-ux-design" "ui-ux-design-services" Cat_services
    "UI/UX Design Services - User Experience & Interface Design"
    "Professional UI/UX design services for web and mobile applications with focus on user experience and modern design principles.";
  mkPage "/services/ui-ux-design/web-design" "web-design-services" Cat_services
    "Web Design Services - Modern Website Design"
    "Creative web design services for modern, responsive, and user-friendly websites that engage and convert visitors.";
  mkPage "/services/ui-ux-design/mobile-app-design" "mobile-app-design-services" Cat_services
    "Mobile App Design Services - iOS & Android UI/UX"
    "Mobile app design services for iOS and Android applications with intuitive user interfaces and exceptional user experience.";
  mkPage "/services/ui-ux-design/user-research" "user-research-services" Cat_services
    "User Research Services - UX Research & Testing"
    "User research services including usability testing, user interviews, and UX research for data-driven design decisions.";
  mkPage "/blog" "blog" Cat_blog
    "Blog - Latest Insights on AI, Web3 & Technology | Altiora Infotech"
    "Stay updated with the latest insights, trends, and tutorials on AI, Web3, blockchain, and modern technology from Altiora Infotech experts.";
  mkPage "/blog/ai-trends-2024" "ai-trends-2024" Cat_blog
    "AI Trends 2024 - Future of Artificial Intelligence"
    "Explore the top AI trends for 2024 and discover how artificial intelligence is shaping the future of business and technology.";
  mkPage "/blog/web3-development-guide" "web3-development-guide" Cat_blog
    "Web3 Development Guide - Complete Beginner's Tutorial"
    "Complete guide to Web3 development covering blockchain, smart contracts, DeFi, and decentralized application development.";
  mkPage "/blog/blockchain-business-benefits" "blockchain-business-benefits" Cat_blog
    "Blockchain Business Benefits - Transform Your Enterprise"
    "Discover how blockchain technology can transform your business with improved security, transparency, and operational efficiency.";
  mkPage "/privacy-policy" "privacy-policy" Cat_other
    "Privacy Policy - Altiora Infotech"
    "Privacy policy for Altiora Infotech outlining how we collect, use, and protect your personal information and data.";
  mkPage "/terms-of-service" "terms-of-service" Cat_other
    "Terms of Service - Altiora Infotech"
    "Terms of service for Altiora Infotech services including usage guidelines, limitations, and legal agreements.";
  mkPage "/sitemap" "sitemap" Cat_other
    "Sitemap - Altiora Infotech Website Navigation"
    "Complete sitemap of Altiora Infotech website with links to all pages, services, and resources for easy navigation."
].

Definition getPredefinedPageByPath (p : string) : option PredefinedPage :=
  List.find (fun page => (path page =? p)%string) PREDEFINED_PAGES.

Definition getAllPredefinedPaths : list string :=
  map path PREDEFINED_PAGES.


Definition getPredefinedPageBySlug (s : string) : option PredefinedPage :=
  List.find (fun page => (defaultSlug page =? s)%string) PREDEFINED_PAGES.

(** The category arrives as a string and is compared with the name of
    each page's category. *)
Definition getPredefinedPagesByCategory (c : string) : list PredefinedPage :=
  List.filter (fun page => (categoryName (category page) =? c)%string) PREDEFINED_PAGES.

End PredefinedPages.

(** ** The SEO override collection ([lib/models/SEOPage]) *)

Module SEOPage.
Import Js.

(** Modelled from the spec: the Mongoose model [lib/models/SEOPage] is
    not part of the sources.  A stored override has the fields that the
    handlers read and write.  The document is filed under its unique
    compound index [(siteId, path)], so these two fields are the key of
    the collection and the rest is the value.  Mongoose leaves a field
    that was never written [undefined]: hence the options. *)
Record doc : Type := mkDoc {
  _id : nat;
  slug : option string;
  metaTitle : option string;
  metaDescription : option string;
  robots : option string;
  pageCategory : option string;
  openGraph : option json;
  isCustom : bool;
  createdBy : string;
  updatedBy : string;
  createdAt : Z;
  updatedAt : Z
}.

Abbreviation key := (string * string)%type.
Abbreviation coll := (gmap (string * string) doc).

(** [SEOPage.findOne({ siteId, path })] *)
Definition findOne (c : coll) (site p : string) : option doc :=
  c !! (site, p).

(** [SEOPage.find({ siteId })] *)
Definition find (c : coll) (site : string) : list (key * doc) :=
  List.filter (fun kd => (fst (fst kd) =? site)%string) (map_to_list c).

Definition usesSlug (site : string) (s : option string) (p : string)
    (kd : key * doc) : bool :=
  (fst (fst kd) =? site)%string
  && bool_decide (slug (snd kd) = s)
  && negb (snd (fst kd) =? p)%string.

(** [SEOPage.findOne({ siteId, slug, path: { $ne: path } })] *)
Definition findOneSlugElsewhere (c : coll) (site s p : string)
    : option (key * doc) :=
  List.find (usesSlug site (Some s) p) (map_to_list c).

(** Modelled from the spec: the schema of [lib/models/SEOPage] is not
    part of the sources.  The collection is unique on (siteId, slug)
    next to (siteId, path), and Mongoose stamps [createdAt] on insert
    and [updatedAt] on every save.  A save that would give two paths of
    one site the same slug is refused with a duplicate-key error. *)
Definition save (now : Z) (c : coll) (site p : string) (d : doc)
    : result (doc * coll) :=
  match List.find (usesSlug site (slug d) p) (map_to_list c) with
  | Some _ => Throw "E11000 duplicate key error collection: seopages"
  | None =>
      let d' :=
        match c !! (site, p) with
        | Some _ =>
            mkDoc (_id d) (slug d) (metaTitle d) (metaDescription d)
              (robots d) (pageCategory d) (openGraph d) (isCustom d)
              (createdBy d) (updatedBy d) (createdAt d) now
        | None =>
            mkDoc (_id d) (slug d) (metaTitle d) (metaDescription d)
              (robots d) (pageCategory d) (openGraph d) (isCustom d)
              (createdBy d) (updatedBy d) now now
        end in
      Ok (d', <[(site, p) := d']> c)
  end.

(** [SEOPage.findOneAndDelete({ siteId, path })] *)
Definition findOneAndDelete (c : coll) (site p : string)
    : option doc * coll :=
  (c !! (site, p), delete (site, p) c).

(** [SEOPage.countDocuments(query)] *)
Definition countDocuments (c : coll) (site : string)
    (onlyCustom : bool) : nat :=
  List.length
    (List.filter (fun kd => implb onlyCustom (isCustom (snd kd)))
       (find c site)).

End SEOPage.

(** ** The redirect collection ([lib/models/Redirect]) *)

Module Redirect.
Import Js.

(** Modelled from the spec: the Mongoose model [lib/models/Redirect] is
    not part of the sources.  A redirect has the fields that the redirect
    endpoint writes and is filed under its unique index
    [(siteId, from)]. *)
Record doc : Type := mkDoc {
  _id : nat;
  to : string;
  statusCode : nat;
  createdBy : string;
  createdAt : Z
}.

Abbreviation coll := (gmap (string * string) doc).

(** [Redirect.findOne({ siteId, from })] *)
Definition findOne (c : coll) (site from : string) : option doc :=
  c !! (site, from).

(** [redirect.save()] of a new document; the unique index refuses a
    second redirect from one source. *)
Definition save (c : coll) (site from : string) (d : doc)
    : result coll :=
  match c !! (site, from) with
  | Some _ => Throw "E11000 duplicate key error collection: redirects"
  | None => Ok (<[(site, from) := d]> c)
  end.

Definition maxDepth : nat := 5.

Record ChainResult : Type := mkChain {
  hasChain : bool;
  isLoop : bool;
  depth : nat;
  visited : list string
}.

(** Modelled from the spec: the static [checkRedirectChain] of
    [lib/models/Redirect] is not part of the sources.  Starting at the
    destination it follows the outgoing redirect (if any) repeatedly,
    accumulating the visited targets; meeting the source again is a
    loop.  It counts the hops into the length that the chain from the
    source would have (the new redirect is the first hop) and stops as
    soon as that length reaches the maximum, so the walk is bounded
    even over a cycle that is already stored. *)
Fixpoint walk (hopsLeft : nat) (c : coll) (site from current : string)
    (seen : list string) (len : nat) : ChainResult :=
  if (current =? from)%string then mkChain true true len seen
  else
    match hopsLeft with
    | O => mkChain (1 <? len)%nat false len seen
    | S hopsLeft' =>
        match c !! (site, current) with
        | None => mkChain (1 <? len)%nat false len seen
        | Some r =>
            walk hopsLeft' c site from (to r) (current :: seen) (S len)
        end
    end.

Definition checkRedirectChain (c : coll) (site from dest : string)
    : ChainResult :=
  walk (maxDepth - 1) c site from dest [] 1.

End Redirect.

(** ** The listing cache ([lib/seo-cache]) *)

Module SEOCache.
Import Js.

Record CacheEntry : Type := mkEntry {
  value : json;
  expiresAt : Z
}.

Abbreviation store := (gmap (string * string) CacheEntry).

(** Modelled from the spec: [lib/seo-cache] is not part of the
    sources.  Entries are keyed by (siteId, queryHash) and expire after
    their time to live, independently of writes. *)
Definition getCachedSEOList (now : Z) (c : store) (site hash : string)
    : option json :=
  match c !! (site, hash) with
  | Some e => if (now <? expiresAt e)%Z then Some (value e) else None
  | None => None
  end.

(** Modelled from the spec: storing a listing replaces the entry of the
    key and lets it live for [ttl] seconds. *)
Definition cacheSEOList (now : Z) (c : store) (site hash : string)
    (v : json) (ttl : Z) : store :=
  <[(site, hash) := mkEntry v (now + ttl)%Z]> c.

(** Modelled from the spec: a write to a page of a site removes every
    entry whose key has that site component. *)
Definition invalidateSEOPage (c : store) (site p : string) : store :=
  filter (fun ke => fst (fst ke) ≠ site) c.

(** Modelled from the spec: the invalidation of a whole site. *)
Definition invalidateAll (c : store) (site : string) : store :=
  filter (fun ke => fst (fst ke) ≠ site) c.

(** Modelled from the spec: the administrative escape hatch. *)
Definition clearAll (c : store) : store := ∅.

End SEOCache.

(** ** The audit trail ([lib/seo-audit-logger]) *)

Module SEOAuditLogger.

(** Modelled from the spec: [lib/seo-audit-logger] is not part of the
    sources.  An entry names the action, the page, the slug before and
    after where they matter, the paths a bulk operation affected, and the
    actor. *)
Inductive Action : Type :=
| create | update | delete | reset
| bulk_update | bulk_delete | bulk_reset
| slug_change | redirect_create.

Record AuditLogEntry : Type := mkEntry {
  action : Action;
  siteId : string;
  path : string;
  oldSlug : option string;
  newSlug : option string;
  affectedPaths : list string;
  performedBy : string
}.

End SEOAuditLogger.

(** ** The world a request runs in *)

Module World.

Record t : Type := mk {
  seoPages : SEOPage.coll;
  redirects : Redirect.coll;
  cache : SEOCache.store;
  auditLogs : list SEOAuditLogger.AuditLogEntry;
  console : list string;
  nextId : nat
}.

Definition withSeoPages (w : t) (c : SEOPage.coll) : t :=
  mk c (redirects w) (cache w) (auditLogs w) (console w) (nextId w).

Definition withRedirects (w : t) (c : Redirect.coll) : t :=
  mk (seoPages w) c (cache w) (auditLogs w) (console w) (nextId w).

Definition withCache (w : t) (c : SEOCache.store) : t :=
  mk (seoPages w) (redirects w) c (auditLogs w) (console w) (nextId w).

(** The audit sink appends. *)
Definition audit (w : t) (e : SEOAuditLogger.AuditLogEntry) : t :=
  mk (seoPages w) (redirects w) (cache w) (auditLogs w ++ [e])
    (console w) (nextId w).

(** [console.log] / [console.error] *)
Definition log (w : t) (line : string) : t :=
  mk (seoPages w) (redirects w) (cache w) (auditLogs w)
    (console w ++ [line]) (nextId w).

(** A fresh document id, as the driver generates one for [new Model]. *)
Definition freshId (w : t) : nat * t :=
  (nextId w,
   mk (seoPages w) (redirects w) (cache w) (auditLogs w) (console w)
     (S (nextId w))).

End World.

(** ** Handlers: world-passing computations with an early [return] *)

Module Handler.
Import Js.

Definition M (A : Type) : Type := World.t -> (Response + A) * World.t.

#[export] Instance M_ret : MRet M := fun A a w => (inr a, w).

#[export] Instance M_bind : MBind M := fun A B k m w =>
  match m w with
  | (inl r, w') => (inl r, w')
  | (inr a, w') => k a w'
  end.

(** [return NextResponse.json(...)] in the middle of a handler. *)
Definition reply {A : Type} (r : Response) : M A := fun w => (inl r, w).

Definition world : M World.t := fun w => (inr w, w).

Definition modify (f : World.t -> World.t) : M unit :=
  fun w => (inr tt, f w).

(** The [catch] block every handler ends with: the status is 403 when
    the message mentions a denied access and 500 otherwise. *)
Definition caught (msg fallback : string) : Response :=
  respond (if includes msg "Access denied" then 403 else 500)
    (JObj [("success", JBool false);
           ("error", JStr (or_else (Some msg) fallback))]).

(** Unwrap a result inside the handler-wide [try]. *)
Definition try {A : Type} (fallback : string) (r : result A) : M A :=
  match r with
  | Ok a => mret a
  | Throw msg => reply (caught msg fallback)
  end.

Definition run (m : M Response) (w : World.t) : Response * World.t :=
  match m w with
  | (inl r, w') => (r, w')
  | (inr r, w') => (r, w')
  end.

(** The authenticated caller that [requirePermission] hands back. *)
Record User : Type := mkUser {
  id : string;
  role : string
}.

(** Outcome of [validateContentSecurity]. *)
Record Security : Type := mkSecurity {
  isSecure : bool;
  threats : list string
}.

Definition threatsJson (l : list string) : json := JArr (map JStr l).

End Handler.

(** ** Redirect creation for slug changes ([lib/seo-utils]) *)

Module SeoUtils.
Import Js.

Inductive Failure : Type :=
| RedirectLoop
| RedirectChainTooLong
| RedirectExists.

Definition reason (f : Failure) : string :=
  match f with
  | RedirectLoop => "Redirect would create an infinite loop"
  | RedirectChainTooLong => "Redirect chain too long (maximum 5 redirects)"
  | RedirectExists => "Redirect already exists for this source path"
  end.

Record Outcome : Type := mkOutcome {
  success : bool;
  error : option Failure
}.

(** Modelled from the spec: [createRedirectSafely] of [lib/seo-utils]
    is not part of the sources.  It checks for a cycle, then for a chain
    whose length from the source would reach the maximum, then for a
    redirect that already leaves the source; only when all three pass
    does it persist the redirect.  A failure is a returned reason, never
    an exception. *)
Definition createRedirectSafely (now : Z) (w : World.t)
    (site from dest : string) (code : nat) (actor : string)
    : Outcome * World.t :=
  let chain := Redirect.checkRedirectChain (World.redirects w) site from dest in
  if Redirect.isLoop chain then
    (mkOutcome false (Some RedirectLoop), w)
  else if (Redirect.maxDepth <=? Redirect.depth chain)%nat then
    (mkOutcome false (Some RedirectChainTooLong), w)
  else
    match Redirect.findOne (World.redirects w) site from with
    | Some _ => (mkOutcome false (Some RedirectExists), w)
    | None =>
        let '(i, w1) := World.freshId w in
        (mkOutcome true None,
         World.withRedirects w1
           (<[(site, from) := Redirect.mkDoc i dest code actor now]>
              (World.redirects w1)))
    end.

End SeoUtils.

(** ** [app/api/admin/seo-pages/[path]/route.ts] *)

Module PathRoute.
Import Js Handler.
Module PP := PredefinedPages.

(** The body after [updateSeoPageSchema.parse]; every field may be
    left out. *)
Record UpdateData : Type := mkUpdate {
  slug : option string;
  metaTitle : option string;
  metaDescription : option string;
  robots : option string;
  pageCategory : option string;
  openGraph : option json
}.

Definition siteId : string := "altiorainfotech".

Definition decodePath (encodedPath : string) : result string :=
  match Uri.decodeURIComponent encodedPath with
  | Some decoded =>
      Ok (if negb (decoded =? "home")%string && negb (startsWith decoded "/")
          then "/" +:+ decoded
          else decoded)
  | None => Throw "Invalid path encoding"
  end.

(** The catalog entry of the decoded path, or the 404 reply. *)
Definition predefined (p : string) : M PP.PredefinedPage :=
  match PP.getPredefinedPageByPath p with
  | Some page => mret page
  | None => reply (failure 404 "Page not found in predefined pages")
  end.

Definition GET (w : World.t) (param : string) : Response * World.t :=
  run (
    path ← try "Failed to fetch SEO page" (decodePath param);
    predefinedPage ← predefined path;
    w ← world;
    let seoPage := SEOPage.findOne (World.seoPages w) siteId path in
    let responseData := JObj [
      ("path", JStr path);
      ("slug", JStr (or_else (seoPage ≫= SEOPage.slug) (PP.defaultSlug predefinedPage)));
      ("metaTitle", JStr (or_else (seoPage ≫= SEOPage.metaTitle) (PP.defaultTitle predefinedPage)));
      ("metaDescription", JStr (or_else (seoPage ≫= SEOPage.metaDescription) (PP.defaultDescription predefinedPage)));
      ("robots", JStr (or_else (seoPage ≫= SEOPage.robots) "index,follow"));
      ("isCustom", JBool (from_option SEOPage.isCustom false seoPage));
      ("pageCategory", JStr (or_else (seoPage ≫= SEOPage.pageCategory) (PP.categoryName (PP.category predefinedPage))));
      ("openGraph", default (JObj []) (seoPage ≫= SEOPage.openGraph));
      ("hasCustomSeo", JBool (bool_decide (is_Some seoPage)));
      ("predefinedData", JObj [
         ("defaultTitle", JStr (PP.defaultTitle predefinedPage));
         ("defaultDescription", JStr (PP.defaultDescription predefinedPage));
         ("defaultSlug", JStr (PP.defaultSlug predefinedPage));
         ("category", JStr (PP.categoryName (PP.category predefinedPage)))]);
      ("updatedAt", optNum (SEOPage.updatedAt <$> seoPage));
      ("createdAt", optNum (SEOPage.createdAt <$> seoPage))] in
    mret (respond 200 (JObj [("success", JBool true); ("data", responseData)]))
  ) w.

(** The fields of a saved page that the write handlers send back. *)
Definition savedData (site p : string) (d : SEOPage.doc) : json :=
  JObj [
    ("_id", JNum (Z.of_nat (SEOPage._id d)));
    ("siteId", JStr site);
    ("path", JStr p);
    ("slug", optStr (SEOPage.slug d));
    ("metaTitle", optStr (SEOPage.metaTitle d));
    ("metaDescription", optStr (SEOPage.metaDescription d));
    ("robots", optStr (SEOPage.robots d));
    ("isCustom", JBool (SEOPage.isCustom d));
    ("pageCategory", optStr (SEOPage.pageCategory d));
    ("openGraph", default JNull (SEOPage.openGraph d));
    ("createdAt", JNum (SEOPage.createdAt d));
    ("updatedAt", JNum (SEOPage.updatedAt d))].

Section WithValidator.

Variable validateContentSecurity : string -> Security.

(** [if (field) { ...validateContentSecurity(field)... return 400 }] *)
Definition secure (field : option string) (msg : string) : M unit :=
  if truthy field then
    let check := validateContentSecurity (default EmptyString field) in
    if isSecure check then mret tt
    else reply (respond 400 (JObj [
           ("success", JBool false);
           ("error", JStr msg);
           ("threats", threatsJson (threats check))]))
  else mret tt.

Definition PUT (now : Z) (user : User) (w : World.t) (param : string)
    (validatedData : UpdateData) : Response * World.t :=
  run (
    path ← try "Failed to update SEO page" (decodePath param);
    predefinedPage ← predefined path;
    _ ← secure (metaTitle validatedData) "Meta title security validation failed";
    _ ← secure (metaDescription validatedData) "Meta description security validation failed";
    w0 ← world;
    _ ← (if truthy (slug validatedData) then
           match SEOPage.findOneSlugElsewhere (World.seoPages w0) siteId
                   (default EmptyString (slug validatedData)) path with
           | Some _ => reply (failure 400 "Slug already exists for another page")
           | None => mret tt
           end
         else mret tt);
    let found := SEOPage.findOne (World.seoPages w0) siteId path in
    let isNewPage := bool_decide (found = None) in
    let oldSlug : option string :=
      match found with
      | Some seoPage =>
          if truthy (slug validatedData)
             && negb (bool_decide (SEOPage.slug seoPage = slug validatedData))
          then SEOPage.slug seoPage else None
      | None => None
      end in
    seoPage ← match found with
      | Some seoPage =>
          mret (SEOPage.mkDoc (SEOPage._id seoPage)
            (assign (slug validatedData) (SEOPage.slug seoPage))
            (assign (metaTitle validatedData) (SEOPage.metaTitle seoPage))
            (assign (metaDescription validatedData) (SEOPage.metaDescription seoPage))
            (assign (robots validatedData) (SEOPage.robots seoPage))
            (assign (pageCategory validatedData) (SEOPage.pageCategory seoPage))
            (assign (openGraph validatedData) (SEOPage.openGraph seoPage))
            true
            (SEOPage.createdBy seoPage) (id user)
            (SEOPage.createdAt seoPage) (SEOPage.updatedAt seoPage))
      | None =>
          (fun w => let '(i, w1) := World.freshId w in
          (inr (SEOPage.mkDoc i
            (Some (or_else (slug validatedData) (PP.defaultSlug predefinedPage)))
            (Some (or_else (metaTitle validatedData) (PP.defaultTitle predefinedPage)))
            (Some (or_else (metaDescription validatedData) (PP.defaultDescription predefinedPage)))
            (Some (or_else (robots validatedData) "index,follow"))
            (Some (or_else (pageCategory validatedData) (PP.categoryName (PP.category predefinedPage))))
            (Some (default (JObj []) (openGraph validatedData)))
            true (id user) (id user) now now), w1)) : M SEOPage.doc
      end;
    w1 ← world;
    '(saved, pages) ← try "Failed to update SEO page"
                        (SEOPage.save now (World.seoPages w1) siteId path seoPage);
    _ ← modify (fun w => World.withSeoPages w pages);
    redirectCreated ←
      (if truthy oldSlug && truthy (slug validatedData)
          && negb (bool_decide (oldSlug = slug validatedData))
       then
         (fun w =>
           let '(redirectResult, w2) :=
             SeoUtils.createRedirectSafely now w siteId
               (default EmptyString oldSlug)
               (default EmptyString (slug validatedData)) 301 (id user) in
           if SeoUtils.success redirectResult then
             (inr true,
              World.log w2 ("Created redirect from " +:+ default EmptyString oldSlug
                            +:+ " to " +:+ default EmptyString (slug validatedData)))
           else
             (inr false,
              World.log w2 ("Error creating redirect: "
                            +:+ from_option SeoUtils.reason EmptyString
                                  (SeoUtils.error redirectResult)))) : M bool
       else mret false);
    mret (respond 200 (JObj [
      ("success", JBool true);
      ("data", savedData siteId path saved);
      ("message", JStr (if isNewPage then "SEO page created successfully"
                        else "SEO page updated successfully"));
      ("redirectCreated", JBool redirectCreated)]))
  ) w.

End WithValidator.

Definition DELETE (w : World.t) (param : string) : Response * World.t :=
  run (
    path ← try "Failed to reset SEO page" (decodePath param);
    predefinedPage ← predefined path;
    w0 ← world;
    let '(deletedPage, pages) :=
      SEOPage.findOneAndDelete (World.seoPages w0) siteId path in
    _ ← modify (fun w => World.withSeoPages w pages);
    match deletedPage with
    | None => reply (failure 404 "No custom SEO data found for this page")
    | Some deletedPage =>
        mret (respond 200 (JObj [
          ("success", JBool true);
          ("message", JStr "SEO page reset to default values successfully");
          ("data", JObj [
             ("path", JStr path);
             ("resetToDefaults", JObj [
                ("slug", JStr (PP.defaultSlug predefinedPage));
                ("metaTitle", JStr (PP.defaultTitle predefinedPage));
                ("metaDescription", JStr (PP.defaultDescription predefinedPage));
                ("pageCategory", JStr (PP.categoryName (PP.category predefinedPage)))]);
             ("deletedCustomData", JObj [
                ("slug", optStr (SEOPage.slug deletedPage));
                ("metaTitle", optStr (SEOPage.metaTitle deletedPage));
                ("metaDescription", optStr (SEOPage.metaDescription deletedPage));
                ("isCustom", JBool (SEOPage.isCustom deletedPage))])])]))
    end
  ) w.

End PathRoute.

(** ** Bulk operations: what the two bulk handlers share *)

Module Bulk.
Import Js Handler.
Module PP := PredefinedPages.

Inductive Operation : Type :=
| op_update | op_delete | op_reset | op_export | op_import.

#[global] Instance Operation_eq_dec : EqDecision Operation.
Proof. solve_decision. Defined.

Definition operationName (o : Operation) : string :=
  match o with
  | op_update => "update"
  | op_delete => "delete"
  | op_reset => "reset"
  | op_export => "export"
  | op_import => "import"
  end.

(** The [data] of a bulk update. *)
Record BulkData : Type := mkBulkData {
  metaTitle : option string;
  metaDescription : option string;
  robots : option string;
  pageCategory : option string;
  openGraph : option json
}.

Record ImportItem : Type := mkImport {
  i_path : string;
  i_metaTitle : option string;
  i_metaDescription : option string;
  i_robots : option string;
  i_pageCategory : option string
}.

(** The body after [enhancedBulkSeoOperationSchema.parse]. *)
Record Request : Type := mkRequest {
  operation : Operation;
  paths : option (list string);
  data : option BulkData;
  updatedBy : string;
  exportFormat : option string;
  importData : option (list ImportItem)
}.

(** Outcome of [validateBulkOperationLimits]. *)
Record Limit : Type := mkLimit {
  isValid : bool;
  error : string
}.

Definition siteId : string := "altiorainfotech".

(** [{ path, success: true, ...extra }] and [{ path, success: false, error }] *)
Definition okEntry (p : string) (extra : list (string * json)) : json :=
  JObj ([("path", JStr p); ("success", JBool true)] ++ extra).

Definition failEntry (p msg : string) : json :=
  JObj [("path", JStr p); ("success", JBool false); ("error", JStr msg)].

Definition succeeded (entry : json) : bool :=
  match get "success" entry with
  | Some (JBool true) => true
  | _ => false
  end.

(** [paths.filter(path => !getPredefinedPageByPath(path))] *)
Definition invalidPaths (ps : list string) : list string :=
  List.filter (fun p => negb (bool_decide (is_Some (PP.getPredefinedPageByPath p)))) ps.

(** One turn of a [for (const path of paths) { try { ... } catch { ... } }]
    loop: the step yields the entry it pushes on [results]. *)
Definition forEach {A : Type} (step : World.t -> A -> json * World.t)
    (items : list A) (w : World.t) : list json * World.t :=
  fold_left
    (fun acc item =>
       let '(entry, w') := step (snd acc) item in
       (fst acc ++ [entry], w'))
    items ([], w).

Definition loop {A : Type} (step : World.t -> A -> json * World.t)
    (items : list A) : M (list json) :=
  fun w => let '(rs, w') := forEach step items w in (inr rs, w').

(** Body of the update loop.  [ogOnCreate] tells whether the handler
    writes [openGraph] on a page it creates. *)
Definition updateStep (now : Z) (d : BulkData) (by_ : string)
    (ogOnCreate : bool) (extra : list (string * json))
    (w : World.t) (p : string) : json * World.t :=
  match SEOPage.findOne (World.seoPages w) siteId p with
  | Some seoPage =>
      let seoPage' :=
        SEOPage.mkDoc (SEOPage._id seoPage) (SEOPage.slug seoPage)
          (assign (metaTitle d) (SEOPage.metaTitle seoPage))
          (assign (metaDescription d) (SEOPage.metaDescription seoPage))
          (assign (robots d) (SEOPage.robots seoPage))
          (assign (pageCategory d) (SEOPage.pageCategory seoPage))
          (assign (openGraph d) (SEOPage.openGraph seoPage))
          true (SEOPage.createdBy seoPage) by_
          (SEOPage.createdAt seoPage) (SEOPage.updatedAt seoPage) in
      match SEOPage.save now (World.seoPages w) siteId p seoPage' with
      | Ok (_, pages) => (okEntry p extra, World.withSeoPages w pages)
      | Throw msg => (failEntry p msg, w)
      end
  | None =>
      match PP.getPredefinedPageByPath p with
      | None =>
          (failEntry p "Cannot read properties of undefined (reading 'defaultSlug')", w)
      | Some predefinedPage =>
          let '(i, w1) := World.freshId w in
          let seoPage :=
            SEOPage.mkDoc i
              (Some (PP.defaultSlug predefinedPage))
              (Some (or_else (metaTitle d) (PP.defaultTitle predefinedPage)))
              (Some (or_else (metaDescription d) (PP.defaultDescription predefinedPage)))
              (Some (or_else (robots d) "index,follow"))
              (Some (or_else (pageCategory d) (PP.categoryName (PP.category predefinedPage))))
              (if ogOnCreate then Some (default (JObj []) (openGraph d)) else None)
              true by_ by_ now now in
          match SEOPage.save now (World.seoPages w1) siteId p seoPage with
          | Ok (_, pages) => (okEntry p extra, World.withSeoPages w1 pages)
          | Throw msg => (failEntry p msg, w1)
          end
      end
  end.

(** Body of the delete and of the reset loop: [flag] names the key
    that carries [!!deleted]. *)
Definition deleteStep (extra : list (string * json)) (flag : string)
    (w : World.t) (p : string) : json * World.t :=
  let '(deleted, pages) := SEOPage.findOneAndDelete (World.seoPages w) siteId p in
  (okEntry p (extra ++ [(flag, JBool (bool_decide (is_Some deleted)))]),
   World.withSeoPages w pages).

(** One exported row. *)
Record ExportRow : Type := mkRow {
  e_path : string;
  e_slug : string;
  e_metaTitle : string;
  e_metaDescription : string;
  e_robots : string;
  e_pageCategory : string;
  e_isCustom : bool;
  e_openGraph : json;
  e_updatedAt : option Z
}.

Definition exportRow (w : World.t) (p : string) : ExportRow :=
  let seoPage := SEOPage.findOne (World.seoPages w) siteId p in
  let predefinedPage := PP.getPredefinedPageByPath p in
  mkRow p
    (or_else (seoPage ≫= SEOPage.slug)
       (or_else (PP.defaultSlug <$> predefinedPage) EmptyString))
    (or_else (seoPage ≫= SEOPage.metaTitle)
       (or_else (PP.defaultTitle <$> predefinedPage) EmptyString))
    (or_else (seoPage ≫= SEOPage.metaDescription)
       (or_else (PP.defaultDescription <$> predefinedPage) EmptyString))
    (or_else (seoPage ≫= SEOPage.robots) "index,follow")
    (or_else (seoPage ≫= SEOPage.pageCategory)
       (or_else ((fun pg => PP.categoryName (PP.category pg)) <$> predefinedPage) "other"))
    (from_option SEOPage.isCustom false seoPage)
    (default (JObj []) (seoPage ≫= SEOPage.openGraph))
    (SEOPage.updatedAt <$> seoPage).

Definition rowJson (r : ExportRow) : json :=
  JObj [
    ("path", JStr (e_path r));
    ("slug", JStr (e_slug r));
    ("metaTitle", JStr (e_metaTitle r));
    ("metaDescription", JStr (e_metaDescription r));
    ("robots", JStr (e_robots r));
    ("pageCategory", JStr (e_pageCategory r));
    ("isCustom", JBool (e_isCustom r));
    ("openGraph", e_openGraph r);
    ("updatedAt", optNum (e_updatedAt r))].

(** Body of the import loop. *)
Definition importStep (now : Z) (by_ : string) (extra : list (string * json))
    (w : World.t) (importItem : ImportItem) : json * World.t :=
  let p := i_path importItem in
  match PP.getPredefinedPageByPath p with
  | None => (failEntry p "Invalid page path", w)
  | Some predefinedPage =>
      match SEOPage.findOne (World.seoPages w) siteId p with
      | Some seoPage =>
          let seoPage' :=
            SEOPage.mkDoc (SEOPage._id seoPage) (SEOPage.slug seoPage)
              (or_opt (i_metaTitle importItem) (SEOPage.metaTitle seoPage))
              (or_opt (i_metaDescription importItem) (SEOPage.metaDescription seoPage))
              (or_opt (i_robots importItem) (SEOPage.robots seoPage))
              (or_opt (i_pageCategory importItem) (SEOPage.pageCategory seoPage))
              (SEOPage.openGraph seoPage)
              true (SEOPage.createdBy seoPage) by_
              (SEOPage.createdAt seoPage) (SEOPage.updatedAt seoPage) in
          match SEOPage.save now (World.seoPages w) siteId p seoPage' with
          | Ok (_, pages) => (okEntry p extra, World.withSeoPages w pages)
          | Throw msg => (failEntry p msg, w)
          end
      | None =>
          let '(i, w1) := World.freshId w in
          let seoPage :=
            SEOPage.mkDoc i
              (Some (PP.defaultSlug predefinedPage))
              (Some (or_else (i_metaTitle importItem) (PP.defaultTitle predefinedPage)))
              (Some (or_else (i_metaDescription importItem) (PP.defaultDescription predefinedPage)))
              (Some (or_else (i_robots importItem) "index,follow"))
              (Some (or_else (i_pageCategory importItem) (PP.categoryName (PP.category predefinedPage))))
              None
              true by_ by_ now now in
          match SEOPage.save now (World.seoPages w1) siteId p seoPage with
          | Ok (_, pages) => (okEntry p extra, World.withSeoPages w1 pages)
          | Throw msg => (failEntry p msg, w1)
          end
      end
  end.

(** The closing reply of both handlers. *)
Definition summary (o : Operation) (results : list json) (total : nat) : Response :=
  let successCount := List.length (List.filter succeeded results) in
  let failureCount := (List.length results - successCount)%nat in
  respond 200 (JObj [
    ("success", JBool true);
    ("data", JObj [
       ("operation", JStr (operationName o));
       ("results", JArr results);
       ("summary", JObj [
          ("total", JNum (Z.of_nat total));
          ("successful", JNum (Z.of_nat successCount));
          ("failed", JNum (Z.of_nat failureCount))])]);
    ("message", JStr ("Bulk " +:+ operationName o +:+ " completed: "
                      +:+ pretty successCount +:+ " successful, "
                      +:+ pretty failureCount +:+ " failed"))]).

(** The reply of an export. *)
Definition exported (now : Z) (format : option string) (payload : json)
    (count : nat) : Response :=
  respond 200 (JObj [
    ("success", JBool true);
    ("data", JObj [
       ("operation", JStr "export");
       ("exportData", payload);
       ("format", JStr (or_else format "json"));
       ("exportedAt", JNum now);
       ("totalItems", JNum (Z.of_nat count))]);
    ("message", JStr ("Exported " +:+ pretty count +:+ " SEO entries"))]).

End Bulk.

(** ** [app/api/admin/seo-pages/route.ts]: listing and upsert *)

Module PagesRoute.
Import Js Handler.
Module PP := PredefinedPages.

(** The query after [seoPageQuerySchema.parse]: the schema keeps
    [page] at 1 or more and [limit] between 1 and 100. *)
Record QueryParams : Type := mkQuery {
  page : nat;
  limit : nat;
  search : option string;
  category : option string;
  isCustom : option bool;
  siteId : string
}.

(** One composed row of the listing. *)
Record PageView : Type := mkView {
  v_path : string;
  v_slug : string;
  v_metaTitle : string;
  v_metaDescription : string;
  v_isCustom : bool;
  v_pageCategory : string;
  v_updatedAt : option Z;
  v_hasCustomSeo : bool;
  v_defaultTitle : string;
  v_defaultDescription : string;
  v_defaultSlug : string
}.

Definition viewJson (v : PageView) : json :=
  JObj [
    ("path", JStr (v_path v));
    ("slug", JStr (v_slug v));
    ("metaTitle", JStr (v_metaTitle v));
    ("metaDescription", JStr (v_metaDescription v));
    ("isCustom", JBool (v_isCustom v));
    ("pageCategory", JStr (v_pageCategory v));
    ("updatedAt", optNum (v_updatedAt v));
    ("hasCustomSeo", JBool (v_hasCustomSeo v));
    ("defaultTitle", JStr (v_defaultTitle v));
    ("defaultDescription", JStr (v_defaultDescription v));
    ("defaultSlug", JStr (v_defaultSlug v))].

(** [new Map(existingSeoPages.map(page => [page.path, page]))]: a later
    entry with the same path replaces an earlier one. *)
Definition seoPageMap (existingSeoPages : list (SEOPage.key * SEOPage.doc))
    : gmap string SEOPage.doc :=
  list_to_map (reverse (map (fun kd => (snd (fst kd), snd kd)) existingSeoPages)).

(** The overlay of one catalog entry with its override, if any. *)
Definition compose (existingSeo : option SEOPage.doc)
    (predefinedPage : PP.PredefinedPage) : PageView :=
  mkView
    (PP.path predefinedPage)
    (or_else (existingSeo ≫= SEOPage.slug) (PP.defaultSlug predefinedPage))
    (or_else (existingSeo ≫= SEOPage.metaTitle) (PP.defaultTitle predefinedPage))
    (or_else (existingSeo ≫= SEOPage.metaDescription) (PP.defaultDescription predefinedPage))
    (from_option SEOPage.isCustom false existingSeo)
    (or_else (existingSeo ≫= SEOPage.pageCategory) (PP.categoryName (PP.category predefinedPage)))
    (SEOPage.updatedAt <$> existingSeo)
    (bool_decide (is_Some existingSeo))
    (PP.defaultTitle predefinedPage)
    (PP.defaultDescription predefinedPage)
    (PP.defaultSlug predefinedPage).

(** [Math.ceil(total / limit)] for a positive limit. *)
Definition ceilDiv (total lim : nat) : nat := (total + lim - 1) / lim.

Section WithCollaborators.

(** [SEOCache.generateQueryHash] and [SEOCache.getCacheHeaders]. *)
Variable generateQueryHash : QueryParams -> string.
Variable getCacheHeaders : Z -> list (string * string).
(** [String.prototype.localeCompare]: negative, zero or positive. *)
Variable localeCompare : string -> string -> Z.
(** [String.prototype.toLowerCase]: the built-in follows the Unicode
    case mapping, so the search takes it as it is given. *)
Variable toLowerCase : string -> string.
Variable validateContentSecurity : string -> Security.

(** [Array.prototype.sort] with the path comparator; the sort is
    stable. *)
Fixpoint insertByPath (v : PageView) (sorted : list PageView)
    : list PageView :=
  match sorted with
  | [] => [v]
  | u :: rest =>
      if (localeCompare (v_path v) (v_path u) <=? 0)%Z
      then v :: u :: rest
      else u :: insertByPath v rest
  end.

Definition sortByPath (l : list PageView) : list PageView :=
  fold_right insertByPath [] l.

(** The test of the search filter; [searchLower] is the lowered search
    text. *)
Definition matchesSearch (searchLower : string) (v : PageView) : bool :=
  includes (toLowerCase (v_path v)) searchLower
  || includes (toLowerCase (v_metaTitle v)) searchLower
  || includes (toLowerCase (v_metaDescription v)) searchLower
  || includes (toLowerCase (v_slug v)) searchLower.

(** The composed, filtered, sorted and paginated listing. *)
Definition listing (pages : SEOPage.coll) (q : QueryParams) : json :=
  let existingSeoPages := SEOPage.find pages (siteId q) in
  let byPath := seoPageMap existingSeoPages in
  let allPages :=
    map (fun predefinedPage =>
           compose (byPath !! PP.path predefinedPage) predefinedPage)
        PP.PREDEFINED_PAGES in
  let allPages :=
    if truthy (search q) then
      List.filter (matchesSearch (toLowerCase (default EmptyString (search q))))
        allPages
    else allPages in
  let allPages :=
    if truthy (category q) then
      List.filter
        (fun v => (v_pageCategory v =? default EmptyString (category q))%string)
        allPages
    else allPages in
  let allPages :=
    match isCustom q with
    | Some b => List.filter (fun v => Bool.eqb (v_isCustom v) b) allPages
    | None => allPages
    end in
  let allPages := sortByPath allPages in
  let total := List.length allPages in
  let startIndex := ((page q - 1) * limit q)%nat in
  let paginatedPages := take (limit q) (drop startIndex allPages) in
  let totalPages := ceilDiv total (limit q) in
  let customPages :=
    List.length (List.filter (fun kd => SEOPage.isCustom (snd kd)) existingSeoPages) in
  JObj [
    ("success", JBool true);
    ("data", JObj [
       ("pages", JArr (map viewJson paginatedPages));
       ("pagination", JObj [
          ("page", JNum (Z.of_nat (page q)));
          ("limit", JNum (Z.of_nat (limit q)));
          ("total", JNum (Z.of_nat total));
          ("totalPages", JNum (Z.of_nat totalPages));
          ("hasNext", JBool (page q <? totalPages)%nat);
          ("hasPrev", JBool (1 <? page q)%nat)]);
       ("summary", JObj [
          ("totalPages", JNum (Z.of_nat (List.length PP.PREDEFINED_PAGES)));
          ("customPages", JNum (Z.of_nat customPages));
          ("defaultPages",
           JNum (Z.of_nat (List.length PP.PREDEFINED_PAGES) - Z.of_nat customPages))])])].

(** [GET /api/admin/seo-pages].  [bypass] is what
    [SEOCache.shouldBypassCache(request)] answers. *)
Definition GET (now : Z) (bypass : bool) (w : World.t) (queryParams : QueryParams)
    : Response * World.t :=
  run (
    let queryHash := generateQueryHash queryParams in
    w0 ← world;
    _ ← (if negb bypass then
           match SEOCache.getCachedSEOList now (World.cache w0)
                   (siteId queryParams) queryHash with
           | Some cachedResult =>
               reply (mkResponse 200 cachedResult (getCacheHeaders 1800))
           | None => mret tt
           end
         else mret tt);
    let result := listing (World.seoPages w0) queryParams in
    _ ← modify (fun w =>
           World.withCache w
             (SEOCache.cacheSEOList now (World.cache w) (siteId queryParams)
                queryHash result 1800));
    mret (mkResponse 200 result (getCacheHeaders 1800))
  ) w.

(** The body after [enhancedSeoPageSchema.parse]. *)
Record PageData : Type := mkData {
  d_path : string;
  d_slug : string;
  d_siteId : string;
  d_metaTitle : string;
  d_metaDescription : string;
  d_robots : option string;
  d_pageCategory : option string;
  d_openGraph : option json
}.

Definition auditEntry (a : SEOAuditLogger.Action) (site p : string)
    (old new : option string) (who : string)
    : SEOAuditLogger.AuditLogEntry :=
  SEOAuditLogger.mkEntry a site p old new [] who.

(** [POST /api/admin/seo-pages] *)
Definition POST (now : Z) (user : User) (w : World.t) (validatedData : PageData)
    : Response * World.t :=
  run (
    let titleSecurity := validateContentSecurity (d_metaTitle validatedData) in
    let descSecurity := validateContentSecurity (d_metaDescription validatedData) in
    _ ← (if negb (isSecure titleSecurity) || negb (isSecure descSecurity) then
           reply (respond 400 (JObj [
             ("success", JBool false);
             ("error", JStr "Content security validation failed");
             ("threats", threatsJson (threats titleSecurity ++ threats descSecurity))]))
         else mret tt);
    let path := d_path validatedData in
    let slug := d_slug validatedData in
    let siteId := d_siteId validatedData in
    predefinedPage ←
      match PP.getPredefinedPageByPath path with
      | Some page => mret page
      | None => reply (failure 400
          "Invalid page path. Path must be one of the predefined website pages.")
      end;
    w0 ← world;
    _ ← match SEOPage.findOneSlugElsewhere (World.seoPages w0) siteId slug path with
        | Some _ => reply (failure 400 "Slug already exists for another page")
        | None => mret tt
        end;
    let found := SEOPage.findOne (World.seoPages w0) siteId path in
    let isNewPage := bool_decide (found = None) in
    let oldSlug : option string :=
      match found with
      | Some seoPage =>
          if negb (bool_decide (SEOPage.slug seoPage = Some slug))
          then SEOPage.slug seoPage else None
      | None => None
      end in
    seoPage ← match found with
      | Some seoPage =>
          mret (SEOPage.mkDoc (SEOPage._id seoPage)
            (Some slug)
            (Some (d_metaTitle validatedData))
            (Some (d_metaDescription validatedData))
            (assign (d_robots validatedData) (SEOPage.robots seoPage))
            (assign (d_pageCategory validatedData) (SEOPage.pageCategory seoPage))
            (assign (d_openGraph validatedData) (SEOPage.openGraph seoPage))
            true (id user) (id user)
            (SEOPage.createdAt seoPage) (SEOPage.updatedAt seoPage))
      | None =>
          (fun w => let '(i, w1) := World.freshId w in
          (inr (SEOPage.mkDoc i
            (Some slug)
            (Some (d_metaTitle validatedData))
            (Some (d_metaDescription validatedData))
            (d_robots validatedData)
            (Some (PP.categoryName (PP.category predefinedPage)))
            (d_openGraph validatedData)
            true (id user) (id user) now now), w1)) : M SEOPage.doc
      end;
    w1 ← world;
    '(saved, pages) ← try "Failed to create/update SEO page"
                        (SEOPage.save now (World.seoPages w1) siteId path seoPage);
    _ ← modify (fun w => World.withSeoPages w pages);
    _ ← modify (fun w =>
           World.withCache w (SEOCache.invalidateSEOPage (World.cache w) siteId path));
    _ ← modify (fun w =>
           World.audit w
             (auditEntry
                (if isNewPage then SEOAuditLogger.create else SEOAuditLogger.update)
                siteId path
                (found ≫= SEOPage.slug) (SEOPage.slug saved) (id user)));
    redirectCreated ←
      (if truthy oldSlug && negb (bool_decide (oldSlug = Some slug))
       then
         (fun w =>
           let '(redirectResult, w2) :=
             SeoUtils.createRedirectSafely now w siteId
               (default EmptyString oldSlug) slug 301 (id user) in
           if SeoUtils.success redirectResult then
             let w3 :=
               World.log w2 ("Created redirect from " +:+ default EmptyString oldSlug
                             +:+ " to " +:+ slug) in
             let w4 :=
               World.audit w3
                 (auditEntry SEOAuditLogger.slug_change siteId path
                    oldSlug (Some slug) (id user)) in
             (inr true,
              World.audit w4
                (auditEntry SEOAuditLogger.redirect_create siteId
                   (default EmptyString oldSlug) oldSlug (Some slug) (id user)))
           else
             (inr false,
              World.log w2 ("Error creating redirect: "
                            +:+ from_option SeoUtils.reason EmptyString
                                  (SeoUtils.error redirectResult)))) : M bool
       else mret false);
    mret (respond 200 (JObj [
      ("success", JBool true);
      ("data", PathRoute.savedData siteId path saved);
      ("message", JStr (if isNewPage then "SEO page created successfully"
                        else "SEO page updated successfully"));
      ("redirectCreated", JBool redirectCreated)]))
  ) w.

Variable validateBulkOperationLimits : Bulk.Operation -> nat -> string -> Bulk.Limit.

(** [PUT /api/admin/seo-pages]: the first bulk endpoint.  It reads
    [validatedData.paths.length] unguarded, so a body without [paths]
    ends in the handler's [catch]. *)
Definition PUT (now : Z) (user : User) (w : World.t) (validatedData : Bulk.Request)
    : Response * World.t :=
  run (
    paths ← match Bulk.paths validatedData with
            | Some ps => mret ps
            | None => reply (caught "Cannot read properties of undefined (reading 'length')"
                               "Failed to perform bulk operation")
            end;
    let limitCheck :=
      validateBulkOperationLimits (Bulk.operation validatedData)
        (List.length paths) (role user) in
    _ ← (if negb (Bulk.isValid limitCheck) then
           reply (failure 400 (Bulk.error limitCheck))
         else mret tt);
    let operation := Bulk.operation validatedData in
    let data := Bulk.data validatedData in
    let updatedBy := Bulk.updatedBy validatedData in
    let invalidPaths := Bulk.invalidPaths paths in
    _ ← (if (0 <? List.length invalidPaths)%nat then
           reply (failure 400 ("Invalid paths: " +:+ join ", " invalidPaths))
         else mret tt);
    results ←
      match operation return M (list json) with
      | Bulk.op_update =>
          match data with
          | None => reply (failure 400 "Data is required for update operation")
          | Some data =>
              Bulk.loop (Bulk.updateStep now data updatedBy false []) paths
          end
      | Bulk.op_delete =>
          Bulk.loop (Bulk.deleteStep [] "deleted") paths
      | Bulk.op_reset =>
          Bulk.loop (Bulk.deleteStep [("reset", JBool true)] "hadCustomData") paths
      | Bulk.op_export =>
          w0 ← world;
          let exportData := map (Bulk.exportRow w0) paths in
          reply (Bulk.exported now (Bulk.exportFormat validatedData)
                   (JArr (map Bulk.rowJson exportData)) (List.length exportData))
      | Bulk.op_import =>
          match Bulk.importData validatedData with
          | None | Some [] =>
              reply (failure 400 "Import data is required for import operation")
          | Some importData =>
              Bulk.loop (Bulk.importStep now updatedBy [("imported", JBool true)]) importData
          end
      end;
    mret (Bulk.summary operation results (List.length paths))
  ) w.

End WithCollaborators.

End PagesRoute.

(** ** [app/api/admin/seo-pages/bulk/route.ts]: the enhanced bulk endpoint *)

Module BulkRoute.
Import Js Handler.
Module PP := PredefinedPages.

(** A CSV cell: the text between quotes, with every quote inside it
    doubled. *)
Definition quote : ascii := ascii_of_nat 34.

Fixpoint doubleQuotes (s : string) : string :=
  match s with
  | EmptyString => EmptyString
  | String c rest =>
      if Ascii.eqb c quote then String quote (String quote (doubleQuotes rest))
      else String c (doubleQuotes rest)
  end.

Definition csvCell (s : string) : string :=
  String quote (doubleQuotes s +:+ String quote EmptyString).

Definition csvHeaders : json :=
  JArr (map JStr ["path"; "slug"; "metaTitle"; "metaDescription"; "robots";
                  "pageCategory"; "isCustom"; "updatedAt"]).

Definition csvRow (item : Bulk.ExportRow) : json :=
  JArr [
    JStr (Bulk.e_path item);
    JStr (Bulk.e_slug item);
    JStr (csvCell (Bulk.e_metaTitle item));
    JStr (csvCell (Bulk.e_metaDescription item));
    JStr (Bulk.e_robots item);
    JStr (Bulk.e_pageCategory item);
    JBool (Bulk.e_isCustom item);
    match Bulk.e_updatedAt item with
    | Some t => JNum t
    | None => JStr EmptyString
    end].

Section WithCollaborators.

Variable validateContentSecurity : string -> Security.
Variable validateBulkOperationLimits : Bulk.Operation -> nat -> string -> Bulk.Limit.

Definition secure (field : option string) (msg : string) : M unit :=
  if truthy field then
    let check := validateContentSecurity (default EmptyString field) in
    if isSecure check then mret tt
    else reply (respond 400 (JObj [
           ("success", JBool false);
           ("error", JStr msg);
           ("threats", threatsJson (threats check))]))
  else mret tt.

(** The first loop of the import case: any flagged item ends the
    whole request. *)
Fixpoint secureAll (items : list Bulk.ImportItem) : M unit :=
  match items with
  | [] => mret tt
  | importItem :: rest =>
      _ ← secure (Bulk.i_metaTitle importItem)
            ("Meta title security validation failed for path "
             +:+ Bulk.i_path importItem);
      _ ← secure (Bulk.i_metaDescription importItem)
            ("Meta description security validation failed for path "
             +:+ Bulk.i_path importItem);
      secureAll rest
  end.

(** [paths?.length || importData?.length || 0] *)
Definition affected (r : Bulk.Request) : nat :=
  let n := from_option (@List.length string) 0%nat (Bulk.paths r) in
  if (n =? 0)%nat
  then from_option (@List.length Bulk.ImportItem) 0%nat (Bulk.importData r)
  else n.

Definition auditAction (o : Bulk.Operation) : SEOAuditLogger.Action :=
  match o with
  | Bulk.op_update => SEOAuditLogger.bulk_update
  | Bulk.op_delete => SEOAuditLogger.bulk_delete
  | Bulk.op_reset => SEOAuditLogger.bulk_reset
  | _ => SEOAuditLogger.bulk_update
  end.

Definition entryPath (entry : json) : string :=
  match get "path" entry with
  | Some (JStr p) => p
  | _ => EmptyString
  end.

Definition POST (now : Z) (user : User) (w : World.t) (validatedData : Bulk.Request)
    : Response * World.t :=
  run (
    let limitCheck :=
      validateBulkOperationLimits (Bulk.operation validatedData)
        (affected validatedData) (role user) in
    _ ← (if negb (Bulk.isValid limitCheck) then
           reply (failure 400 (Bulk.error limitCheck))
         else mret tt);
    let operation := Bulk.operation validatedData in
    let paths := Bulk.paths validatedData in
    let data := Bulk.data validatedData in
    let updatedBy := Bulk.updatedBy validatedData in
    let exportFormat := Bulk.exportFormat validatedData in
    let importData := Bulk.importData validatedData in
    results ←
      match operation return M (list json) with
      | Bulk.op_update =>
          match data, paths with
          | Some data, Some paths =>
              _ ← secure (Bulk.metaTitle data) "Meta title security validation failed";
              _ ← secure (Bulk.metaDescription data)
                    "Meta description security validation failed";
              let invalidPaths := Bulk.invalidPaths paths in
              _ ← (if (0 <? List.length invalidPaths)%nat then
                     reply (failure 400 ("Invalid paths: " +:+ join ", " invalidPaths))
                   else mret tt);
              Bulk.loop (Bulk.updateStep now data updatedBy true [("action", JStr "updated")]) paths
          | _, _ => reply (failure 400 "Data and paths are required for update operation")
          end
      | Bulk.op_delete =>
          match paths with
          | None => reply (failure 400 "Paths are required for delete operation")
          | Some paths =>
              Bulk.loop (Bulk.deleteStep [("action", JStr "deleted")] "deleted") paths
          end
      | Bulk.op_reset =>
          match paths with
          | None => reply (failure 400 "Paths are required for reset operation")
          | Some paths =>
              Bulk.loop (Bulk.deleteStep [("action", JStr "reset")] "hadCustomData") paths
          end
      | Bulk.op_export =>
          match paths with
          | None => reply (failure 400 "Paths are required for export operation")
          | Some paths =>
              w0 ← world;
              let exportData := map (Bulk.exportRow w0) paths in
              let formattedData :=
                if bool_decide (exportFormat = Some "csv")
                then JArr (csvHeaders :: map csvRow exportData)
                else JArr (map Bulk.rowJson exportData) in
              reply (Bulk.exported now exportFormat formattedData
                       (List.length exportData))
          end
      | Bulk.op_import =>
          match importData with
          | None | Some [] =>
              reply (failure 400 "Import data is required for import operation")
          | Some importData =>
              _ ← secureAll importData;
              Bulk.loop (Bulk.importStep now updatedBy [("action", JStr "imported")]) importData
          end
      end;
    let successCount := List.length (List.filter Bulk.succeeded results) in
    _ ← (if (0 <? successCount)%nat
            && negb (bool_decide (operation = Bulk.op_import)) then
           modify (fun w =>
             World.audit w
               (SEOAuditLogger.mkEntry (auditAction operation) Bulk.siteId EmptyString
                  None None
                  (map entryPath (List.filter Bulk.succeeded results))
                  updatedBy))
         else mret tt);
    mret (Bulk.summary operation results (List.length results))
  ) w.

End WithCollaborators.

End BulkRoute.

(** ** [app/api/admin/seo-pages/redirects/route.ts] *)

Module RedirectsRoute.
Import Js Handler.

(** The body after [enhancedRedirectSchema.parse]. *)
Record RedirectData : Type := mkData {
  siteId : string;
  from : string;
  to : string;
  statusCode : nat;
  createdBy : string
}.

Definition redirectJson (site source : string) (d : Redirect.doc) : json :=
  JObj [
    ("_id", JNum (Z.of_nat (Redirect._id d)));
    ("siteId", JStr site);
    ("from", JStr source);
    ("to", JStr (Redirect.to d));
    ("statusCode", JNum (Z.of_nat (Redirect.statusCode d)));
    ("createdBy", JStr (Redirect.createdBy d));
    ("createdAt", JNum (Redirect.createdAt d))].

Section WithValidator.

Variable validateContentSecurity : string -> Security.

(** [POST /api/admin/seo-pages/redirects] *)
Definition POST (now : Z) (w : World.t) (validatedData : RedirectData)
    : Response * World.t :=
  run (
    let fromSecurity := validateContentSecurity (from validatedData) in
    let toSecurity := validateContentSecurity (to validatedData) in
    _ ← (if negb (isSecure fromSecurity) || negb (isSecure toSecurity) then
           reply (respond 400 (JObj [
             ("success", JBool false);
             ("error", JStr "Redirect path security validation failed");
             ("threats", threatsJson (threats fromSecurity ++ threats toSecurity))]))
         else mret tt);
    let siteId := siteId validatedData in
    let from := from validatedData in
    let to := to validatedData in
    w0 ← world;
    _ ← match Redirect.findOne (World.redirects w0) siteId from with
        | Some _ => reply (failure 400 "Redirect already exists for this source path")
        | None => mret tt
        end;
    redirect ← ((fun w => let '(i, w1) := World.freshId w in
                 (inr (Redirect.mkDoc i to (statusCode validatedData)
                         (createdBy validatedData) now), w1)) : M Redirect.doc);
    w1 ← world;
    let chainResult := Redirect.checkRedirectChain (World.redirects w1) siteId from to in
    _ ← (if Redirect.isLoop chainResult then
           reply (failure 400 "Redirect would create an infinite loop")
         else mret tt);
    _ ← (if Redirect.hasChain chainResult && (5 <=? Redirect.depth chainResult)%nat then
           reply (failure 400 "Redirect chain too long (maximum 5 redirects)")
         else mret tt);
    redirects ← try "Failed to create redirect"
                  (Redirect.save (World.redirects w1) siteId from redirect);
    _ ← modify (fun w => World.withRedirects w redirects);
    mret (respond 200 (JObj [
      ("success", JBool true);
      ("data", redirectJson siteId from redirect);
      ("message", JStr "Redirect created successfully")]))
  ) w.

End WithValidator.

(** The body of a bulk deletion.  [redirectIds] is [None] when the
    member is missing or is not an array; the ids are the document ids
    of the driver. *)
Record DeleteBody : Type := mkDelete {
  redirectIds : option (list nat);
  d_siteId : option string
}.

(** [Redirect.deleteMany({ _id: { $in: ids }, siteId })]: the number of
    deleted documents and what is left. *)
Definition deleteMany (c : Redirect.coll) (ids : list nat) (site : string)
    : nat * Redirect.coll :=
  let hit (kd : (string * string) * Redirect.doc) : Prop :=
    fst (fst kd) = site /\ Redirect._id (snd kd) ∈ ids in
  (size (filter hit c), filter (fun kd => ~ hit kd) c).

(** [DELETE /api/admin/seo-pages/redirects] *)
Definition DELETE (w : World.t) (body : DeleteBody) : Response * World.t :=
  run (
    let siteId := default "altiorainfotech" (d_siteId body) in
    redirectIds ←
      match redirectIds body with
      | None | Some [] => reply (failure 400 "Redirect IDs are required")
      | Some ids => mret ids
      end;
    _ ← (if (50 <? List.length redirectIds)%nat then
           reply (failure 400 "Cannot delete more than 50 redirects at once")
         else mret tt);
    w0 ← world;
    let '(deletedCount, redirects) :=
      deleteMany (World.redirects w0) redirectIds siteId in
    _ ← modify (fun w => World.withRedirects w redirects);
    mret (respond 200 (JObj [
      ("success", JBool true);
      ("message", JStr (pretty deletedCount +:+ " redirects deleted successfully"));
      ("data", JObj [
         ("deletedCount", JNum (Z.of_nat deletedCount));
         ("requestedCount", JNum (Z.of_nat (List.length redirectIds)))])]))
  ) w.

End RedirectsRoute.

(** ** [app/api/admin/seo-pages/seed/route.ts] *)

Module SeedRoute.
Import Js Handler.
Module PP := PredefinedPages.

Definition siteId : string := "altiorainfotech".

(** Body of the seeding loop: a page that already has a record is
    skipped, any other gets a record of its defaults that is marked as
    not custom. *)
Definition seedStep (now : Z) (user : User) (w : World.t)
    (predefinedPage : PP.PredefinedPage) : json * World.t :=
  let p := PP.path predefinedPage in
  match SEOPage.findOne (World.seoPages w) siteId p with
  | Some existingPage =>
      (JObj [("path", JStr p); ("status", JStr "skipped");
             ("reason", JStr "Already exists");
             ("isCustom", JBool (SEOPage.isCustom existingPage))], w)
  | None =>
      let '(i, w1) := World.freshId w in
      let seoPage :=
        SEOPage.mkDoc i
          (Some (PP.defaultSlug predefinedPage))
          (Some (PP.defaultTitle predefinedPage))
          (Some (PP.defaultDescription predefinedPage))
          (Some "index,follow")
          (Some (PP.categoryName (PP.category predefinedPage)))
          None
          false (id user) (id user) now now in
      match SEOPage.save now (World.seoPages w1) siteId p seoPage with
      | Ok (saved, pages) =>
          (JObj [("path", JStr p); ("status", JStr "created");
                 ("slug", optStr (SEOPage.slug saved));
                 ("category", optStr (SEOPage.pageCategory saved))],
           World.withSeoPages w1 pages)
      | Throw msg =>
          (JObj [("path", JStr p); ("status", JStr "error"); ("error", JStr msg)],
           World.log w1 ("Error seeding page " +:+ p +:+ ": " +:+ msg))
      end
  end.

Definition hasStatus (st : string) (entry : json) : bool :=
  match get "status" entry with
  | Some (JStr s) => (s =? st)%string
  | _ => false
  end.

(** [POST /api/admin/seo-pages/seed] *)
Definition POST (now : Z) (user : User) (w : World.t) : Response * World.t :=
  let '(results, w') := Bulk.forEach (seedStep now user) PP.PREDEFINED_PAGES w in
  let createdCount := List.length (List.filter (hasStatus "created") results) in
  let skippedCount := List.length (List.filter (hasStatus "skipped") results) in
  let errorCount := List.length (List.filter (hasStatus "error") results) in
  let totalExisting := SEOPage.countDocuments (World.seoPages w') siteId false in
  let customPages := SEOPage.countDocuments (World.seoPages w') siteId true in
  (respond 200 (JObj [
     ("success", JBool true);
     ("message", JStr ("Seeding completed: " +:+ pretty createdCount +:+ " created, "
                       +:+ pretty skippedCount +:+ " skipped, "
                       +:+ pretty errorCount +:+ " errors"));
     ("data", JObj [
        ("summary", JObj [
           ("totalPredefinedPages", JNum (Z.of_nat (List.length PP.PREDEFINED_PAGES)));
           ("created", JNum (Z.of_nat createdCount));
           ("skipped", JNum (Z.of_nat skippedCount));
           ("errors", JNum (Z.of_nat errorCount));
           ("totalInDatabase", JNum (Z.of_nat totalExisting));
           ("customPages", JNum (Z.of_nat customPages));
           ("defaultPages", JNum (Z.of_nat totalExisting - Z.of_nat customPages))]);
        ("results", JArr results)])]),
   w').

(** One entry of [seedingStatus]. *)
Record SeedingStatus : Type := mkStatus {
  s_path : string;
  s_category : PP.Category;
  isSeeded : bool;
  s_isCustom : bool;
  s_createdAt : option Z
}.

Definition statusJson (s : SeedingStatus) : json :=
  JObj [
    ("path", JStr (s_path s));
    ("category", JStr (PP.categoryName (s_category s)));
    ("isSeeded", JBool (isSeeded s));
    ("isCustom", JBool (s_isCustom s));
    ("createdAt", optNum (s_createdAt s))].

(** The counters of one category in [categoryStats]. *)
Record CategoryStat : Type := mkStat {
  total : nat;
  seeded : nat;
  custom : nat
}.

Definition statJson (s : CategoryStat) : json :=
  JObj [
    ("total", JNum (Z.of_nat (total s)));
    ("seeded", JNum (Z.of_nat (seeded s)));
    ("custom", JNum (Z.of_nat (custom s)))].

(** One turn of the [reduce]: the entry of the category is created on
    first sight, at the end of the object, and then counted up. *)
Fixpoint count (c : PP.Category) (existing : option SEOPage.doc)
    (acc : list (PP.Category * CategoryStat)) : list (PP.Category * CategoryStat) :=
  let bump s :=
    mkStat (S (total s))
      (if bool_decide (is_Some existing) then S (seeded s) else seeded s)
      (if from_option SEOPage.isCustom false existing then S (custom s) else custom s) in
  match acc with
  | [] => [(c, bump (mkStat 0 0 0))]
  | (c', s) :: rest =>
      if bool_decide (c' = c) then (c', bump s) :: rest
      else (c', s) :: count c existing rest
  end.

(** [Math.round((seeded / total) * 100)].  The quotient lies at least
    1/22 away from every half-integer when the catalog has 55 entries,
    so the rounding of the floating-point product agrees with the exact
    one, which is computed here. *)
Definition progress (seededCount totalCount : nat) : nat :=
  (200 * seededCount + totalCount) / (2 * totalCount).

(** [GET /api/admin/seo-pages/seed]: the seeding status. *)
Definition GET (w : World.t) : Response * World.t :=
  let existingPages := SEOPage.find (World.seoPages w) siteId in
  let existingPageMap := PagesRoute.seoPageMap existingPages in
  let seedingStatus :=
    map (fun predefinedPage =>
           let existing := existingPageMap !! PP.path predefinedPage in
           mkStatus (PP.path predefinedPage) (PP.category predefinedPage)
             (bool_decide (is_Some existing))
             (from_option SEOPage.isCustom false existing)
             (SEOPage.createdAt <$> existing))
        PP.PREDEFINED_PAGES in
  let seededPages := List.filter isSeeded seedingStatus in
  let unseededPages := List.filter (fun p => negb (isSeeded p)) seedingStatus in
  let customPages := List.filter s_isCustom seededPages in
  let defaultPages := List.filter (fun p => negb (s_isCustom p)) seededPages in
  let categoryStats :=
    fold_left
      (fun acc page => count (PP.category page) (existingPageMap !! PP.path page) acc)
      PP.PREDEFINED_PAGES [] in
  (respond 200 (JObj [
     ("success", JBool true);
     ("data", JObj [
        ("summary", JObj [
           ("totalPredefinedPages", JNum (Z.of_nat (List.length PP.PREDEFINED_PAGES)));
           ("seededPages", JNum (Z.of_nat (List.length seededPages)));
           ("unseededPages", JNum (Z.of_nat (List.length unseededPages)));
           ("customPages", JNum (Z.of_nat (List.length customPages)));
           ("defaultPages", JNum (Z.of_nat (List.length defaultPages)));
           ("seedingProgress",
            JNum (Z.of_nat (progress (List.length seededPages)
                              (List.length PP.PREDEFINED_PAGES))))]);
        ("categoryStats",
         JObj (map (fun cs => (PP.categoryName (fst cs), statJson (snd cs))) categoryStats));
        ("seedingStatus", JArr (map statusJson seedingStatus));
        ("needsSeeding", JBool (0 <? List.length unseededPages)%nat);
        ("recommendations",
         JArr (map JStr
           (if (0 <? List.length unseededPages)%nat
            then [pretty (List.length unseededPages) +:+ " pages need to be seeded";
                  "Run POST /api/admin/seo-pages/seed to initialize missing pages"]
            else ["All pages are seeded"; "Database is ready for SEO management"])))])]),
   w).

End SeedRoute.

(** ** [lib/sanitize]: plain text and URLs

    Strings are the UTF-8 form of the JavaScript strings.  The characters
    that the patterns name are ASCII, and no octet of a longer sequence
    is an ASCII octet, so the patterns match the octets as they match the
    characters. *)

Module Sanitize.
Import Js.

(** Whether a [>] occurs in the string. *)
Fixpoint hasGt (s : string) : bool :=
  match s with
  | EmptyString => false
  | String c rest => Ascii.eqb c ">" || hasGt rest
  end.

(** [text.replace(/<[^>]*>/g, '')].  A [<] that has a [>] somewhere after
    it opens a match, which runs to the first such [>]; a [<] without one
    matches nothing and stays.  [inTag] says that the scan is inside a
    match. *)
Fixpoint stripTags (inTag : bool) (s : string) : string :=
  match s with
  | EmptyString => EmptyString
  | String c rest =>
      if inTag then
        if Ascii.eqb c ">" then stripTags false rest else stripTags true rest
      else if Ascii.eqb c "<" && hasGt rest then stripTags true rest
      else String c (stripTags false rest)
  end.

(** [s.replace(/pat/g, rep)] for a literal, non-empty [pat]: the matches
    are taken from the left and do not overlap.  [skip] counts the
    characters of a match that are still to be passed over. *)
Fixpoint replaceAll (pat rep : string) (skip : nat) (s : string) : string :=
  match s with
  | EmptyString => EmptyString
  | String c rest =>
      match skip with
      | S k => replaceAll pat rep k rest
      | O =>
          if String.prefix pat s
          then rep +:+ replaceAll pat rep (String.length pat - 1) rest
          else String c (replaceAll pat rep 0 rest)
      end
  end.

(** The chain of entity replacements, in the order of the source. *)
Definition decodeEntities (s : string) : string :=
  let s := replaceAll "&amp;" "&" 0 s in
  let s := replaceAll "&lt;" "<" 0 s in
  let s := replaceAll "&gt;" ">" 0 s in
  let s := replaceAll "&quot;" (String (ascii_of_nat 34) EmptyString) 0 s in
  let s := replaceAll "&#x27;" "'" 0 s in
  let s := replaceAll "&#x2F;" "/" 0 s in
  replaceAll "&nbsp;" " " 0 s.

Section WithTrim.

(** [String.prototype.trim] *)
Variable trim : string -> string.

Definition sanitizeTextContent (text : string) : string :=
  match text with
  | EmptyString => EmptyString
  | _ => trim (decodeEntities (stripTags false text))
  end.

End WithTrim.

Definition isLetter (c : ascii) : bool :=
  let n := nat_of_ascii c in
  ((65 <=? n)%nat && (n <=? 90)%nat) || ((97 <=? n)%nat && (n <=? 122)%nat).

(** The class [[a-z+.\-]] under the [i] flag. *)
Definition schemeChar (c : ascii) : bool :=
  isLetter c || Ascii.eqb c "+" || Ascii.eqb c "." || Ascii.eqb c "-".

(** The schemes that the first alternative of [URL_REGEX] spells out:
    [(?:f|ht)tps?], [mailto], [tel], [callto], [cid], [xmpp], [data]. *)
Definition allowedSchemes : list string :=
  ["ftp"; "ftps"; "http"; "https"; "mailto"; "tel"; "callto"; "cid"; "xmpp"; "data"].

(** What follows the longest run of scheme characters at the start. *)
Fixpoint afterRun (s : string) : string :=
  match s with
  | String c rest => if schemeChar c then afterRun rest else s
  | EmptyString => EmptyString
  end.

(** [URL_REGEX.test(url)].  The expression is anchored at the start and
    has three alternatives: an allowed scheme and a colon; one character
    that is no letter; a run of scheme characters that is followed by the
    end of the string or by a character that is neither a scheme
    character nor a colon.  Since every character of the run is a scheme
    character, only the longest run can be followed in that way. *)
Definition URL_REGEX_test (url : string) : bool :=
  existsb (fun scheme => startsWith (toLowerCase url) (scheme +:+ ":")) allowedSchemes
  || match url with
     | String c _ => negb (isLetter c)
     | EmptyString => false
     end
  || match url with
     | String c _ =>
         schemeChar c
         && match afterRun url with
            | EmptyString => true
            | String d _ => negb (Ascii.eqb d ":")
            end
     | EmptyString => false
     end.

(** [sanitizeUrl].  The three prefixes that are compared after
    [toLowerCase] consist of ASCII letters, a colon and a slash, and no
    character outside ASCII has a lower-case form that begins with one
    of their letters followed by the next character of the prefix; so
    lowering the ASCII letters alone decides the comparisons. *)
Definition sanitizeUrl (url : string) : string :=
  match url with
  | EmptyString => EmptyString
  | _ =>
      if startsWith (toLowerCase url) "javascript:" then "#"
      else if startsWith (toLowerCase url) "data:"
              && negb (startsWith (toLowerCase url) "data:image/") then "#"
      else if negb (URL_REGEX_test url) then "#"
      else url
  end.

End Sanitize.

(** ** The admin page of the SEO pages ([app/admin/seo-pages/page.tsx]) *)

Module SEOPagesPage.
Import Js.
Module PP := PredefinedPages.

(** JavaScript truthiness of a JSON value. *)
Definition truthyJson (v : json) : bool :=
  match v with
  | JNull => false
  | JBool b => b
  | JNum n => negb (n =? 0)%Z
  | JStr s => negb (s =? EmptyString)%string
  | JArr _ => true
  | JObj _ => true
  end.

(** [existingSEO?.key || fallback] *)
Definition or_default (existingSEO : option json) (key fallback : string) : json :=
  match existingSEO ≫= get key with
  | Some v => if truthyJson v then v else JStr fallback
  | None => JStr fallback
  end.

(** A row of the table of the admin page. *)
Record SEOPageData : Type := mkPageData {
  path : string;
  slug : json;
  metaTitle : json;
  metaDescription : json;
  isCustom : bool;
  pageCategory : PP.Category;
  _id : option json;
  updatedAt : option json;
  updatedBy : option json
}.

(** [seo.path === path]: true only for a string member equal to the
    path. *)
Definition hasPath (p : string) (seo : json) : bool :=
  match get "path" seo with
  | Some (JStr q) => (q =? p)%string
  | _ => false
  end.

(** The merge in [loadSEOPages]: [data] is the array [result.data.pages]
    of the listing reply, whose rows are objects. *)
Definition mergedPages (data : list json) : list SEOPageData :=
  map (fun predefinedPage =>
         let existingSEO :=
           List.find (hasPath (PP.path predefinedPage)) data in
         mkPageData
           (PP.path predefinedPage)
           (or_default existingSEO "slug" (PP.defaultSlug predefinedPage))
           (or_default existingSEO "metaTitle" (PP.defaultTitle predefinedPage))
           (or_default existingSEO "metaDescription" (PP.defaultDescription predefinedPage))
           (bool_decide (is_Some existingSEO))
           (PP.category predefinedPage)
           (existingSEO ≫= get "_id")
           (existingSEO ≫= get "updatedAt")
           (existingSEO ≫= get "updatedBy"))
      PP.PREDEFINED_PAGES.

End SEOPagesPage.

(** ** Notions used to state the properties *)

Module Notions.
Import Js.

(** The path parameter of a page written without its leading slash. *)
Definition withoutLeadingSlash (p : string) : string :=
  match p with
  | String "/" rest => rest
  | _ => p
  end.

(** [v] is the field of a composed view whose override is [o] and whose
    default is [d]: the override where one is set (present and not
    empty), the default elsewhere. *)
Definition Overlaid (o : option string) (d : string) (v : option json) : Prop :=
  (forall s, o = Some s -> s <> EmptyString -> v = Some (JStr s))
  /\ (truthy o = false -> v = Some (JStr d)).

(** [follows c site x n y]: [n] stored redirects of [site] lead from [x]
    to [y]. *)
Inductive follows (c : Redirect.coll) (site : string)
    : string -> nat -> string -> Prop :=
| follows_here x : follows c site x 0 x
| follows_step x r n y :
    c !! (site, x) = Some r ->
    follows c site (Redirect.to r) n y ->
    follows c site x (S n) y.

(** The unique index on (siteId, slug). *)
Definition slugUnique (c : SEOPage.coll) : Prop :=
  forall k1 k2 d1 d2,
    c !! k1 = Some d1 -> c !! k2 = Some d2 ->
    fst k1 = fst k2 -> SEOPage.slug d1 = SEOPage.slug d2 -> k1 = k2.

(** No record of [site] other than the one of path [p] holds slug [s]. *)
Definition slugFree (c : SEOPage.coll) (site : string) (s : option string)
    (p : string) : Prop :=
  forall q d, c !! (site, q) = Some d -> SEOPage.slug d = s -> q = p.

(** The three ways the handlers read the answer of the chain check. *)
Inductive Verdict : Type := Loops | TooLong | Fine.

Definition verdict (c : Redirect.coll) (site from dest : string) : Verdict :=
  let chain := Redirect.checkRedirectChain c site from dest in
  if Redirect.isLoop chain then Loops
  else if (Redirect.hasChain chain && (5 <=? Redirect.depth chain)%nat) then TooLong
  else Fine.

Definition resultIs (r : result string) (p : string) : bool :=
  match r with
  | Ok q => (q =? p)%string
  | Throw _ => false
  end.

(** The [data] member of a reply. *)
Definition dataOf (r : Response) : json :=
  default JNull (get "data" (body r)).

(** The [summary] inside the [data] of a bulk reply. *)
Definition summaryOf (r : Response) : json :=
  default JNull (get "summary" (dataOf r)).

(** The entry that the enhanced bulk endpoint pushes for a path that it
    deleted or reset; [had] tells whether a record was there. *)
Definition removalEntry (o : Bulk.Operation) (p : string) (had : bool) : json :=
  match o with
  | Bulk.op_reset =>
      Bulk.okEntry p [("action", JStr "reset"); ("hadCustomData", JBool had)]
  | _ =>
      Bulk.okEntry p [("action", JStr "deleted"); ("deleted", JBool had)]
  end.

(** [validateContentSecurity] lets an optional field through. *)
Definition passes (vcs : string -> Handler.Security) (field : option string) : Prop :=
  truthy field = true ->
  Handler.isSecure (vcs (default EmptyString field)) = true.

Definition inCatalog (p : string) : bool :=
  bool_decide (is_Some (PredefinedPages.getPredefinedPageByPath p)).



(** The octet that percent-decoding reads back for a character that
    [encodeURIComponent] has written. *)
Definition tag (c : ascii) : Uri.octet := (negb (UriEncode.unreserved c), N_of_ascii c).

(** What a per-path update stores in a text field: over a record it
    assigns the fields that are given, for a new record it falls back to
    the default. *)
Definition stored (old : option SEOPage.doc) (f : SEOPage.doc -> option string)
    (new : option string) (dflt : string) : option string :=
  match old with
  | Some rec => assign new (f rec)
  | None => Some (or_else new dflt)
  end.

(** The value that a field of the update asks for: a text that is set
    shows after the update, a field that is left out keeps what was
    shown before. *)
Definition Updated (new : option string) (before after : option json) : Prop :=
  (forall s, new = Some s -> s <> EmptyString -> after = Some (JStr s))
  /\ (new = None -> after = before).

(** The rows of a listing reply. *)
Definition rowsOf (listing : json) : list json :=
  match get "pages" (default JNull (get "data" listing)) with
  | Some (JArr rows) => rows
  | _ => []
  end.

(** A number of the [pagination] object of a listing reply. *)
Definition paginationOf (key : string) (listing : json) : nat :=
  match get key (default JNull (get "pagination" (default JNull (get "data" listing)))) with
  | Some (JNum n) => Z.to_nat n
  | _ => 0
  end.

(** The same query for another page, and with another page size. *)
Definition atPage (q : PagesRoute.QueryParams) (i : nat) : PagesRoute.QueryParams :=
  PagesRoute.mkQuery i (PagesRoute.limit q) (PagesRoute.search q)
    (PagesRoute.category q) (PagesRoute.isCustom q) (PagesRoute.siteId q).

Definition withLimit (q : PagesRoute.QueryParams) (l : nat) : PagesRoute.QueryParams :=
  PagesRoute.mkQuery (PagesRoute.page q) l (PagesRoute.search q)
    (PagesRoute.category q) (PagesRoute.isCustom q) (PagesRoute.siteId q).

(** The path of a row of a listing reply. *)
Definition rowPath (row : json) : string :=
  match get "path" row with
  | Some (JStr p) => p
  | _ => EmptyString
  end.

(** The order that a comparator puts on the rows, by their paths. *)
Definition byPath (cmp : string -> string -> Z) (u v : PagesRoute.PageView) : Prop :=
  (cmp (PagesRoute.v_path u) (PagesRoute.v_path v) <= 0)%Z.

(** The [status] that a seeding result carries. *)
Definition seedOutcome (entry : json) : option string :=
  match get "status" entry with
  | Some (JStr s) => Some s
  | _ => None
  end.

(** The key under which the seeding files a page. *)
Definition seedKey (page : PredefinedPages.PredefinedPage) : string * string :=
  (SeedRoute.siteId, PredefinedPages.path page).

(** What a seeding run did with one page, in terms of the store before
    ([c]) and after ([c']) the run. *)
Definition Seeded (c c' : SEOPage.coll) (page : PredefinedPages.PredefinedPage) (entry : json) : Prop :=
  (seedOutcome entry = Some "skipped" /\ is_Some (c !! seedKey page))
  \/ (seedOutcome entry = Some "created"
      /\ c !! seedKey page = None /\ is_Some (c' !! seedKey page))
  \/ (seedOutcome entry = Some "error"
      /\ c !! seedKey page = None /\ c' !! seedKey page = None
      /\ ~ slugFree c' SeedRoute.siteId (Some (PredefinedPages.defaultSlug page)) (PredefinedPages.path page)).

(** A page that a seeding run has nothing to add for: it has a record,
    or its default slug is taken by another page. *)
Definition Settled (c : SEOPage.coll) (page : PredefinedPages.PredefinedPage) : Prop :=
  is_Some (c !! seedKey page)
  \/ ~ slugFree c SeedRoute.siteId (Some (PredefinedPages.defaultSlug page)) (PredefinedPages.path page).

(** A scheme name: scheme characters, the first of them a letter. *)
Definition isScheme (s : string) : bool :=
  match s with
  | String c _ => Sanitize.isLetter c && forallb Sanitize.schemeChar (list_ascii_of_string s)
  | EmptyString => false
  end.

(** No [<] of the string has a [>] after it: the string holds no tag. *)
Fixpoint noTag (s : string) : bool :=
  match s with
  | EmptyString => true
  | String c rest => (negb (Ascii.eqb c "<") || negb (Sanitize.hasGt rest)) && noTag rest
  end.

(** The string has none of the given characters. *)
Definition without (cs : list ascii) (s : string) : Prop :=
  forall c, In c (list_ascii_of_string s) -> ~ In c cs.

(** Every record of [c'] is a record of [c] or belongs to a page of the
    catalog: going from [c] to [c'] has added no record for a path that
    the catalog does not have. *)
Definition Within (c c' : SEOPage.coll) : Prop :=
  forall k, is_Some (c' !! k) -> is_Some (c !! k) \/ inCatalog (snd k) = true.





End Notions.

(** ** Worlds and requests used as examples *)

Module Scenario.
Import Js Handler.
Module PP := PredefinedPages.

Definition emptyWorld : World.t := World.mk ∅ ∅ ∅ [] [] 0.

Definition admin : User := mkUser "admin-1" "admin".


Definition noLimit (o : Bulk.Operation) (n : nat) (r : string) : Bulk.Limit :=
  Bulk.mkLimit true EmptyString.

Definition aboutPage : PP.PredefinedPage :=
  PP.mkPage "/about" "about-us" PP.Cat_about
    "About Altiora Infotech - Innovation & Excellence"
    "Learn about Altiora Infotech's mission to deliver innovative AI, Web3, and growth engineering solutions for businesses worldwide.".

(** The world after [POST /api/admin/seo-pages/seed] on an empty
    database. *)
Definition seeded : World.t := snd (SeedRoute.POST 0 admin emptyWorld).

(** A content validator that accepts every text. *)
Definition acceptAll (s : string) : Security := mkSecurity true [].

Definition site : string := "altiorainfotech".

(** The world in which the given redirects have been created, one after
    the other, through [createRedirectSafely]. *)
Definition withRedirectsCreated (edges : list (string * string)) : World.t :=
  fold_left
    (fun w e => snd (SeoUtils.createRedirectSafely 0 w site (fst e) (snd e) 301 "admin-1"))
    edges emptyWorld.

Definition oneRedirect : World.t := withRedirectsCreated [("a", "b")].

Definition chainOfFour : World.t :=
  withRedirectsCreated [("a", "b"); ("b", "c"); ("c", "d"); ("d", "e")].

(** The world in which /about carries a custom slug. *)
Definition customAbout : World.t :=
  snd (PathRoute.PUT acceptAll 10 admin emptyWorld "about"
         (PathRoute.mkUpdate (Some "about-x") None None None None None)).

Definition deleteRequest (ps : list string) : Bulk.Request :=
  Bulk.mkRequest Bulk.op_delete (Some ps) None "admin-1" None None.






(** The world in which /about was renamed twice: first to about-x, then
    to about-y, which left the redirect about-x -> about-y behind. *)
Definition renamedAbout : World.t :=
  snd (PathRoute.PUT acceptAll 20 admin customAbout "about"
         (PathRoute.mkUpdate (Some "about-y") None None None None None)).

Definition backToX : PathRoute.UpdateData :=
  PathRoute.mkUpdate (Some "about-x") None None None None None.

(** An upsert of /careers that asks for the slug held by /about. *)
Definition careersAsAboutX : PagesRoute.PageData :=
  PagesRoute.mkData "/careers" "about-x" site "Careers" "Work with us"
    None None None.

(** An upsert of /about under a third slug. *)
Definition aboutAsZ : PagesRoute.PageData :=
  PagesRoute.mkData "/about" "about-z" site "About" "Who we are"
    None None None.

(** Collaborators of the listing: a fingerprint that spells the query
    out, one cache header, and the ordering of the byte strings; the
    lowering is [toLowerCase] on the ASCII letters. *)
Definition hashQuery (q : PagesRoute.QueryParams) : string :=
  pretty (PagesRoute.page q) +:+ ":" +:+ pretty (PagesRoute.limit q)
  +:+ ":" +:+ default EmptyString (PagesRoute.search q)
  +:+ ":" +:+ default EmptyString (PagesRoute.category q)
  +:+ ":" +:+ match PagesRoute.isCustom q with
              | Some true => "custom"
              | Some false => "default"
              | None => "all"
              end.

Definition cacheHeaders (ttl : Z) : list (string * string) :=
  [("Cache-Control", "private, max-age=" +:+ pretty ttl)].

Definition byteOrder (a b : string) : Z :=
  match String.compare a b with
  | Lt => (-1)%Z
  | Eq => 0%Z
  | Gt => 1%Z
  end.

Definition everything : PagesRoute.QueryParams :=
  PagesRoute.mkQuery 1 100 None None None site.

Definition listPages (now : Z) (w : World.t) : Response * World.t :=
  PagesRoute.GET hashQuery cacheHeaders byteOrder toLowerCase now false w everything.

(** The fresh composition of the listing from catalog and store. *)
Definition fresh (w : World.t) : Response :=
  respond 200 (PagesRoute.listing byteOrder toLowerCase (World.seoPages w) everything).

End Scenario.

(** * Properties *)

Import Js Handler Notions.
Module PP := PredefinedPages.

#[local] Arguments PP.getPredefinedPageByPath : simpl never.
#[local] Arguments PathRoute.decodePath : simpl never.

Ltac unfold_handler :=
  unfold run, mbind, M_bind, mret, M_ret, try, reply, world, modify.

(** ** The catalog *)

Lemma resultIs_true (r : result string) (p : string) :
  resultIs r p = true -> r = Ok p.
Proof.
  destruct r as [q|m]; simpl; [|discriminate].
  intros H%String.eqb_eq. by subst.
Qed.

(** Every catalog path, with or without its leading slash, decodes to
    itself and finds its own entry. *)
Lemma catalog_addressing :
  forallb
    (fun page =>
       resultIs (PathRoute.decodePath (PP.path page)) (PP.path page)
       && resultIs (PathRoute.decodePath (withoutLeadingSlash (PP.path page)))
            (PP.path page)
       && bool_decide (PP.getPredefinedPageByPath (PP.path page) = Some page))
    PP.PREDEFINED_PAGES = true.
Proof. vm_compute. reflexivity. Qed.

Lemma catalog_page (page : PP.PredefinedPage) :
  In page PP.PREDEFINED_PAGES ->
  PathRoute.decodePath (PP.path page) = Ok (PP.path page)
  /\ PathRoute.decodePath (withoutLeadingSlash (PP.path page)) = Ok (PP.path page)
  /\ PP.getPredefinedPageByPath (PP.path page) = Some page.
Proof.
  intros Hin. pose proof catalog_addressing as H.
  rewrite forallb_forall in H. specialize (H _ Hin).
  apply andb_prop in H as [H H3]. apply andb_prop in H as [H1 H2].
  apply resultIs_true in H1, H2. apply bool_decide_eq_true in H3. auto.
Qed.

Lemma getPredefinedPageByPath_Some (p : string) (page : PP.PredefinedPage) :
  PP.getPredefinedPageByPath p = Some page ->
  In page PP.PREDEFINED_PAGES /\ PP.path page = p.
Proof.
  unfold PP.getPredefinedPageByPath. intros H.
  apply find_some in H as [Hin Heq]. apply String.eqb_eq in Heq. auto.
Qed.

Lemma aboutPage_in : In Scenario.aboutPage PP.PREDEFINED_PAGES.
Proof. right. left. reflexivity. Qed.

(** ** Percent-decoding *)

Lemma unescape_plain (s : string) :
  (forall c, In c (list_ascii_of_string s) -> c <> "%"%char) ->
  Uri.unescape s = Some (map (fun c => (false, N_of_ascii c)) (list_ascii_of_string s)).
Proof.
  induction s as [|c s IH]; intros H; [reflexivity|].
  assert (Hc : c <> "%"%char) by (apply H; left; reflexivity).
  assert (Hs : Uri.unescape s =
               Some (map (fun c => (false, N_of_ascii c)) (list_ascii_of_string s)))
    by (apply IH; intros c' Hc'; apply H; right; exact Hc').
  cbn [Uri.unescape list_ascii_of_string map].
  destruct c as [[] [] [] [] [] [] [] []]; try (rewrite Hs; reflexivity).
  contradiction Hc. reflexivity.
Qed.

Lemma wellFormed_plain (l : list ascii) :
  Uri.wellFormed (map (fun c => (false, N_of_ascii c)) l) = true.
Proof. induction l as [|c l IH]; [reflexivity|exact IH]. Qed.

Lemma bytes_plain (s : string) :
  Uri.bytes (map (fun c => (false, N_of_ascii c)) (list_ascii_of_string s)) = s.
Proof.
  induction s as [|c s IH]; [reflexivity|].
  cbn [list_ascii_of_string map Uri.bytes fold_right snd].
  rewrite ascii_N_embedding. f_equal. exact IH.
Qed.

(** A string without a percent sign decodes to itself. *)
Lemma decodeURIComponent_plain (s : string) :
  (forall c, In c (list_ascii_of_string s) -> c <> "%"%char) ->
  Uri.decodeURIComponent s = Some s.
Proof.
  intros H. unfold Uri.decodeURIComponent.
  rewrite (unescape_plain s H), wellFormed_plain, bytes_plain. reflexivity.
Qed.

(** ** Addressing a page by its path parameter *)

Lemma GET_decoded (w : World.t) (a b p : string) :
  PathRoute.decodePath a = Ok p -> PathRoute.decodePath b = Ok p ->
  PathRoute.GET w a = PathRoute.GET w b.
Proof.
  intros Ha Hb. unfold PathRoute.GET, run, mbind, M_bind, try.
  rewrite Ha, Hb. reflexivity.
Qed.

Lemma DELETE_decoded (w : World.t) (a b p : string) :
  PathRoute.decodePath a = Ok p -> PathRoute.decodePath b = Ok p ->
  PathRoute.DELETE w a = PathRoute.DELETE w b.
Proof.
  intros Ha Hb. unfold PathRoute.DELETE, run, mbind, M_bind, try.
  rewrite Ha, Hb. reflexivity.
Qed.

Lemma PUT_decoded vcs (now : Z) (u : User) (w : World.t) (a b p : string)
    (d : PathRoute.UpdateData) :
  PathRoute.decodePath a = Ok p -> PathRoute.decodePath b = Ok p ->
  PathRoute.PUT vcs now u w a d = PathRoute.PUT vcs now u w b d.
Proof.
  intros Ha Hb. unfold PathRoute.PUT, run, mbind, M_bind, try.
  rewrite Ha, Hb. reflexivity.
Qed.

(** C9. The per-path endpoints percent-decode the parameter and prepend
    a slash unless the decoded value is exactly home or already starts
    with a slash; so every catalog path addresses the same page with and
    without its leading slash, on GET, PUT and DELETE alike; and a
    parameter that cannot be percent-decoded ends the request with the
    error Invalid path encoding, the world untouched. *)
Theorem decodePath_addresses_page :
  (forall param decoded,
     Uri.decodeURIComponent param = Some decoded ->
     PathRoute.decodePath param =
       Ok (if bool_decide (decoded = "home") || startsWith decoded "/"
           then decoded else "/" +:+ decoded))
  /\ (forall param,
        Uri.decodeURIComponent param = None ->
        PathRoute.decodePath param = Throw "Invalid path encoding"
        /\ forall w,
             PathRoute.GET w param = (failure 500 "Invalid path encoding", w)
             /\ PathRoute.DELETE w param = (failure 500 "Invalid path encoding", w)
             /\ forall vcs now u d,
                  PathRoute.PUT vcs now u w param d
                  = (failure 500 "Invalid path encoding", w))
  /\ (forall page,
        In page PP.PREDEFINED_PAGES ->
        PathRoute.decodePath (PP.path page) = Ok (PP.path page)
        /\ PathRoute.decodePath (withoutLeadingSlash (PP.path page))
           = Ok (PP.path page)
        /\ forall w,
             PathRoute.GET w (withoutLeadingSlash (PP.path page))
             = PathRoute.GET w (PP.path page)
             /\ PathRoute.DELETE w (withoutLeadingSlash (PP.path page))
                = PathRoute.DELETE w (PP.path page)
             /\ forall vcs now u d,
                  PathRoute.PUT vcs now u w (withoutLeadingSlash (PP.path page)) d
                  = PathRoute.PUT vcs now u w (PP.path page) d).
Proof.
  split; [|split].
  - intros param decoded H. unfold PathRoute.decodePath. rewrite H.
    f_equal. destruct (bool_decide (decoded = "home")) eqn:E.
    + apply bool_decide_eq_true in E. subst. reflexivity.
    + apply bool_decide_eq_false in E.
      destruct (String.eqb_spec decoded "home") as [->|_]; [done|].
      destruct (startsWith decoded "/"); reflexivity.
  - intros param H.
    assert (Hd : PathRoute.decodePath param = Throw "Invalid path encoding")
      by (unfold PathRoute.decodePath; rewrite H; reflexivity).
    split; [exact Hd|]. intros w. repeat split.
    + unfold PathRoute.GET. unfold_handler. rewrite Hd. reflexivity.
    + unfold PathRoute.DELETE. unfold_handler. rewrite Hd. reflexivity.
    + intros vcs now u d. unfold PathRoute.PUT. unfold_handler.
      rewrite Hd. reflexivity.
  - intros page Hin. destruct (catalog_page page Hin) as (H1 & H2 & _).
    split; [exact H1|]. split; [exact H2|]. intros w. repeat split.
    + exact (GET_decoded w _ _ _ H2 H1).
    + exact (DELETE_decoded w _ _ _ H2 H1).
    + intros vcs now u d. exact (PUT_decoded vcs now u w _ _ _ d H2 H1).
Qed.

Lemma decodePath_addresses_page_witness :
  PathRoute.decodePath "%2Fservices%2Fai-ml" = Ok "/services/ai-ml"
  /\ PathRoute.decodePath "services%2Fai-ml" = Ok "/services/ai-ml"
  /\ PathRoute.decodePath "home" = Ok "home"
  /\ PathRoute.decodePath "%E0%A4%A" = Throw "Invalid path encoding"
  /\ PathRoute.GET Scenario.emptyWorld "about"
     = PathRoute.GET Scenario.emptyWorld "/about".
Proof.
  destruct decodePath_addresses_page as (H1 & H2 & H3).
  split; [exact (H1 "%2Fservices%2Fai-ml" "/services/ai-ml" eq_refl)|].
  split; [exact (H1 "services%2Fai-ml" "services/ai-ml" eq_refl)|].
  split; [exact (H1 "home" "home" eq_refl)|].
  split; [exact (proj1 (H2 "%E0%A4%A" eq_refl))|].
  exact (proj1 (proj2 (proj2 (H3 Scenario.aboutPage aboutPage_in)) Scenario.emptyWorld)).
Defined.

(** ** Overlay of the catalog defaults with the stored override *)

Lemma Overlaid_or_else (o : option string) (d : string) :
  Overlaid o d (Some (JStr (or_else o d))).
Proof.
  split.
  - intros s -> Hs. destruct s; [done|reflexivity].
  - destruct o as [[|c s]|]; simpl; intros H; try discriminate; reflexivity.
Qed.

(** C1 (amended). For every catalog path and every state of the override
    collection, GetPage answers, field by field, the override value where
    the override field is set (present and not empty) and the default
    elsewhere: the catalog default for slug, title, description and
    category, the constant index,follow for robots.  The returned
    isCustom is the flag stored in the record (false when there is no
    record); it is hasCustomSeo that is true exactly when a record
    exists.  The listing composes the same values. *)
Theorem getPage_overlays_catalog (w : World.t) (page : PP.PredefinedPage) :
  In page PP.PREDEFINED_PAGES ->
  let seo := SEOPage.findOne (World.seoPages w) PathRoute.siteId (PP.path page) in
  exists data,
    PathRoute.GET w (PP.path page)
    = (respond 200 (JObj [("success", JBool true); ("data", data)]), w)
    /\ Overlaid (seo ≫= SEOPage.slug) (PP.defaultSlug page) (get "slug" data)
    /\ Overlaid (seo ≫= SEOPage.metaTitle) (PP.defaultTitle page) (get "metaTitle" data)
    /\ Overlaid (seo ≫= SEOPage.metaDescription) (PP.defaultDescription page)
         (get "metaDescription" data)
    /\ Overlaid (seo ≫= SEOPage.pageCategory) (PP.categoryName (PP.category page))
         (get "pageCategory" data)
    /\ Overlaid (seo ≫= SEOPage.robots) "index,follow" (get "robots" data)
    /\ get "isCustom" data = Some (JBool (from_option SEOPage.isCustom false seo))
    /\ (get "hasCustomSeo" data = Some (JBool true) <-> is_Some seo)
    /\ Forall
         (fun key => get key (PagesRoute.viewJson (PagesRoute.compose seo page))
                     = get key data)
         ["path"; "slug"; "metaTitle"; "metaDescription"; "isCustom";
          "pageCategory"; "hasCustomSeo"; "updatedAt"].
Proof.
  intros Hin seo. destruct (catalog_page page Hin) as (H1 & _ & H3).
  unfold PathRoute.GET, PathRoute.predefined. unfold_handler.
  rewrite H1. cbn. rewrite H3. cbn. fold seo.
  eexists. split; [reflexivity|]. cbn.
  repeat split; try apply Overlaid_or_else.
  - intros [=E]. apply bool_decide_eq_true in E. exact E.
  - intros E. do 2 f_equal. apply bool_decide_eq_true. exact E.
  - repeat constructor.
Qed.

Lemma getPage_overlays_catalog_witness :
  exists data,
    PathRoute.GET Scenario.seeded "/about"
    = (respond 200 (JObj [("success", JBool true); ("data", data)]), Scenario.seeded)
    /\ get "slug" data = Some (JStr "about-us")
    /\ get "isCustom" data = Some (JBool false)
    /\ get "hasCustomSeo" data = Some (JBool true).
Proof.
  destruct (getPage_overlays_catalog Scenario.seeded Scenario.aboutPage aboutPage_in)
    as (data & Hget & Hslug & _ & _ & _ & _ & Hcustom & Hhas & _).
  exists data. split; [exact Hget|]. split; [|split].
  - apply (proj1 Hslug "about-us"); [vm_compute; reflexivity|discriminate].
  - rewrite Hcustom. vm_compute. reflexivity.
  - apply Hhas. vm_compute. eexists. reflexivity.
Defined.

(** C1 as stated fails: after seeding, the page /about has an override
    record, and GetPage still answers isCustom = false. *)
Lemma getPage_isCustom_counterexample :
  ~ (forall (w : World.t) (page : PP.PredefinedPage),
       In page PP.PREDEFINED_PAGES ->
       (get "isCustom" (dataOf (fst (PathRoute.GET w (PP.path page))))
        = Some (JBool true)
        <-> is_Some (SEOPage.findOne (World.seoPages w) PathRoute.siteId
                       (PP.path page)))).
Proof.
  intros H. specialize (H Scenario.seeded Scenario.aboutPage aboutPage_in).
  assert (Hrec : is_Some (SEOPage.findOne (World.seoPages Scenario.seeded)
                            PathRoute.siteId (PP.path Scenario.aboutPage))).
  { vm_compute. eexists. reflexivity. }
  apply H in Hrec. vm_compute in Hrec. discriminate Hrec.
Qed.

(** ** Redirect chains *)

Lemma follows_prefix (c : Redirect.coll) (site x : string) (n : nat) (z : string) :
  follows c site x n z -> forall m, m <= n -> exists y, follows c site x m y.
Proof.
  induction 1 as [x|x r n z Hr _ IH]; intros m Hm.
  - assert (m = 0) as -> by lia. exists x. constructor.
  - destruct m as [|m].
    + exists x. constructor.
    + destruct (IH m) as [y Hy]; [lia|].
      exists y. econstructor; eassumption.
Qed.

(** The walk reports a loop exactly when the source lies within its
    reach. *)
Lemma walk_isLoop (h : nat) (c : Redirect.coll) (site from : string) :
  forall cur seen len,
    Redirect.isLoop (Redirect.walk h c site from cur seen len) = true
    <-> exists n, n <= h /\ follows c site cur n from.
Proof.
  induction h as [|h IH]; intros cur seen len; cbn [Redirect.walk];
    destruct (String.eqb_spec cur from) as [->|Hne].
  - split; [|reflexivity]. intros _. exists 0. split; [lia|constructor].
  - split; [discriminate|]. intros (n & Hn & Hf).
    assert (n = 0) as -> by lia. inversion Hf; subst. done.
  - split; [|reflexivity]. intros _. exists 0. split; [lia|constructor].
  - destruct (c !! (site, cur)) as [r|] eqn:Hr.
    + rewrite IH. split.
      * intros (n & Hn & Hf). exists (S n). split; [lia|].
        econstructor; eassumption.
      * intros (n & Hn & Hf). inversion Hf as [|? r' n' ? Hr' Hf']; subst; [done|].
        rewrite Hr in Hr'. injection Hr' as <-.
        exists n'. split; [lia|exact Hf'].
    + split; [discriminate|]. intros (n & Hn & Hf).
      inversion Hf as [|? r' n' ? Hr' Hf']; subst; [done|].
      rewrite Hr in Hr'. discriminate.
Qed.

Lemma walk_depth_le (h : nat) (c : Redirect.coll) (site from : string) :
  forall cur seen len,
    Redirect.depth (Redirect.walk h c site from cur seen len) <= len + h.
Proof.
  induction h as [|h IH]; intros cur seen len; cbn [Redirect.walk];
    destruct (cur =? from)%string; cbn [Redirect.depth]; try lia.
  destruct (c !! (site, cur)) as [r|]; cbn [Redirect.depth]; [|lia].
  specialize (IH (Redirect.to r) (cur :: seen) (S len)). lia.
Qed.

(** Without a loop the walk uses all its hops exactly when that many
    stored redirects follow one another from the destination. *)
Lemma walk_depth_full (h : nat) (c : Redirect.coll) (site from : string) :
  forall cur seen len,
    Redirect.isLoop (Redirect.walk h c site from cur seen len) = false ->
    (Redirect.depth (Redirect.walk h c site from cur seen len) = len + h
     <-> exists y, follows c site cur h y).
Proof.
  induction h as [|h IH]; intros cur seen len; cbn [Redirect.walk];
    destruct (cur =? from)%string; cbn [Redirect.isLoop Redirect.depth];
    try discriminate.
  - intros _. split; [|lia]. intros _. exists cur. constructor.
  - destruct (c !! (site, cur)) as [r|] eqn:Hr; cbn [Redirect.isLoop Redirect.depth].
    + intros Hl. specialize (IH (Redirect.to r) (cur :: seen) (S len) Hl).
      split.
      * intros Hd. destruct (proj1 IH) as [y Hy]; [lia|].
        exists y. econstructor; eassumption.
      * intros [y Hf]. inversion Hf as [|? r' n' ? Hr' Hf']; subst.
        rewrite Hr in Hr'. injection Hr' as <-.
        assert (Redirect.depth
                  (Redirect.walk h c site from (Redirect.to r) (cur :: seen) (S len))
                = S len + h) by (apply IH; eauto).
        lia.
    + intros _. split; [lia|]. intros [y Hf].
      inversion Hf as [|? r' n' ? Hr' Hf']; subst. rewrite Hr in Hr'. discriminate.
Qed.

Lemma walk_hasChain (h : nat) (c : Redirect.coll) (site from : string) :
  forall cur seen len,
    Redirect.isLoop (Redirect.walk h c site from cur seen len) = false ->
    Redirect.hasChain (Redirect.walk h c site from cur seen len)
    = (1 <? Redirect.depth (Redirect.walk h c site from cur seen len))%nat.
Proof.
  induction h as [|h IH]; intros cur seen len; cbn [Redirect.walk];
    destruct (cur =? from)%string; cbn [Redirect.isLoop Redirect.depth Redirect.hasChain];
    try discriminate; try reflexivity.
  destruct (c !! (site, cur)) as [r|]; cbn [Redirect.isLoop Redirect.depth Redirect.hasChain];
    [apply IH|reflexivity].
Qed.

Lemma verdict_Loops (c : Redirect.coll) (site from dest : string) :
  verdict c site from dest = Loops
  <-> exists n, n <= 4 /\ follows c site dest n from.
Proof.
  unfold verdict, Redirect.checkRedirectChain. cbn [Redirect.maxDepth Nat.sub].
  rewrite <- walk_isLoop with (seen := []) (len := 1).
  destruct (Redirect.isLoop _); [done|].
  destruct (_ && _); split; discriminate.
Qed.

Lemma verdict_TooLong (c : Redirect.coll) (site from dest : string) :
  verdict c site from dest = TooLong
  <-> ~ (exists n, n <= 4 /\ follows c site dest n from)
      /\ exists y, follows c site dest 4 y.
Proof.
  rewrite <- verdict_Loops.
  unfold verdict, Redirect.checkRedirectChain. cbn [Redirect.maxDepth Nat.sub].
  pose proof (walk_depth_full 4 c site from dest [] 1) as Hfull.
  pose proof (walk_depth_le 4 c site from dest [] 1) as Hle.
  pose proof (walk_hasChain 4 c site from dest [] 1) as Hhas.
  destruct (Redirect.isLoop _).
  - split; [discriminate|]. intros [H _]. done.
  - specialize (Hfull eq_refl). rewrite (Hhas eq_refl).
    destruct (Nat.leb_spec 5 (Redirect.depth (Redirect.walk 4 c site from dest [] 1)))
      as [H5|H5].
    + assert (Hlt : (1 <? Redirect.depth (Redirect.walk 4 c site from dest [] 1))%nat = true)
        by (apply Nat.ltb_lt; lia).
      rewrite Hlt. cbn [andb]. split; [|done]. intros _. split; [discriminate|].
      apply Hfull. lia.
    + rewrite andb_false_r. split; [discriminate|]. intros [_ Hy].
      apply Hfull in Hy. lia.
Qed.

(** ** Creating a redirect *)

Lemma depth_ge_5_hasChain (c : Redirect.coll) (site from dest : string) :
  let chain := Redirect.checkRedirectChain c site from dest in
  Redirect.isLoop chain = false ->
  (Redirect.maxDepth <=? Redirect.depth chain)%nat
  = Redirect.hasChain chain && (5 <=? Redirect.depth chain)%nat.
Proof.
  intros chain Hl. unfold chain, Redirect.checkRedirectChain in *.
  rewrite (walk_hasChain _ _ _ _ _ _ _ Hl).
  change Redirect.maxDepth with 5.
  generalize (Redirect.depth (Redirect.walk (5 - 1) c site from dest [] 1)).
  intros n. destruct (Nat.leb_spec 5 n) as [H|H].
  - assert ((1 <? n)%nat = true) as -> by (apply Nat.ltb_lt; lia). reflexivity.
  - rewrite andb_false_r. reflexivity.
Qed.

(** The redirect endpoint, as a function of what is stored. *)
Lemma redirects_POST_eq vcs (now : Z) (w : World.t) (d : RedirectsRoute.RedirectData) :
  isSecure (vcs (RedirectsRoute.from d)) = true ->
  isSecure (vcs (RedirectsRoute.to d)) = true ->
  RedirectsRoute.POST vcs now w d =
  let site := RedirectsRoute.siteId d in
  let from := RedirectsRoute.from d in
  let dest := RedirectsRoute.to d in
  match World.redirects w !! (site, from) with
  | Some _ => (failure 400 "Redirect already exists for this source path", w)
  | None =>
      let w1 := snd (World.freshId w) in
      let new := Redirect.mkDoc (World.nextId w) dest (RedirectsRoute.statusCode d)
                   (RedirectsRoute.createdBy d) now in
      match verdict (World.redirects w) site from dest with
      | Loops => (failure 400 "Redirect would create an infinite loop", w1)
      | TooLong => (failure 400 "Redirect chain too long (maximum 5 redirects)", w1)
      | Fine =>
          (respond 200 (JObj [
             ("success", JBool true);
             ("data", RedirectsRoute.redirectJson site from new);
             ("message", JStr "Redirect created successfully")]),
           World.withRedirects w1 (<[(site, from) := new]> (World.redirects w)))
      end
  end.
Proof.
  intros Hf Ht. unfold RedirectsRoute.POST. unfold_handler.
  rewrite Hf, Ht. cbn [negb orb]. unfold Redirect.findOne.
  destruct (World.redirects w !! _) as [r|] eqn:Hr; [reflexivity|].
  cbn [World.freshId World.redirects fst snd]. unfold verdict.
  destruct (Redirect.isLoop _); [reflexivity|].
  destruct (_ && _); [reflexivity|].
  unfold Redirect.save. rewrite Hr. reflexivity.
Qed.

Lemma createRedirectSafely_eq (now : Z) (w : World.t) (site from dest : string)
    (code : nat) (actor : string) :
  SeoUtils.createRedirectSafely now w site from dest code actor =
  match verdict (World.redirects w) site from dest with
  | Loops => (SeoUtils.mkOutcome false (Some SeoUtils.RedirectLoop), w)
  | TooLong => (SeoUtils.mkOutcome false (Some SeoUtils.RedirectChainTooLong), w)
  | Fine =>
      match World.redirects w !! (site, from) with
      | Some _ => (SeoUtils.mkOutcome false (Some SeoUtils.RedirectExists), w)
      | None =>
          (SeoUtils.mkOutcome true None,
           World.withRedirects (snd (World.freshId w))
             (<[(site, from) := Redirect.mkDoc (World.nextId w) dest code actor now]>
                (World.redirects w)))
      end
  end.
Proof.
  unfold SeoUtils.createRedirectSafely, verdict.
  destruct (Redirect.isLoop _) eqn:Hl; [reflexivity|].
  rewrite (depth_ge_5_hasChain _ _ _ _ Hl).
  destruct (_ && _); reflexivity.
Qed.

Lemma verdict_Fine (c : Redirect.coll) (site from dest : string) :
  verdict c site from dest = Fine
  <-> ~ (exists n, n <= 4 /\ follows c site dest n from)
      /\ ~ (exists y, follows c site dest 4 y).
Proof.
  pose proof (verdict_Loops c site from dest) as HL.
  pose proof (verdict_TooLong c site from dest) as HT.
  destruct (verdict c site from dest); split.
  - discriminate.
  - intros [Hn _]. exfalso. apply Hn, HL. reflexivity.
  - discriminate.
  - intros [_ Hn]. exfalso. apply Hn. apply (proj1 HT eq_refl).
  - intros _. split.
    + intros H. apply HL in H. discriminate.
    + intros H. assert (Fine = TooLong); [|discriminate].
      apply HT. split; [|exact H]. intros H'. apply HL in H'. discriminate.
  - reflexivity.
Qed.

(** C8. Creating a redirect changes no stored state before its checks are
    through: the request either succeeds, and then the source had no
    redirect and the collection gains exactly the new one, or it fails,
    and then the collection is what it was.  The SEO records are never
    touched.  The same holds for the helper that the slug change calls. *)
Theorem createRedirect_all_or_nothing vcs (now : Z) (w : World.t)
    (d : RedirectsRoute.RedirectData) (r : Response) (w' : World.t) :
  RedirectsRoute.POST vcs now w d = (r, w') ->
  let key := (RedirectsRoute.siteId d, RedirectsRoute.from d) in
  let new := Redirect.mkDoc (World.nextId w) (RedirectsRoute.to d)
               (RedirectsRoute.statusCode d) (RedirectsRoute.createdBy d) now in
  let '(o, w2) :=
    SeoUtils.createRedirectSafely now w (RedirectsRoute.siteId d)
      (RedirectsRoute.from d) (RedirectsRoute.to d)
      (RedirectsRoute.statusCode d) (RedirectsRoute.createdBy d) in
  World.seoPages w' = World.seoPages w
  /\ ((status r = 200 /\ World.redirects w !! key = None
       /\ World.redirects w' = <[key := new]> (World.redirects w))
      \/ (status r = 400 /\ World.redirects w' = World.redirects w))
  /\ World.seoPages w2 = World.seoPages w
  /\ ((SeoUtils.success o = true /\ World.redirects w !! key = None
       /\ World.redirects w2 = <[key := new]> (World.redirects w))
      \/ (SeoUtils.success o = false /\ is_Some (SeoUtils.error o) /\ w2 = w)).
Proof.
  intros H key new. rewrite createRedirectSafely_eq.
  assert (Hpost : World.seoPages w' = World.seoPages w
    /\ ((status r = 200 /\ World.redirects w !! key = None
         /\ World.redirects w' = <[key := new]> (World.redirects w))
        \/ (status r = 400 /\ World.redirects w' = World.redirects w))).
  { destruct (isSecure (vcs (RedirectsRoute.from d))) eqn:Hf;
      [destruct (isSecure (vcs (RedirectsRoute.to d))) eqn:Ht|].
    - rewrite (redirects_POST_eq vcs now w d Hf Ht) in H. cbn zeta in H.
      fold key in H. destruct (World.redirects w !! key) eqn:Hk.
      + injection H as <- <-. split; [reflexivity|]. right. done.
      + destruct (verdict _ _ _ _); injection H as <- <-;
          (split; [reflexivity|]); [right; done|right; done|left; done].
    - unfold RedirectsRoute.POST in H. unfold_handler. rewrite Hf, Ht in H.
      injection H as <- <-. split; [reflexivity|]. right. done.
    - unfold RedirectsRoute.POST in H. unfold_handler. rewrite Hf in H.
      injection H as <- <-. split; [reflexivity|]. right. done. }
  fold key. destruct (verdict _ _ _ _).
  - destruct Hpost as [H1 H2]. repeat split; try done. right. eauto.
  - destruct Hpost as [H1 H2]. repeat split; try done. right. eauto.
  - destruct (World.redirects w !! key) eqn:Hk.
    + destruct Hpost as [H1 H2]. repeat split; try done. right. eauto.
    + destruct Hpost as [H1 H2]. repeat split; try done. left. done.
Qed.

Lemma createRedirect_all_or_nothing_witness :
  World.redirects
    (snd (RedirectsRoute.POST Scenario.acceptAll 7 Scenario.oneRedirect
            (RedirectsRoute.mkData Scenario.site "b" "a" 301 "admin-1")))
  = World.redirects Scenario.oneRedirect.
Proof.
  pose proof (createRedirect_all_or_nothing Scenario.acceptAll 7 Scenario.oneRedirect
                (RedirectsRoute.mkData Scenario.site "b" "a" 301 "admin-1")
                _ _ eq_refl) as H.
  cbv zeta in H. destruct (SeoUtils.createRedirectSafely _ _ _ _ _ _ _) as [o w2].
  destruct H as (_ & [(Hst & _)|(_ & Hsame)] & _).
  - vm_compute in Hst. discriminate Hst.
  - exact Hsame.
Defined.

(** C3 (amended). With every stored set of redirects, adding a redirect
    is refused whenever the source can be reached from the destination
    through stored redirects, so that the addition would close a cycle,
    and whenever four stored redirects follow one another from the
    destination, so that the chain that starts at the new source would
    have five hops or more.  The refusal names the loop when the source
    is met within four hops of the destination, and the chain length
    otherwise; the endpoint answers so for a source without a redirect
    (one that has a redirect is refused for that reason first).  An
    addition that meets neither condition is accepted: chains that only
    pass through the new redirect from an earlier source are not
    measured. *)
Theorem redirect_cycles_and_long_chains_rejected vcs (now : Z) (w : World.t)
    (d : RedirectsRoute.RedirectData) :
  isSecure (vcs (RedirectsRoute.from d)) = true ->
  isSecure (vcs (RedirectsRoute.to d)) = true ->
  let c := World.redirects w in
  let site := RedirectsRoute.siteId d in
  let from := RedirectsRoute.from d in
  let dest := RedirectsRoute.to d in
  let r := fst (RedirectsRoute.POST vcs now w d) in
  let o := fst (SeoUtils.createRedirectSafely now w site from dest
                  (RedirectsRoute.statusCode d) (RedirectsRoute.createdBy d)) in
  let within := exists n, n <= 4 /\ follows c site dest n from in
  let long := exists y, follows c site dest 4 y in
  ((exists n, follows c site dest n from) \/ long ->
     status r = 400 /\ SeoUtils.success o = false)
  /\ (within ->
        SeoUtils.error o = Some SeoUtils.RedirectLoop
        /\ (c !! (site, from) = None ->
            r = failure 400 "Redirect would create an infinite loop"))
  /\ (~ within -> long ->
        SeoUtils.error o = Some SeoUtils.RedirectChainTooLong
        /\ (c !! (site, from) = None ->
            r = failure 400 "Redirect chain too long (maximum 5 redirects)"))
  /\ (~ within -> ~ long -> c !! (site, from) = None ->
        status r = 200 /\ SeoUtils.success o = true).
Proof.
  intros Hf Ht c site from dest r o within long.
  unfold r, o. rewrite (redirects_POST_eq vcs now w d Hf Ht), createRedirectSafely_eq.
  cbn zeta. fold c site from dest.
  pose proof (verdict_Loops c site from dest) as HL.
  pose proof (verdict_TooLong c site from dest) as HT.
  pose proof (verdict_Fine c site from dest) as HF.
  fold within long in HL, HT, HF.
  split; [|split; [|split]].
  - intros Hrej.
    assert (Hnot : verdict c site from dest <> Fine).
    { intros Hfine. apply HF in Hfine as [Hnw Hnl].
      destruct Hrej as [[n Hn]|Hl]; [|done].
      destruct (Nat.le_gt_cases n 4) as [Hle|Hgt].
      - apply Hnw. exists n. done.
      - apply Hnl. apply (follows_prefix _ _ _ _ _ Hn). lia. }
    destruct (c !! (site, from)); destruct (verdict c site from dest); done.
  - intros Hw. apply HL in Hw. rewrite Hw. split; [reflexivity|].
    intros ->. reflexivity.
  - intros Hnw Hl. assert (Hv : verdict c site from dest = TooLong) by (apply HT; done).
    rewrite Hv. split; [reflexivity|]. intros ->. reflexivity.
  - intros Hnw Hnl Hk. assert (Hv : verdict c site from dest = Fine) by (apply HF; done).
    rewrite Hv, Hk. done.
Qed.

(** The scenario of the specification: after a -> b, the redirect b -> a
    is refused as a loop. *)
Lemma redirect_cycles_and_long_chains_rejected_witness :
  fst (RedirectsRoute.POST Scenario.acceptAll 7 Scenario.oneRedirect
         (RedirectsRoute.mkData Scenario.site "b" "a" 301 "admin-1"))
  = failure 400 "Redirect would create an infinite loop".
Proof.
  refine (proj2 (proj1 (proj2
    (redirect_cycles_and_long_chains_rejected Scenario.acceptAll 7 Scenario.oneRedirect
       (RedirectsRoute.mkData Scenario.site "b" "a" 301 "admin-1") eq_refl eq_refl))
    _) _).
  - exists 1. split; [lia|].
    eapply follows_step; [vm_compute; reflexivity|]. apply follows_here.
  - vm_compute. reflexivity.
Defined.

(** C3 as stated fails: with a -> b -> c -> d -> e stored, the redirect
    e -> f is accepted although it completes a chain of five hops from the
    earlier source a. *)
Lemma redirect_chain_from_earlier_source_counterexample :
  ~ (forall vcs (now : Z) (w : World.t) (d : RedirectsRoute.RedirectData),
       let c' :=
         <[(RedirectsRoute.siteId d, RedirectsRoute.from d) :=
             Redirect.mkDoc (World.nextId w) (RedirectsRoute.to d)
               (RedirectsRoute.statusCode d) (RedirectsRoute.createdBy d) now]>
           (World.redirects w) in
       (exists x y, follows c' (RedirectsRoute.siteId d) x 5 y) ->
       status (fst (RedirectsRoute.POST vcs now w d)) <> 200).
Proof.
  intros H.
  apply (H Scenario.acceptAll 7%Z Scenario.chainOfFour
           (RedirectsRoute.mkData Scenario.site "e" "f" 301 "admin-1")).
  - exists "a", "f".
    do 5 (eapply follows_step; [vm_compute; reflexivity|]). apply follows_here.
  - vm_compute. reflexivity.
Qed.

(** ** Bulk loops *)

Lemma forEach_acc {A : Type} (step : World.t -> A -> json * World.t)
    (items : list A) (acc : list json) (w : World.t) :
  fold_left
    (fun acc item =>
       let '(entry, w') := step (snd acc) item in (fst acc ++ [entry], w'))
    items (acc, w)
  = (acc ++ fst (Bulk.forEach step items w), snd (Bulk.forEach step items w)).
Proof.
  unfold Bulk.forEach. revert acc w.
  induction items as [|x xs IH]; intros acc w; cbn [fold_left fst snd].
  - rewrite app_nil_r. reflexivity.
  - destruct (step w x) as [e w1]. cbn [app].
    rewrite (IH (acc ++ [e]) w1), (IH [e] w1). cbn [fst snd].
    rewrite <- app_assoc. reflexivity.
Qed.

Lemma forEach_cons {A : Type} (step : World.t -> A -> json * World.t)
    (x : A) (xs : list A) (w : World.t) :
  Bulk.forEach step (x :: xs) w
  = (fst (step w x) :: fst (Bulk.forEach step xs (snd (step w x))),
     snd (Bulk.forEach step xs (snd (step w x)))).
Proof.
  unfold Bulk.forEach at 1. cbn [fold_left fst snd].
  destruct (step w x) as [e w1]. cbn [app fst snd].
  rewrite forEach_acc. reflexivity.
Qed.

Lemma succeeded_okEntry (p : string) (extra : list (string * json)) :
  Bulk.succeeded (Bulk.okEntry p extra) = true.
Proof. reflexivity. Qed.

Lemma succeeded_failEntry (p msg : string) :
  Bulk.succeeded (Bulk.failEntry p msg) = false.
Proof. reflexivity. Qed.

Lemma deleteStep_eq (extra : list (string * json)) (flag : string)
    (w : World.t) (p : string) :
  Bulk.deleteStep extra flag w p
  = (Bulk.okEntry p
       (extra ++ [(flag, JBool (bool_decide
                                  (is_Some (World.seoPages w !! (Bulk.siteId, p)))))]),
     World.withSeoPages w (delete (Bulk.siteId, p) (World.seoPages w))).
Proof. reflexivity. Qed.

(** The delete and reset loops never fail an item, and tell an absent
    record only by their flag. *)
Lemma forEach_deleteStep (extra : list (string * json)) (flag : string) :
  forall (ps : list string) (w : World.t),
    let rs := fst (Bulk.forEach (Bulk.deleteStep extra flag) ps w) in
    let w' := snd (Bulk.forEach (Bulk.deleteStep extra flag) ps w) in
    List.length rs = List.length ps
    /\ List.filter Bulk.succeeded rs = rs
    /\ (forall k, World.seoPages w !! k = None -> World.seoPages w' !! k = None)
    /\ (forall i p,
          ps !! i = Some p ->
          World.seoPages w !! (Bulk.siteId, p) = None ->
          rs !! i = Some (Bulk.okEntry p (extra ++ [(flag, JBool false)]))).
Proof.
  induction ps as [|p ps IH]; intros w.
  - cbn. repeat split; try done.
  - rewrite forEach_cons, deleteStep_eq. cbn zeta. cbn [fst snd].
    set (w1 := World.withSeoPages w (delete (Bulk.siteId, p) (World.seoPages w))).
    destruct (IH w1) as (Hlen & Hall & Hnone & Hentry).
    assert (Hdel : forall k, World.seoPages w !! k = None ->
                             World.seoPages w1 !! k = None).
    { intros k Hk. unfold w1. cbn [World.withSeoPages World.seoPages].
      destruct (decide (k = (Bulk.siteId, p))) as [->|Hne].
      - apply lookup_delete_eq.
      - rewrite lookup_delete_ne; done. }
    repeat split.
    + cbn [List.length]. f_equal. exact Hlen.
    + cbn [List.filter]. rewrite succeeded_okEntry. f_equal. exact Hall.
    + intros k Hk. apply Hnone, Hdel, Hk.
    + intros [|i] q Hq Hk.
      * cbn in Hq. injection Hq as ->. cbn [lookup list_lookup]. rewrite Hk.
        rewrite bool_decide_eq_false_2; [reflexivity|]. intros [? ?]. done.
      * cbn in Hq. cbn [lookup list_lookup]. apply Hentry; [exact Hq|].
        apply Hdel, Hk.
Qed.

(** The enhanced bulk endpoint on a delete or reset: the loop, the audit
    entry, the tally. *)
Lemma bulk_POST_removal vcs limits (now : Z) (user : User) (w : World.t)
    (req : Bulk.Request) (ps : list string) :
  Bulk.operation req = Bulk.op_delete \/ Bulk.operation req = Bulk.op_reset ->
  Bulk.paths req = Some ps ->
  Bulk.isValid (limits (Bulk.operation req) (BulkRoute.affected req) (role user)) = true ->
  let step :=
    match Bulk.operation req with
    | Bulk.op_reset => Bulk.deleteStep [("action", JStr "reset")] "hadCustomData"
    | _ => Bulk.deleteStep [("action", JStr "deleted")] "deleted"
    end in
  exists w',
    BulkRoute.POST vcs limits now user w req
    = (Bulk.summary (Bulk.operation req) (fst (Bulk.forEach step ps w))
         (List.length (fst (Bulk.forEach step ps w))), w')
    /\ World.seoPages w' = World.seoPages (snd (Bulk.forEach step ps w)).
Proof.
  intros Hop Hps Hlim step. subst step. unfold BulkRoute.POST. unfold_handler.
  rewrite Hlim, Hps. cbn [negb]. unfold Bulk.loop.
  destruct Hop as [Hop|Hop]; rewrite Hop;
    destruct (Bulk.forEach _ ps w) as [rs w1]; cbn [fst snd];
    destruct (_ && _); eexists; split; reflexivity.
Qed.

(** C10. On the enhanced bulk endpoint a delete or a reset reports
    success for every path it processes, also where no override record
    existed: the absence shows only in deleted = false or hadCustomData =
    false.  The reset of a single page answers 404 instead when the page
    has no override record. *)
Theorem bulk_removal_succeeds_where_single_reset_fails vcs limits (now : Z)
    (user : User) (w : World.t) (req : Bulk.Request) (ps : list string) :
  Bulk.operation req = Bulk.op_delete \/ Bulk.operation req = Bulk.op_reset ->
  Bulk.paths req = Some ps ->
  Bulk.isValid (limits (Bulk.operation req) (BulkRoute.affected req) (role user)) = true ->
  (exists results w',
     BulkRoute.POST vcs limits now user w req
     = (Bulk.summary (Bulk.operation req) results (List.length results), w')
     /\ List.length results = List.length ps
     /\ List.filter Bulk.succeeded results = results
     /\ forall i p,
          ps !! i = Some p ->
          SEOPage.findOne (World.seoPages w) Bulk.siteId p = None ->
          results !! i = Some (removalEntry (Bulk.operation req) p false))
  /\ (forall page,
        In page PP.PREDEFINED_PAGES ->
        SEOPage.findOne (World.seoPages w) PathRoute.siteId (PP.path page) = None ->
        fst (PathRoute.DELETE w (PP.path page))
        = failure 404 "No custom SEO data found for this page"
        /\ World.seoPages (snd (PathRoute.DELETE w (PP.path page)))
           = World.seoPages w).
Proof.
  intros Hop Hps Hlim. split.
  - destruct (bulk_POST_removal vcs limits now user w req ps Hop Hps Hlim)
      as (w' & Heq & _).
    eexists. exists w'. split; [exact Heq|].
    destruct Hop as [Hop|Hop]; rewrite Hop; cbn match;
      match goal with
      | |- context [Bulk.forEach (Bulk.deleteStep ?e ?f) ps w] =>
          destruct (forEach_deleteStep e f ps w) as (Hlen & Hall & _ & Hentry)
      end; repeat split; try done.
  - intros page Hin Hnone. destruct (catalog_page page Hin) as (H1 & _ & H3).
    unfold PathRoute.DELETE, PathRoute.predefined. unfold_handler.
    rewrite H1. cbn. rewrite H3. cbn.
    unfold SEOPage.findOne in Hnone. rewrite Hnone. cbn.
    split; [reflexivity|]. apply delete_id. exact Hnone.
Qed.

Lemma bulk_removal_succeeds_where_single_reset_fails_witness :
  (exists results w',
     BulkRoute.POST Scenario.acceptAll Scenario.noLimit 20 Scenario.admin
       Scenario.emptyWorld (Scenario.deleteRequest ["/about"; "/careers"])
     = (Bulk.summary Bulk.op_delete results 2, w')
     /\ results !! 0 = Some (removalEntry Bulk.op_delete "/about" false)
     /\ List.filter Bulk.succeeded results = results)
  /\ fst (PathRoute.DELETE Scenario.emptyWorld "/about")
     = failure 404 "No custom SEO data found for this page".
Proof.
  destruct (bulk_removal_succeeds_where_single_reset_fails
              Scenario.acceptAll Scenario.noLimit 20 Scenario.admin
              Scenario.emptyWorld (Scenario.deleteRequest ["/about"; "/careers"])
              ["/about"; "/careers"] (or_introl eq_refl) eq_refl eq_refl)
    as [(results & w' & Heq & Hlen & Hall & Hentry) Hsingle].
  split.
  - exists results, w'. rewrite Heq, Hlen. split; [reflexivity|].
    split; [|exact Hall]. apply (Hentry 0 "/about"); reflexivity.
  - exact (proj1 (Hsingle Scenario.aboutPage aboutPage_in eq_refl)).
Defined.

(** ** Path validation of the bulk endpoints *)

Lemma invalidPaths_nonempty (ps : list string) :
  Bulk.invalidPaths ps <> [] ->
  (0 <? List.length (Bulk.invalidPaths ps))%nat = true.
Proof. destruct (Bulk.invalidPaths ps); [done|reflexivity]. Qed.

(** The first bulk endpoint checks every path against the catalog before
    it looks at the operation: one unknown path fails the request and
    leaves the world as it was. *)
Lemma bulk_PUT_validates_paths limits (now : Z) (user : User) (w : World.t)
    (req : Bulk.Request) (ps : list string) :
  Bulk.paths req = Some ps ->
  Bulk.isValid (limits (Bulk.operation req) (List.length ps) (role user)) = true ->
  Bulk.invalidPaths ps <> [] ->
  PagesRoute.PUT limits now user w req
  = (failure 400 ("Invalid paths: " +:+ join ", " (Bulk.invalidPaths ps)), w).
Proof.
  intros Hps Hlim Hbad. unfold PagesRoute.PUT. unfold_handler.
  rewrite Hps, Hlim. cbn [negb]. rewrite (invalidPaths_nonempty ps Hbad).
  reflexivity.
Qed.

(** The enhanced bulk endpoint does the same inside its update case. *)
Lemma bulk_POST_update_validates_paths vcs limits (now : Z) (user : User)
    (w : World.t) (req : Bulk.Request) (ps : list string) (data : Bulk.BulkData) :
  Bulk.operation req = Bulk.op_update ->
  Bulk.paths req = Some ps ->
  Bulk.data req = Some data ->
  Bulk.isValid (limits (Bulk.operation req) (BulkRoute.affected req) (role user)) = true ->
  passes vcs (Bulk.metaTitle data) ->
  passes vcs (Bulk.metaDescription data) ->
  Bulk.invalidPaths ps <> [] ->
  BulkRoute.POST vcs limits now user w req
  = (failure 400 ("Invalid paths: " +:+ join ", " (Bulk.invalidPaths ps)), w).
Proof.
  intros Hop Hps Hdata Hlim Ht Hd Hbad. unfold BulkRoute.POST. unfold_handler.
  rewrite Hlim, Hop, Hps, Hdata. cbn [negb]. unfold BulkRoute.secure. unfold_handler.
  unfold passes in Ht, Hd.
  destruct (truthy (Bulk.metaTitle data)); [rewrite (Ht eq_refl)|];
    (destruct (truthy (Bulk.metaDescription data)); [rewrite (Hd eq_refl)|]);
    rewrite (invalidPaths_nonempty ps Hbad); reflexivity.
Qed.

(** C6. The enhanced bulk endpoint validates the paths of an update only:
    a delete that names /about, which has a record, and a path outside
    the catalog is answered with success, both items are reported as
    succeeded and the record of /about is gone.  On the first bulk
    endpoint the same request fails with the invalid path and changes
    nothing. *)

(** C6. The enhanced bulk endpoint validates the paths of an update only:
    a delete that names /about, which has a record, and a path outside
    the catalog is answered with success, both items are reported as
    succeeded and the record of /about is gone.  On the first bulk
    endpoint the same request fails with the invalid path and changes
    nothing. *)
Theorem bulk_delete_skips_path_validation :
  let req := Scenario.deleteRequest ["/about"; "/not-a-real-page"] in
  let enhanced :=
    BulkRoute.POST Scenario.acceptAll Scenario.noLimit 20 Scenario.admin
      Scenario.customAbout req in
  let first :=
    PagesRoute.PUT Scenario.noLimit 20 Scenario.admin Scenario.customAbout req in
  Bulk.invalidPaths ["/about"; "/not-a-real-page"] = ["/not-a-real-page"]
  /\ is_Some (World.seoPages Scenario.customAbout !! (Bulk.siteId, "/about"))
  /\ status (fst enhanced) = 200
  /\ get "results" (dataOf (fst enhanced))
     = Some (JArr [removalEntry Bulk.op_delete "/about" true;
                   removalEntry Bulk.op_delete "/not-a-real-page" false])
  /\ World.seoPages (snd enhanced) !! (Bulk.siteId, "/about") = None
  /\ first = (failure 400 "Invalid paths: /not-a-real-page", Scenario.customAbout).
Proof.
  intros req enhanced first.
  split; [vm_compute; reflexivity|].
  split; [vm_compute; eexists; reflexivity|].
  split; [vm_compute; reflexivity|].
  split; [vm_compute; reflexivity|].
  split; [vm_compute; reflexivity|].
  unfold first.
  rewrite (bulk_PUT_validates_paths Scenario.noLimit 20 Scenario.admin
             Scenario.customAbout req ["/about"; "/not-a-real-page"]);
    [reflexivity|reflexivity|reflexivity|discriminate].
Qed.

(** ** Saving under the unique slug index *)

Lemma find_usesSlug_None (c : SEOPage.coll) (site : string) (s : option string)
    (p : string) :
  List.find (SEOPage.usesSlug site s p) (map_to_list c) = None
  <-> slugFree c site s p.
Proof.
  split.
  - intros Hfind q d Hq Hs.
    assert (Hin : In ((site, q), d) (map_to_list c))
      by (apply list_elem_of_In, elem_of_map_to_list; exact Hq).
    pose proof (find_none _ _ Hfind _ Hin) as Hu.
    unfold SEOPage.usesSlug in Hu. cbn [fst snd] in Hu.
    rewrite String.eqb_refl, (bool_decide_eq_true_2 _ Hs) in Hu. cbn [andb] in Hu.
    apply negb_false_iff, String.eqb_eq in Hu. exact Hu.
  - intros Hfree. destruct (List.find _ _) as [[[site' q] d]|] eqn:Hfind; [|reflexivity].
    apply find_some in Hfind as [Hin Hu].
    apply list_elem_of_In, elem_of_map_to_list in Hin.
    unfold SEOPage.usesSlug in Hu. cbn [fst snd] in Hu.
    apply andb_prop in Hu as [Hu Hne]. apply andb_prop in Hu as [Hsite Hs].
    apply String.eqb_eq in Hsite. subst site'.
    apply bool_decide_eq_true in Hs.
    rewrite (Hfree q d Hin Hs), String.eqb_refl in Hne. discriminate.
Qed.

(** A save goes through when no other path of the site holds the slug. *)
Lemma save_ok (now : Z) (c : SEOPage.coll) (site p : string) (d : SEOPage.doc) :
  slugFree c site (SEOPage.slug d) p ->
  exists d',
    SEOPage.save now c site p d = Ok (d', <[(site, p) := d']> c)
    /\ SEOPage.slug d' = SEOPage.slug d
    /\ SEOPage.metaTitle d' = SEOPage.metaTitle d
    /\ SEOPage.isCustom d' = SEOPage.isCustom d.
Proof.
  intros Hfree. unfold SEOPage.save.
  rewrite (proj2 (find_usesSlug_None c site (SEOPage.slug d) p) Hfree).
  destruct (c !! (site, p)); eexists; (split; [reflexivity|]); done.
Qed.


Lemma slugUnique_free_own (c : SEOPage.coll) (site p : string) (d : SEOPage.doc) :
  slugUnique c -> c !! (site, p) = Some d -> slugFree c site (SEOPage.slug d) p.
Proof.
  intros Hu Hd q d' Hq Hs.
  assert (H : (site, q) = (site, p)) by (eapply Hu; eauto).
  by injection H.
Qed.



(** ** Bulk import *)


















(** ** Upserting a page *)

Ltac hstep :=
  cbv beta iota delta
    [mret M_ret mbind M_bind reply world modify try run fst snd].

Lemma secure_passes vcs (field : option string) (msg : string) (w : World.t) :
  passes vcs field -> PathRoute.secure vcs field msg w = (inr tt, w).
Proof.
  unfold passes, PathRoute.secure. hstep.
  destruct (truthy field); [intros H; rewrite (H eq_refl)|]; reflexivity.
Qed.

Lemma truthy_Some (s : string) : s <> EmptyString -> truthy (Some s) = true.
Proof. destruct s; done. Qed.

(** A redirect that cannot be created leaves the world as it finds it,
    and whether it can be created depends on the stored redirects only. *)
Lemma createRedirectSafely_fails (now : Z) (w w1 : World.t)
    (site from dest : string) (code : nat) (actor : string) :
  World.redirects w1 = World.redirects w ->
  SeoUtils.success
    (fst (SeoUtils.createRedirectSafely now w site from dest code actor)) = false ->
  SeoUtils.createRedirectSafely now w1 site from dest code actor
  = (fst (SeoUtils.createRedirectSafely now w site from dest code actor), w1).
Proof.
  intros Hsame. rewrite !createRedirectSafely_eq, Hsame.
  destruct (verdict _ _ _ _); try reflexivity.
  destruct (World.redirects w !! _); [reflexivity|]. cbn. discriminate.
Qed.

Lemma findOneSlugElsewhere_Some (c : SEOPage.coll) (site s p q : string)
    (d : SEOPage.doc) :
  c !! (site, q) = Some d -> SEOPage.slug d = Some s -> q <> p ->
  is_Some (SEOPage.findOneSlugElsewhere c site s p).
Proof.
  intros Hq Hs Hne. unfold SEOPage.findOneSlugElsewhere.
  destruct (List.find _ _) eqn:Hfind; [eauto|].
  apply find_usesSlug_None in Hfind. exfalso. apply Hne.
  exact (Hfind q d Hq Hs).
Qed.

(** The per-path update of a page whose slug changes while the redirect
    for the old slug is refused. *)
Lemma PUT_slug_change_redirect_refused vcs (now : Z) (user : User) (w : World.t)
    (param path : string) (page : PP.PredefinedPage) (vd : PathRoute.UpdateData)
    (new old : string) (rec : SEOPage.doc) :
  PathRoute.decodePath param = Ok path ->
  PP.getPredefinedPageByPath path = Some page ->
  passes vcs (PathRoute.metaTitle vd) ->
  passes vcs (PathRoute.metaDescription vd) ->
  PathRoute.slug vd = Some new -> new <> EmptyString ->
  World.seoPages w !! (PathRoute.siteId, path) = Some rec ->
  SEOPage.slug rec = Some old -> old <> EmptyString -> old <> new ->
  slugFree (World.seoPages w) PathRoute.siteId (Some new) path ->
  let outcome :=
    fst (SeoUtils.createRedirectSafely now w PathRoute.siteId old new 301 (id user)) in
  SeoUtils.success outcome = false ->
  exists saved,
    SEOPage.slug saved = Some new
    /\ PathRoute.PUT vcs now user w param vd
       = (respond 200 (JObj [
            ("success", JBool true);
            ("data", PathRoute.savedData PathRoute.siteId path saved);
            ("message", JStr "SEO page updated successfully");
            ("redirectCreated", JBool false)]),
          World.log
            (World.withSeoPages w
               (<[(PathRoute.siteId, path) := saved]> (World.seoPages w)))
            ("Error creating redirect: "
             +:+ from_option SeoUtils.reason EmptyString (SeoUtils.error outcome))).
Proof.
  intros Hdec Hpage Ht Hd Hslug Hnew Hrec Hold Holdne Hne Hfree outcome Hfail.
  unfold PathRoute.PUT, PathRoute.predefined. hstep.
  rewrite Hdec. hstep. rewrite Hpage. hstep.
  rewrite (secure_passes vcs _ _ w Ht). hstep.
  rewrite (secure_passes vcs _ _ w Hd). hstep.
  rewrite Hslug, (truthy_Some new Hnew).
  change (default EmptyString (Some new)) with new.
  unfold SEOPage.findOneSlugElsewhere.
  rewrite (proj2 (find_usesSlug_None _ _ _ _) Hfree). hstep.
  unfold SEOPage.findOne. rewrite Hrec. hstep. cbn [assign].
  match goal with
  | |- context [SEOPage.save now ?c ?s ?p ?d] =>
      destruct (save_ok now c s p d) as (saved & -> & Hs & _); [exact Hfree|]
  end.
  hstep. rewrite Hold.
  rewrite (bool_decide_eq_false_2 (Some old = Some new)) by congruence.
  cbn [negb andb]. rewrite (truthy_Some old Holdne). cbn [negb andb]. hstep.
  change (default EmptyString (Some old)) with old.
  rewrite (bool_decide_eq_false_2 (Some old = Some new)) by congruence.
  cbn [negb]. hstep.
  rewrite (createRedirectSafely_fails now w) by (try reflexivity; exact Hfail).
  fold outcome. rewrite Hfail. hstep.
  rewrite (bool_decide_eq_false_2 (Some rec = None)) by discriminate.
  exists saved. split; [exact Hs|reflexivity].
Qed.

(** The same for the upsert of the listing endpoint, which also drops the
    cached listings of the site and writes the audit entry. *)
Lemma POST_slug_change_redirect_refused vcs (now : Z) (user : User) (w : World.t)
    (vd : PagesRoute.PageData) (page : PP.PredefinedPage) (old : string)
    (rec : SEOPage.doc) :
  let site := PagesRoute.d_siteId vd in
  let path := PagesRoute.d_path vd in
  let new := PagesRoute.d_slug vd in
  isSecure (vcs (PagesRoute.d_metaTitle vd)) = true ->
  isSecure (vcs (PagesRoute.d_metaDescription vd)) = true ->
  PP.getPredefinedPageByPath path = Some page ->
  World.seoPages w !! (site, path) = Some rec ->
  SEOPage.slug rec = Some old -> old <> EmptyString -> old <> new ->
  slugFree (World.seoPages w) site (Some new) path ->
  let outcome :=
    fst (SeoUtils.createRedirectSafely now w site old new 301 (id user)) in
  SeoUtils.success outcome = false ->
  exists saved w1,
    SEOPage.slug saved = Some new
    /\ World.seoPages w1 = <[(site, path) := saved]> (World.seoPages w)
    /\ World.redirects w1 = World.redirects w
    /\ World.cache w1 = SEOCache.invalidateSEOPage (World.cache w) site path
    /\ World.console w1 = World.console w
    /\ PagesRoute.POST vcs now user w vd
       = (respond 200 (JObj [
            ("success", JBool true);
            ("data", PathRoute.savedData site path saved);
            ("message", JStr "SEO page updated successfully");
            ("redirectCreated", JBool false)]),
          World.log w1
            ("Error creating redirect: "
             +:+ from_option SeoUtils.reason EmptyString (SeoUtils.error outcome))).
Proof.
  intros site path new Ht Hd Hpage Hrec Hold Holdne Hne Hfree outcome Hfail.
  unfold PagesRoute.POST. hstep. rewrite Ht, Hd. cbn [negb orb]. hstep.
  fold site path new. rewrite Hpage. hstep.
  unfold SEOPage.findOneSlugElsewhere.
  rewrite (proj2 (find_usesSlug_None _ _ _ _) Hfree). hstep.
  unfold SEOPage.findOne. rewrite Hrec. hstep.
  match goal with
  | |- context [SEOPage.save now ?c ?s ?p ?d] =>
      destruct (save_ok now c s p d) as (saved & -> & Hs & _); [exact Hfree|]
  end.
  hstep. rewrite Hold.
  rewrite (bool_decide_eq_false_2 (Some old = Some new)) by congruence.
  cbn [negb andb]. rewrite (truthy_Some old Holdne). cbn [negb andb]. hstep.
  change (default EmptyString (Some old)) with old.
  rewrite (bool_decide_eq_false_2 (Some old = Some new)) by congruence.
  cbn [negb]. hstep.
  rewrite (createRedirectSafely_fails now w) by (try reflexivity; exact Hfail).
  fold outcome. rewrite Hfail. hstep.
  rewrite (bool_decide_eq_false_2 (Some rec = None)) by discriminate.
  exists saved. eexists. split; [exact Hs|].
  split; [|split; [|split; [|split; [|reflexivity]]]]; reflexivity.
Qed.

(** C5 (amended). When an upsert changes the slug of an existing record
    and the redirect from the old slug is refused, the request still
    succeeds: the record is stored with the new slug and the reply
    carries redirectCreated = false.  The reply has the members success,
    data, message and redirectCreated and no other; the reason of the
    refusal is written to the server console only. *)
Theorem slug_change_survives_refused_redirect vcs (now : Z) (user : User)
    (w : World.t) :
  (forall param path page vd new old rec,
     PathRoute.decodePath param = Ok path ->
     PP.getPredefinedPageByPath path = Some page ->
     passes vcs (PathRoute.metaTitle vd) ->
     passes vcs (PathRoute.metaDescription vd) ->
     PathRoute.slug vd = Some new -> new <> EmptyString ->
     World.seoPages w !! (PathRoute.siteId, path) = Some rec ->
     SEOPage.slug rec = Some old -> old <> EmptyString -> old <> new ->
     slugFree (World.seoPages w) PathRoute.siteId (Some new) path ->
     let outcome :=
       fst (SeoUtils.createRedirectSafely now w PathRoute.siteId old new 301 (id user)) in
     SeoUtils.success outcome = false ->
     let r := fst (PathRoute.PUT vcs now user w param vd) in
     let w' := snd (PathRoute.PUT vcs now user w param vd) in
     status r = 200
     /\ keys (body r) = ["success"; "data"; "message"; "redirectCreated"]
     /\ get "success" (body r) = Some (JBool true)
     /\ get "redirectCreated" (body r) = Some (JBool false)
     /\ get "slug" (dataOf r) = Some (JStr new)
     /\ (exists saved, World.seoPages w' !! (PathRoute.siteId, path) = Some saved
                       /\ SEOPage.slug saved = Some new)
     /\ World.redirects w' = World.redirects w
     /\ World.console w'
        = World.console w
          ++ ["Error creating redirect: "
              +:+ from_option SeoUtils.reason EmptyString (SeoUtils.error outcome)])
  /\ (forall vd page old rec,
        let site := PagesRoute.d_siteId vd in
        let path := PagesRoute.d_path vd in
        let new := PagesRoute.d_slug vd in
        isSecure (vcs (PagesRoute.d_metaTitle vd)) = true ->
        isSecure (vcs (PagesRoute.d_metaDescription vd)) = true ->
        PP.getPredefinedPageByPath path = Some page ->
        World.seoPages w !! (site, path) = Some rec ->
        SEOPage.slug rec = Some old -> old <> EmptyString -> old <> new ->
        slugFree (World.seoPages w) site (Some new) path ->
        let outcome :=
          fst (SeoUtils.createRedirectSafely now w site old new 301 (id user)) in
        SeoUtils.success outcome = false ->
        let r := fst (PagesRoute.POST vcs now user w vd) in
        let w' := snd (PagesRoute.POST vcs now user w vd) in
        status r = 200
        /\ keys (body r) = ["success"; "data"; "message"; "redirectCreated"]
        /\ get "success" (body r) = Some (JBool true)
        /\ get "redirectCreated" (body r) = Some (JBool false)
        /\ get "slug" (dataOf r) = Some (JStr new)
        /\ (exists saved, World.seoPages w' !! (site, path) = Some saved
                          /\ SEOPage.slug saved = Some new)
        /\ World.redirects w' = World.redirects w
        /\ World.console w'
           = World.console w
             ++ ["Error creating redirect: "
                 +:+ from_option SeoUtils.reason EmptyString (SeoUtils.error outcome)]).
Proof.
  split.
  - intros param path page vd new old rec Hdec Hpage Ht Hd Hslug Hnew Hrec Hold
      Holdne Hne Hfree outcome Hfail r w'.
    destruct (PUT_slug_change_redirect_refused vcs now user w param path page vd
                new old rec Hdec Hpage Ht Hd Hslug Hnew Hrec Hold Holdne Hne Hfree Hfail)
      as (saved & Hs & Heq).
    unfold r, w'. rewrite Heq. cbn [fst snd].
    repeat split; try reflexivity.
    + unfold dataOf. cbn. rewrite Hs. reflexivity.
    + exists saved. cbn. rewrite lookup_insert_eq. done.
  - intros vd page old rec site path new Ht Hd Hpage Hrec Hold Holdne Hne Hfree
      outcome Hfail r w'.
    destruct (POST_slug_change_redirect_refused vcs now user w vd page old rec
                Ht Hd Hpage Hrec Hold Holdne Hne Hfree Hfail)
      as (saved & w1 & Hs & Hpages & Hred & _ & Hcon & Heq).
    unfold r, w'. rewrite Heq. cbn [fst snd].
    repeat split; try reflexivity.
    + unfold dataOf. cbn. rewrite Hs. reflexivity.
    + exists saved. cbn. rewrite Hpages, lookup_insert_eq. done.
    + cbn. exact Hred.
    + cbn. rewrite Hcon. reflexivity.
Qed.

Lemma slugFree_check (c : SEOPage.coll) (site : string) (s : option string)
    (p : string) :
  List.find (SEOPage.usesSlug site s p) (map_to_list c) = None ->
  slugFree c site s p.
Proof. apply find_usesSlug_None. Qed.

Lemma slug_change_survives_refused_redirect_witness :
  let res :=
    PathRoute.PUT Scenario.acceptAll 30 Scenario.admin Scenario.renamedAbout
      "about" Scenario.backToX in
  status (fst res) = 200
  /\ get "redirectCreated" (body (fst res)) = Some (JBool false)
  /\ get "slug" (dataOf (fst res)) = Some (JStr "about-x")
  /\ World.console (snd res)
     = World.console Scenario.renamedAbout
       ++ ["Error creating redirect: Redirect would create an infinite loop"].
Proof.
  assert (Hrec : is_Some (World.seoPages Scenario.renamedAbout
                            !! (PathRoute.siteId, "/about"))).
  { vm_compute. eexists. reflexivity. }
  destruct Hrec as [rec Hrec].
  assert (Hold : SEOPage.slug rec = Some "about-y").
  { assert (H : SEOPage.slug <$> (World.seoPages Scenario.renamedAbout
                                    !! (PathRoute.siteId, "/about"))
                = Some (Some "about-y")) by (vm_compute; reflexivity).
    rewrite Hrec in H. by injection H. }
  destruct (proj1 (slug_change_survives_refused_redirect Scenario.acceptAll 30
                     Scenario.admin Scenario.renamedAbout)
              "about" "/about" Scenario.aboutPage Scenario.backToX
              "about-x" "about-y" rec)
    as (Hst & _ & _ & Hrc & Hslug & _ & _ & Hcon).
  - vm_compute. reflexivity.
  - vm_compute. reflexivity.
  - intros _. reflexivity.
  - intros _. reflexivity.
  - reflexivity.
  - discriminate.
  - exact Hrec.
  - exact Hold.
  - discriminate.
  - discriminate.
  - apply slugFree_check. vm_compute. reflexivity.
  - vm_compute. reflexivity.
  - cbv zeta in *. split; [exact Hst|]. split; [exact Hrc|].
    split; [exact Hslug|]. rewrite Hcon. vm_compute. reflexivity.
Defined.

(** C5 as stated fails: /about is renamed back from about-y to about-x
    while the redirect about-x -> about-y is stored.  The redirect
    about-y -> about-x is refused as a loop, the reply says
    redirectCreated = false, and nothing in the reply carries the
    reason. *)
Lemma refused_redirect_reason_not_reported_counterexample :
  let res :=
    PathRoute.PUT Scenario.acceptAll 30 Scenario.admin Scenario.renamedAbout
      "about" Scenario.backToX in
  let outcome :=
    fst (SeoUtils.createRedirectSafely 30 Scenario.renamedAbout PathRoute.siteId
           "about-y" "about-x" 301 "admin-1") in
  SeoUtils.error outcome = Some SeoUtils.RedirectLoop
  /\ get "redirectCreated" (body (fst res)) = Some (JBool false)
  /\ keys (body (fst res)) = ["success"; "data"; "message"; "redirectCreated"]
  /\ existsb (String.eqb (SeoUtils.reason SeoUtils.RedirectLoop))
       (strings (body (fst res))) = false
  /\ existsb (fun line => includes line (SeoUtils.reason SeoUtils.RedirectLoop))
       (strings (body (fst res))) = false.
Proof.
  intros res outcome.
  split; [vm_compute; reflexivity|].
  split; [vm_compute; reflexivity|].
  split; [vm_compute; reflexivity|].
  split; vm_compute; reflexivity.
Qed.

(** ** Slug uniqueness *)

Lemma PUT_own_slug vcs (now : Z) (user : User) (w : World.t)
    (param path : string) (page : PP.PredefinedPage) (vd : PathRoute.UpdateData)
    (s : string) (rec : SEOPage.doc) :
  PathRoute.decodePath param = Ok path ->
  PP.getPredefinedPageByPath path = Some page ->
  passes vcs (PathRoute.metaTitle vd) ->
  passes vcs (PathRoute.metaDescription vd) ->
  PathRoute.slug vd = Some s -> s <> EmptyString ->
  World.seoPages w !! (PathRoute.siteId, path) = Some rec ->
  SEOPage.slug rec = Some s ->
  slugUnique (World.seoPages w) ->
  exists saved,
    SEOPage.slug saved = Some s
    /\ PathRoute.PUT vcs now user w param vd
       = (respond 200 (JObj [
            ("success", JBool true);
            ("data", PathRoute.savedData PathRoute.siteId path saved);
            ("message", JStr "SEO page updated successfully");
            ("redirectCreated", JBool false)]),
          World.withSeoPages w
            (<[(PathRoute.siteId, path) := saved]> (World.seoPages w))).
Proof.
  intros Hdec Hpage Ht Hd Hslug Hs Hrec Hown Hu.
  assert (Hfree : slugFree (World.seoPages w) PathRoute.siteId (Some s) path).
  { rewrite <- Hown. exact (slugUnique_free_own _ _ _ _ Hu Hrec). }
  unfold PathRoute.PUT, PathRoute.predefined. hstep.
  rewrite Hdec. hstep. rewrite Hpage. hstep.
  rewrite (secure_passes vcs _ _ w Ht). hstep.
  rewrite (secure_passes vcs _ _ w Hd). hstep.
  rewrite Hslug, (truthy_Some s Hs).
  change (default EmptyString (Some s)) with s.
  unfold SEOPage.findOneSlugElsewhere.
  rewrite (proj2 (find_usesSlug_None _ _ _ _) Hfree). hstep.
  unfold SEOPage.findOne. rewrite Hrec. hstep. cbn [assign].
  match goal with
  | |- context [SEOPage.save now ?c ?st ?p ?d] =>
      destruct (save_ok now c st p d) as (saved & -> & Hsl & _); [exact Hfree|]
  end.
  hstep. rewrite Hown.
  rewrite (bool_decide_eq_true_2 (Some s = Some s)) by reflexivity.
  cbn [negb andb truthy]. hstep.
  rewrite (bool_decide_eq_false_2 (Some rec = None)) by discriminate.
  exists saved. split; [exact Hsl|reflexivity].
Qed.

Lemma POST_own_slug vcs (now : Z) (user : User) (w : World.t)
    (vd : PagesRoute.PageData) (page : PP.PredefinedPage) (rec : SEOPage.doc) :
  let site := PagesRoute.d_siteId vd in
  let path := PagesRoute.d_path vd in
  let s := PagesRoute.d_slug vd in
  isSecure (vcs (PagesRoute.d_metaTitle vd)) = true ->
  isSecure (vcs (PagesRoute.d_metaDescription vd)) = true ->
  PP.getPredefinedPageByPath path = Some page ->
  World.seoPages w !! (site, path) = Some rec ->
  SEOPage.slug rec = Some s ->
  slugUnique (World.seoPages w) ->
  exists saved w1,
    SEOPage.slug saved = Some s
    /\ World.seoPages w1 = <[(site, path) := saved]> (World.seoPages w)
    /\ PagesRoute.POST vcs now user w vd
       = (respond 200 (JObj [
            ("success", JBool true);
            ("data", PathRoute.savedData site path saved);
            ("message", JStr "SEO page updated successfully");
            ("redirectCreated", JBool false)]), w1).
Proof.
  intros site path s Ht Hd Hpage Hrec Hown Hu.
  assert (Hfree : slugFree (World.seoPages w) site (Some s) path).
  { rewrite <- Hown. exact (slugUnique_free_own _ _ _ _ Hu Hrec). }
  unfold PagesRoute.POST. hstep. rewrite Ht, Hd. cbn [negb orb]. hstep.
  fold site path s. rewrite Hpage. hstep.
  unfold SEOPage.findOneSlugElsewhere.
  rewrite (proj2 (find_usesSlug_None _ _ _ _) Hfree). hstep.
  unfold SEOPage.findOne. rewrite Hrec. hstep.
  match goal with
  | |- context [SEOPage.save now ?c ?st ?p ?d] =>
      destruct (save_ok now c st p d) as (saved & -> & Hsl & _); [exact Hfree|]
  end.
  hstep. rewrite Hown.
  rewrite (bool_decide_eq_true_2 (Some s = Some s)) by reflexivity.
  cbn [negb andb truthy]. hstep.
  rewrite (bool_decide_eq_false_2 (Some rec = None)) by discriminate.
  exists saved. eexists. split; [exact Hsl|]. split; [|reflexivity]. reflexivity.
Qed.

(** C2. An upsert whose slug is held by the record of another path of
    the same site fails with the slug conflict and leaves the world as it
    was, on the upsert endpoint and on the per-path update alike.  The
    record of the page itself is left out of the check: when the page
    holds the slug already, in a collection that respects the unique slug
    index, the request succeeds. *)
Theorem slug_conflict_rejected_own_slug_accepted vcs (now : Z) (user : User)
    (w : World.t) :
  (forall vd page q other,
     isSecure (vcs (PagesRoute.d_metaTitle vd)) = true ->
     isSecure (vcs (PagesRoute.d_metaDescription vd)) = true ->
     PP.getPredefinedPageByPath (PagesRoute.d_path vd) = Some page ->
     World.seoPages w !! (PagesRoute.d_siteId vd, q) = Some other ->
     SEOPage.slug other = Some (PagesRoute.d_slug vd) ->
     q <> PagesRoute.d_path vd ->
     PagesRoute.POST vcs now user w vd
     = (failure 400 "Slug already exists for another page", w))
  /\ (forall param path page vd s q other,
        PathRoute.decodePath param = Ok path ->
        PP.getPredefinedPageByPath path = Some page ->
        passes vcs (PathRoute.metaTitle vd) ->
        passes vcs (PathRoute.metaDescription vd) ->
        PathRoute.slug vd = Some s -> s <> EmptyString ->
        World.seoPages w !! (PathRoute.siteId, q) = Some other ->
        SEOPage.slug other = Some s ->
        q <> path ->
        PathRoute.PUT vcs now user w param vd
        = (failure 400 "Slug already exists for another page", w))
  /\ (forall vd page rec,
        isSecure (vcs (PagesRoute.d_metaTitle vd)) = true ->
        isSecure (vcs (PagesRoute.d_metaDescription vd)) = true ->
        PP.getPredefinedPageByPath (PagesRoute.d_path vd) = Some page ->
        World.seoPages w !! (PagesRoute.d_siteId vd, PagesRoute.d_path vd) = Some rec ->
        SEOPage.slug rec = Some (PagesRoute.d_slug vd) ->
        slugUnique (World.seoPages w) ->
        status (fst (PagesRoute.POST vcs now user w vd)) = 200
        /\ get "success" (body (fst (PagesRoute.POST vcs now user w vd)))
           = Some (JBool true))
  /\ (forall param path page vd s rec,
        PathRoute.decodePath param = Ok path ->
        PP.getPredefinedPageByPath path = Some page ->
        passes vcs (PathRoute.metaTitle vd) ->
        passes vcs (PathRoute.metaDescription vd) ->
        PathRoute.slug vd = Some s -> s <> EmptyString ->
        World.seoPages w !! (PathRoute.siteId, path) = Some rec ->
        SEOPage.slug rec = Some s ->
        slugUnique (World.seoPages w) ->
        status (fst (PathRoute.PUT vcs now user w param vd)) = 200
        /\ get "success" (body (fst (PathRoute.PUT vcs now user w param vd)))
           = Some (JBool true)).
Proof.
  split; [|split; [|split]].
  - intros vd page q other Ht Hd Hpage Hq Hs Hne.
    destruct (findOneSlugElsewhere_Some _ _ _ _ _ _ Hq Hs Hne) as [hit Hhit].
    unfold PagesRoute.POST. hstep. rewrite Ht, Hd. cbn [negb orb]. hstep.
    rewrite Hpage. hstep. rewrite Hhit. reflexivity.
  - intros param path page vd s q other Hdec Hpage Ht Hd Hslug Hs Hq Hsl Hne.
    destruct (findOneSlugElsewhere_Some _ _ _ _ _ _ Hq Hsl Hne) as [hit Hhit].
    unfold PathRoute.PUT, PathRoute.predefined. hstep.
    rewrite Hdec. hstep. rewrite Hpage. hstep.
    rewrite (secure_passes vcs _ _ w Ht). hstep.
    rewrite (secure_passes vcs _ _ w Hd). hstep.
    rewrite Hslug, (truthy_Some s Hs).
    change (default EmptyString (Some s)) with s. rewrite Hhit. reflexivity.
  - intros vd page rec Ht Hd Hpage Hrec Hown Hu.
    destruct (POST_own_slug vcs now user w vd page rec Ht Hd Hpage Hrec Hown Hu)
      as (saved & w1 & _ & _ & ->).
    split; reflexivity.
  - intros param path page vd s rec Hdec Hpage Ht Hd Hslug Hs Hrec Hown Hu.
    destruct (PUT_own_slug vcs now user w param path page vd s rec
                Hdec Hpage Ht Hd Hslug Hs Hrec Hown Hu) as (saved & _ & ->).
    split; reflexivity.
Qed.

Lemma slug_conflict_rejected_own_slug_accepted_witness :
  PagesRoute.POST Scenario.acceptAll 40 Scenario.admin Scenario.customAbout
    Scenario.careersAsAboutX
  = (failure 400 "Slug already exists for another page", Scenario.customAbout).
Proof.
  assert (Hrec : is_Some (World.seoPages Scenario.customAbout
                            !! (Scenario.site, "/about"))).
  { vm_compute. eexists. reflexivity. }
  destruct Hrec as [other Hrec].
  assert (Hslug : SEOPage.slug other = Some "about-x").
  { assert (H : SEOPage.slug <$> (World.seoPages Scenario.customAbout
                                    !! (Scenario.site, "/about"))
                = Some (Some "about-x")) by (vm_compute; reflexivity).
    rewrite Hrec in H. by injection H. }
  apply (proj1 (slug_conflict_rejected_own_slug_accepted Scenario.acceptAll 40
                  Scenario.admin Scenario.customAbout)
           Scenario.careersAsAboutX
           (PP.mkPage "/careers" "careers" PP.Cat_other
              "Careers at Altiora Infotech - Join Our Team"
              "Join Altiora Infotech and work on cutting-edge AI, Web3, and growth engineering projects. Explore career opportunities.")
           "/about" other).
  - reflexivity.
  - reflexivity.
  - vm_compute. reflexivity.
  - exact Hrec.
  - exact Hslug.
  - discriminate.
Defined.

(** ** The cached listing *)

(** C4. The listing is cached for thirty minutes and only the upsert
    endpoint drops the cached listings of the site.  The reset of a page
    and the per-path update leave them in place: /about, renamed to
    about-x, is listed, then reset (or renamed again through the per-path
    update), then listed again a minute later, and the second listing is
    the first one, byte for byte, still counting one custom page and
    unlike the listing composed from the store.  After an upsert through
    the listing endpoint the next listing is the fresh one. *)
Theorem listing_stale_after_reset :
  let first := Scenario.listPages 100 Scenario.customAbout in
  let reset := PathRoute.DELETE (snd first) "about" in
  let afterReset := Scenario.listPages 160 (snd reset) in
  let renamed :=
    PathRoute.PUT Scenario.acceptAll 130 Scenario.admin (snd first) "about"
      (PathRoute.mkUpdate (Some "about-y") None None None None None) in
  let afterRename := Scenario.listPages 160 (snd renamed) in
  let upserted :=
    PagesRoute.POST Scenario.acceptAll 130 Scenario.admin (snd first)
      Scenario.aboutAsZ in
  let afterUpsert := Scenario.listPages 160 (snd upserted) in
  status (fst reset) = 200
  /\ World.seoPages (snd reset) !! (Scenario.site, "/about") = None
  /\ body (fst afterReset) = body (fst first)
  /\ get "customPages" (summaryOf (fst afterReset)) = Some (JNum 1)
  /\ get "customPages" (summaryOf (Scenario.fresh (snd reset))) = Some (JNum 0)
  /\ status (fst renamed) = 200
  /\ body (fst afterRename) = body (fst first)
  /\ existsb (String.eqb "about-y") (strings (body (fst afterRename))) = false
  /\ existsb (String.eqb "about-y") (strings (body (Scenario.fresh (snd renamed)))) = true
  /\ status (fst upserted) = 200
  /\ body (fst afterUpsert) = body (Scenario.fresh (snd upserted))
  /\ existsb (String.eqb "about-z") (strings (body (fst afterUpsert))) = true.
Proof.
  intros first reset afterReset renamed afterRename upserted afterUpsert.
  split; [vm_compute; reflexivity|].
  split; [vm_compute; reflexivity|].
  split; [vm_compute; reflexivity|].
  split; [vm_compute; reflexivity|].
  split; [vm_compute; reflexivity|].
  split; [vm_compute; reflexivity|].
  split; [vm_compute; reflexivity|].
  split; [vm_compute; reflexivity|].
  split; [vm_compute; reflexivity|].
  split; [vm_compute; reflexivity|].
  split; vm_compute; reflexivity.
Qed.

Ltac break_match :=
  match goal with
  | |- context [match ?x with _ => _ end] =>
      lazymatch x with
      | context [match _ with _ => _ end] => fail
      | _ => destruct x eqn:?
      end
  end.

Ltac fresh_ids :=
  repeat match goal with
         | H : World.freshId _ = (_, _) |- _ =>
             unfold World.freshId in H; injection H as <- <-
         end.

#[local] Arguments SEOPage.save : simpl never.
#[local] Arguments SeoUtils.createRedirectSafely : simpl never.

(** Creating a redirect touches neither the cache nor the SEO records. *)
Lemma createRedirectSafely_frame (now : Z) (w : World.t) (site from dest : string)
    (code : nat) (actor : string) :
  World.cache (snd (SeoUtils.createRedirectSafely now w site from dest code actor))
  = World.cache w
  /\ World.seoPages (snd (SeoUtils.createRedirectSafely now w site from dest code actor))
     = World.seoPages w.
Proof.
  rewrite createRedirectSafely_eq.
  destruct (verdict _ _ _ _); try done.
  destruct (World.redirects w !! _); done.
Qed.

Ltac redirect_frame :=
  try match goal with
      | H : SeoUtils.createRedirectSafely ?n ?w0 ?s ?f ?d ?c ?a = (_, _) |- _ =>
          let Hc := fresh in
          pose proof (proj1 (createRedirectSafely_frame n w0 s f d c a)) as Hc;
          rewrite H in Hc; cbn in Hc |- *; try rewrite Hc
      end.

(** The reset of a page never touches the cache. *)
Lemma DELETE_keeps_cache (w : World.t) (param : string) :
  World.cache (snd (PathRoute.DELETE w param)) = World.cache w.
Proof.
  unfold PathRoute.DELETE, PathRoute.predefined. hstep.
  destruct (PathRoute.decodePath param) as [p|]; hstep; [|reflexivity].
  destruct (PP.getPredefinedPageByPath p); hstep; [|reflexivity].
  unfold SEOPage.findOneAndDelete, SEOPage.findOne.
  destruct (World.seoPages w !! _); reflexivity.
Qed.

(** Neither does the per-path update. *)
Lemma PUT_keeps_cache vcs (now : Z) (user : User) (w : World.t) (param : string)
    (vd : PathRoute.UpdateData) :
  World.cache (snd (PathRoute.PUT vcs now user w param vd)) = World.cache w.
Proof.
  unfold PathRoute.PUT, PathRoute.predefined, PathRoute.secure. hstep.
  repeat (break_match; hstep; try reflexivity).
  all: redirect_frame; fresh_ids; reflexivity.
Qed.

(** The upsert of the listing endpoint drops the cached listings of the
    site whenever it succeeds. *)
Lemma POST_drops_cached_listings vcs (now : Z) (user : User) (w : World.t)
    (vd : PagesRoute.PageData) :
  status (fst (PagesRoute.POST vcs now user w vd)) = 200 ->
  World.cache (snd (PagesRoute.POST vcs now user w vd))
  = SEOCache.invalidateSEOPage (World.cache w) (PagesRoute.d_siteId vd)
      (PagesRoute.d_path vd).
Proof.
  unfold PagesRoute.POST. hstep.
  repeat (break_match; hstep; try (cbn; discriminate)).
  all: try (unfold caught; destruct (includes _ _); cbn; discriminate).
  all: intros _; redirect_frame; fresh_ids; reflexivity.
Qed.

Lemma invalidated_miss (now : Z) (c : SEOCache.store) (site p hash : string) :
  SEOCache.getCachedSEOList now (SEOCache.invalidateSEOPage c site p) site hash
  = None.
Proof.
  unfold SEOCache.getCachedSEOList, SEOCache.invalidateSEOPage.
  rewrite (map_lookup_filter_None_2 _ c (site, hash)); [reflexivity|].
  right. intros e _ Hne. apply Hne. reflexivity.
Qed.

(** A listing that misses the cache is the composition of catalog and
    store. *)
Lemma GET_miss hash heads cmp lower (now : Z) (bypass : bool) (w : World.t)
    (q : PagesRoute.QueryParams) :
  bypass = true
  \/ SEOCache.getCachedSEOList now (World.cache w) (PagesRoute.siteId q) (hash q)
     = None ->
  PagesRoute.GET hash heads cmp lower now bypass w q
  = (mkResponse 200 (PagesRoute.listing cmp lower (World.seoPages w) q) (heads 1800%Z),
     World.withCache w
       (SEOCache.cacheSEOList now (World.cache w) (PagesRoute.siteId q) (hash q)
          (PagesRoute.listing cmp lower (World.seoPages w) q) 1800)).
Proof.
  intros H. unfold PagesRoute.GET. hstep.
  destruct H as [-> | ->]; [reflexivity|]. destruct bypass; reflexivity.
Qed.

(** X9. The listing that follows a successful upsert of the same site is
    composed afresh from the store the upsert left. *)
Lemma listing_fresh_after_upsert vcs hash heads cmp lower (now now' : Z) (user : User)
    (w : World.t) (vd : PagesRoute.PageData) (bypass : bool)
    (q : PagesRoute.QueryParams) :
  PagesRoute.siteId q = PagesRoute.d_siteId vd ->
  status (fst (PagesRoute.POST vcs now user w vd)) = 200 ->
  body (fst (PagesRoute.GET hash heads cmp lower now' bypass
               (snd (PagesRoute.POST vcs now user w vd)) q))
  = PagesRoute.listing cmp lower
      (World.seoPages (snd (PagesRoute.POST vcs now user w vd))) q.
Proof.
  intros Hsite Hok. rewrite GET_miss; [reflexivity|]. right.
  rewrite (POST_drops_cached_listings vcs now user w vd Hok), Hsite.
  apply invalidated_miss.
Qed.

Lemma GET_agreeing_entry hash heads cmp lower (now : Z) (bypass : bool) (w : World.t)
    (q : PagesRoute.QueryParams) :
  (forall e, World.cache w !! (PagesRoute.siteId q, hash q) = Some e ->
             SEOCache.value e = PagesRoute.listing cmp lower (World.seoPages w) q) ->
  fst (PagesRoute.GET hash heads cmp lower now bypass w q)
  = mkResponse 200 (PagesRoute.listing cmp lower (World.seoPages w) q) (heads 1800%Z).
Proof.
  intros Hc. unfold PagesRoute.GET. hstep.
  destruct bypass; [reflexivity|]. cbn [negb]. unfold SEOCache.getCachedSEOList.
  destruct (World.cache w !! _) as [e|]; [|reflexivity].
  destruct (now <? SEOCache.expiresAt e)%Z; [|reflexivity].
  hstep. rewrite (Hc e eq_refl). reflexivity.
Qed.

(** Two listings in a row, with nothing written in between, are
    byte-identical, provided the cached entry of the query, if one is
    alive, agrees with the store. *)
Lemma listing_repeatable hash heads cmp lower (now now' : Z) (bypass bypass' : bool)
    (w : World.t) (q : PagesRoute.QueryParams) :
  (forall e, World.cache w !! (PagesRoute.siteId q, hash q) = Some e ->
             (now <? SEOCache.expiresAt e)%Z = true ->
             SEOCache.value e = PagesRoute.listing cmp lower (World.seoPages w) q) ->
  let first := PagesRoute.GET hash heads cmp lower now bypass w q in
  let second := PagesRoute.GET hash heads cmp lower now' bypass' (snd first) q in
  fst second = fst first
  /\ body (fst first) = PagesRoute.listing cmp lower (World.seoPages w) q.
Proof.
  intros Hcoh first second.
  assert (Hmiss : forall c,
    c = SEOCache.cacheSEOList now (World.cache w) (PagesRoute.siteId q) (hash q)
          (PagesRoute.listing cmp lower (World.seoPages w) q) 1800 ->
    fst (PagesRoute.GET hash heads cmp lower now' bypass' (World.withCache w c) q)
    = mkResponse 200 (PagesRoute.listing cmp lower (World.seoPages w) q) (heads 1800%Z)).
  { intros c ->. apply (GET_agreeing_entry hash heads cmp lower now' bypass'
                          (World.withCache w _) q).
    intros e He. cbn in He. unfold SEOCache.cacheSEOList in He.
    rewrite lookup_insert_eq in He. injection He as <-. reflexivity. }
  unfold second, first.
  destruct bypass.
  - rewrite (GET_miss hash heads cmp lower now true w q) by (left; reflexivity).
    cbn [fst snd body]. split; [|reflexivity]. apply Hmiss. reflexivity.
  - destruct (SEOCache.getCachedSEOList now (World.cache w) (PagesRoute.siteId q)
                (hash q)) as [v|] eqn:Hget.
    + unfold SEOCache.getCachedSEOList in Hget.
      destruct (World.cache w !! (PagesRoute.siteId q, hash q)) as [e|] eqn:He;
        [|discriminate].
      destruct (now <? SEOCache.expiresAt e)%Z eqn:Hlive; [|discriminate].
      injection Hget as <-.
      assert (Hfirst : PagesRoute.GET hash heads cmp lower now false w q
                       = (mkResponse 200 (PagesRoute.listing cmp lower (World.seoPages w) q)
                            (heads 1800%Z), w)).
      { unfold PagesRoute.GET. hstep. cbn [negb]. unfold SEOCache.getCachedSEOList.
        rewrite He, Hlive. hstep. rewrite (Hcoh e eq_refl Hlive). reflexivity. }
      rewrite Hfirst. cbn [fst snd body]. split; [|reflexivity].
      apply GET_agreeing_entry. intros e' He'. rewrite He in He'.
      injection He' as <-. exact (Hcoh e eq_refl Hlive).
    + rewrite (GET_miss hash heads cmp lower now false w q) by (right; exact Hget).
      cbn [fst snd body]. split; [|reflexivity]. apply Hmiss. reflexivity.
Qed.

Lemma GET_hit hash heads cmp lower (now : Z) (w : World.t) (q : PagesRoute.QueryParams)
    (v : json) :
  SEOCache.getCachedSEOList now (World.cache w) (PagesRoute.siteId q) (hash q)
  = Some v ->
  PagesRoute.GET hash heads cmp lower now false w q = (mkResponse 200 v (heads 1800%Z), w).
Proof. intros H. unfold PagesRoute.GET. hstep. cbn [negb]. rewrite H. reflexivity. Qed.

(** Whatever listing is alive in the cache is what the listing endpoint
    answers after a reset or a per-path update, whatever these wrote. *)
Lemma listing_served_from_cache_after_write vcs hash heads cmp lower (now now' : Z)
    (user : User) (w : World.t) (param : string) (vd : PathRoute.UpdateData)
    (q : PagesRoute.QueryParams) (v : json) :
  SEOCache.getCachedSEOList now' (World.cache w) (PagesRoute.siteId q) (hash q)
  = Some v ->
  body (fst (PagesRoute.GET hash heads cmp lower now' false
               (snd (PathRoute.DELETE w param)) q)) = v
  /\ body (fst (PagesRoute.GET hash heads cmp lower now' false
                  (snd (PathRoute.PUT vcs now user w param vd)) q)) = v.
Proof.
  intros H. split.
  - rewrite (GET_hit hash heads cmp lower now' _ q v); [reflexivity|].
    rewrite DELETE_keeps_cache. exact H.
  - rewrite (GET_hit hash heads cmp lower now' _ q v); [reflexivity|].
    rewrite PUT_keeps_cache. exact H.
Qed.

(** * Further properties of the code *)

#[local] Arguments Bulk.forEach : simpl never.

(** ** The catalog *)

Lemma paths_NoDup : NoDup PP.getAllPredefinedPaths.
Proof. apply (bool_decide_unpack _). vm_compute. exact I. Qed.

Lemma catalog_slug_lookup :
  forallb
    (fun page =>
       bool_decide (PP.getPredefinedPageBySlug (PP.defaultSlug page)
                    = Some page))
    PP.PREDEFINED_PAGES = true.
Proof. vm_compute. reflexivity. Qed.

(** X1. No two catalog pages share a path or a default slug: a lookup by
    path or by slug finds a page exactly when the catalog has a page of
    that path or slug, and then it finds that page. *)
Theorem catalog_lookups_find_their_page (page : PP.PredefinedPage) :
  (forall p, PP.getPredefinedPageByPath p = Some page
             <-> In page PP.PREDEFINED_PAGES /\ PP.path page = p)
  /\ (forall s, PP.getPredefinedPageBySlug s = Some page
                <-> In page PP.PREDEFINED_PAGES /\ PP.defaultSlug page = s)
  /\ (forall c, In page (PP.getPredefinedPagesByCategory c)
                <-> In page PP.PREDEFINED_PAGES /\ PP.categoryName (PP.category page) = c).
Proof.
  split; [|split].
  - intros p. split; [apply getPredefinedPageByPath_Some|].
    intros [Hin <-]. exact (proj2 (proj2 (catalog_page page Hin))).
  - intros s. split.
    + unfold PP.getPredefinedPageBySlug. intros H.
      apply find_some in H as [Hin Heq]. apply String.eqb_eq in Heq. auto.
    + intros [Hin <-]. pose proof catalog_slug_lookup as H.
      rewrite forallb_forall in H. specialize (H _ Hin).
      apply bool_decide_eq_true in H. exact H.
  - intros c. unfold PP.getPredefinedPagesByCategory.
    rewrite filter_In, String.eqb_eq. reflexivity.
Qed.

(** ** Encoding a path for the address of a request *)

Lemma unescape_literal (c : ascii) (rest : string) :
  c <> "%"%char ->
  Uri.unescape (String c rest)
  = match Uri.unescape rest with
    | Some os => Some ((false, N_of_ascii c) :: os)
    | None => None
    end.
Proof.
  intros Hc. destruct c as [[] [] [] [] [] [] [] []]; try reflexivity.
  contradiction Hc. reflexivity.
Qed.

Lemma hexDigit_hexChar (c : ascii) :
  Uri.hexDigit (UriEncode.hexChar (N_of_ascii c / 16)) = Some (N_of_ascii c / 16)%N
  /\ Uri.hexDigit (UriEncode.hexChar (N_of_ascii c mod 16)) = Some (N_of_ascii c mod 16)%N.
Proof. destruct c as [[] [] [] [] [] [] [] []]; split; vm_compute; reflexivity. Qed.

Lemma unreserved_not_percent (c : ascii) :
  UriEncode.unreserved c = true -> c <> "%"%char.
Proof. intros H ->. vm_compute in H. discriminate. Qed.

Lemma unescape_escape (s : string) :
  Uri.unescape (UriEncode.escape s) = Some (map tag (list_ascii_of_string s)).
Proof.
  induction s as [|c s IH]; [reflexivity|].
  cbn [UriEncode.escape list_ascii_of_string map]. unfold tag at 1.
  destruct (UriEncode.unreserved c) eqn:Hu.
  - rewrite unescape_literal by (apply unreserved_not_percent; exact Hu).
    rewrite IH. reflexivity.
  - cbn [Uri.unescape]. destruct (hexDigit_hexChar c) as [-> ->]. rewrite IH.
    cbn [negb]. do 3 f_equal. symmetry. apply N.div_mod. discriminate.
Qed.

Lemma unreserved_ascii (c : ascii) :
  UriEncode.unreserved c = true -> (N_of_ascii c <? 128)%N = true.
Proof. destruct c as [[] [] [] [] [] [] [] []]; vm_compute; congruence. Qed.

Lemma between_tag (lo hi : N) (c : ascii) :
  (128 <= lo)%N ->
  Uri.between lo hi (tag c) = Uri.between lo hi (true, N_of_ascii c).
Proof.
  intros Hlo. unfold Uri.between, tag. cbn [fst snd].
  destruct (UriEncode.unreserved c) eqn:Hu; [|reflexivity].
  apply unreserved_ascii in Hu. apply N.ltb_lt in Hu. cbn [negb andb].
  symmetry. destruct (N.leb_spec lo (N_of_ascii c)); [lia|reflexivity].
Qed.

Lemma cont_tag (c : ascii) : Uri.cont (tag c) = Uri.cont (true, N_of_ascii c).
Proof. apply between_tag. lia. Qed.

Lemma wellFormed_tag (n : nat) :
  forall l : list ascii,
    List.length l <= n ->
    Uri.wellFormed (map tag l)
    = Uri.wellFormed (map (fun c => (true, N_of_ascii c)) l).
Proof.
  induction n as [|n IH]; intros l Hl.
  - destruct l; [reflexivity|cbn in Hl; lia].
  - destruct l as [|c l]; [reflexivity|]. cbn [List.length] in Hl.
    cbn [map Uri.wellFormed]. unfold tag at 1.
    destruct (UriEncode.unreserved c) eqn:Hu; cbn [negb].
    + rewrite (unreserved_ascii c Hu). apply IH. lia.
    + destruct (N_of_ascii c <? 128)%N; [apply IH; lia|].
      destruct l as [|c1 l]; [reflexivity|]. cbn [map List.length] in *.
      destruct ((194 <=? N_of_ascii c)%N && (N_of_ascii c <=? 223)%N).
      { rewrite cont_tag, IH by lia. reflexivity. }
      destruct l as [|c2 l]; [reflexivity|]. cbn [map List.length] in *.
      destruct ((224 <=? N_of_ascii c)%N && (N_of_ascii c <=? 239)%N).
      { rewrite !between_tag, !cont_tag, IH by lia. reflexivity. }
      destruct l as [|c3 l]; [reflexivity|]. cbn [map List.length] in *.
      destruct ((240 <=? N_of_ascii c)%N && (N_of_ascii c <=? 244)%N); [|reflexivity].
      rewrite !between_tag, !cont_tag, IH by lia. reflexivity.
Qed.

Lemma bytes_tag (s : string) : Uri.bytes (map tag (list_ascii_of_string s)) = s.
Proof.
  induction s as [|c s IH]; [reflexivity|].
  cbn [list_ascii_of_string map Uri.bytes fold_right snd tag].
  rewrite ascii_N_embedding. f_equal. exact IH.
Qed.

(** X2. Decoding undoes encoding. *)
Theorem decode_undoes_encode (s e : string) :
  UriEncode.encodeURIComponent s = Some e ->
  Uri.decodeURIComponent e = Some s
  /\ (startsWith s "/" = true -> PathRoute.decodePath e = Ok s).
Proof.
  unfold UriEncode.encodeURIComponent. destruct (UriEncode.utf8 s) eqn:Hu; [|discriminate].
  intros [= <-].
  assert (Hd : Uri.decodeURIComponent (UriEncode.escape s) = Some s).
  { unfold Uri.decodeURIComponent. rewrite unescape_escape.
    rewrite (wellFormed_tag _ _ (le_n _)). unfold UriEncode.utf8 in Hu. rewrite Hu.
    rewrite bytes_tag. reflexivity. }
  split; [exact Hd|]. intros Hs. unfold PathRoute.decodePath. rewrite Hd, Hs.
  rewrite andb_false_r. reflexivity.
Qed.

Lemma decode_undoes_encode_witness :
  PathRoute.decodePath "%2Fblog%2Fweb3%20%26%20ai" = Ok "/blog/web3 & ai".
Proof.
  exact (proj2 (decode_undoes_encode "/blog/web3 & ai" "%2Fblog%2Fweb3%20%26%20ai" eq_refl)
           eq_refl).
Defined.

(** ** The per-path handlers *)

(** X3. A parameter that decodes to a path outside the catalog is answered
    with 404 by the three per-path handlers, before anything is read or
    written. *)
Theorem unknown_page_not_found (param p : string) :
  PathRoute.decodePath param = Ok p ->
  PP.getPredefinedPageByPath p = None ->
  forall w,
    PathRoute.GET w param = (failure 404 "Page not found in predefined pages", w)
    /\ PathRoute.DELETE w param = (failure 404 "Page not found in predefined pages", w)
    /\ forall vcs now user vd,
         PathRoute.PUT vcs now user w param vd
         = (failure 404 "Page not found in predefined pages", w).
Proof.
  intros Hd Hp w. repeat split.
  - unfold PathRoute.GET, PathRoute.predefined. hstep. rewrite Hd. hstep.
    rewrite Hp. reflexivity.
  - unfold PathRoute.DELETE, PathRoute.predefined. hstep. rewrite Hd. hstep.
    rewrite Hp. reflexivity.
  - intros vcs now user vd. unfold PathRoute.PUT, PathRoute.predefined. hstep.
    rewrite Hd. hstep. rewrite Hp. reflexivity.
Qed.

Lemma unknown_page_not_found_witness :
  PathRoute.GET Scenario.seeded "home"
  = (failure 404 "Page not found in predefined pages", Scenario.seeded).
Proof.
  exact (proj1 (unknown_page_not_found "home" "home" eq_refl eq_refl Scenario.seeded)).
Defined.

Lemma DELETE_200 (w : World.t) (param : string) :
  status (fst (PathRoute.DELETE w param)) = 200 ->
  exists p page d,
    PathRoute.decodePath param = Ok p
    /\ PP.getPredefinedPageByPath p = Some page
    /\ World.seoPages w !! (PathRoute.siteId, p) = Some d
    /\ snd (PathRoute.DELETE w param)
       = World.withSeoPages w (delete (PathRoute.siteId, p) (World.seoPages w)).
Proof.
  unfold PathRoute.DELETE, PathRoute.predefined. hstep.
  destruct (PathRoute.decodePath param) as [p|msg]; hstep.
  2:{ unfold caught. destruct (includes _ _); cbn; discriminate. }
  destruct (PP.getPredefinedPageByPath p) as [page|] eqn:Hp; hstep;
    [|cbn; discriminate].
  unfold SEOPage.findOneAndDelete.
  destruct (World.seoPages w !! (PathRoute.siteId, p)) as [d|] eqn:Hrec; hstep;
    [|cbn; discriminate].
  intros _. exists p, page, d. repeat split; reflexivity || assumption.
Qed.

(** X4. After a successful reset the page reads as its catalog defaults,
    a second reset finds nothing and changes nothing, and no other record
    and no redirect has been touched. *)
Theorem reset_then_get_defaults (w : World.t) (param : string) :
  status (fst (PathRoute.DELETE w param)) = 200 ->
  let w' := snd (PathRoute.DELETE w param) in
  exists p page,
    PathRoute.decodePath param = Ok p
    /\ PP.getPredefinedPageByPath p = Some page
    /\ World.seoPages w' = delete (PathRoute.siteId, p) (World.seoPages w)
    /\ World.redirects w' = World.redirects w
    /\ snd (PathRoute.GET w' param) = w'
    /\ Forall
         (fun kv => get (fst kv) (dataOf (fst (PathRoute.GET w' param))) = Some (snd kv))
         [("path", JStr p);
          ("slug", JStr (PP.defaultSlug page));
          ("metaTitle", JStr (PP.defaultTitle page));
          ("metaDescription", JStr (PP.defaultDescription page));
          ("robots", JStr "index,follow");
          ("pageCategory", JStr (PP.categoryName (PP.category page)));
          ("isCustom", JBool false);
          ("hasCustomSeo", JBool false)]
    /\ PathRoute.DELETE w' param
       = (failure 404 "No custom SEO data found for this page", w').
Proof.
  intros H w'. destruct (DELETE_200 w param H) as (p & page & d & Hd & Hp & Hrec & Hw).
  exists p, page. subst w'. rewrite Hw.
  split; [exact Hd|]. split; [exact Hp|]. split; [reflexivity|].
  split; [reflexivity|].
  assert (Hnone : delete (PathRoute.siteId, p) (World.seoPages w)
                  !! (PathRoute.siteId, p) = None) by apply lookup_delete_eq.
  split; [|split].
  - unfold PathRoute.GET, PathRoute.predefined. hstep. rewrite Hd. hstep.
    rewrite Hp. reflexivity.
  - unfold PathRoute.GET, PathRoute.predefined. hstep. rewrite Hd. hstep.
    rewrite Hp. hstep. unfold SEOPage.findOne. cbn [World.seoPages World.withSeoPages].
    rewrite Hnone. repeat constructor.
  - unfold PathRoute.DELETE, PathRoute.predefined. hstep. rewrite Hd. hstep.
    rewrite Hp. hstep. unfold SEOPage.findOneAndDelete.
    cbn [World.seoPages World.withSeoPages]. rewrite Hnone. hstep.
    rewrite delete_delete_eq. destruct w; reflexivity.
Qed.

Lemma reset_then_get_defaults_witness :
  PathRoute.DELETE (snd (PathRoute.DELETE Scenario.customAbout "about")) "about"
  = (failure 404 "No custom SEO data found for this page",
     snd (PathRoute.DELETE Scenario.customAbout "about")).
Proof.
  assert (H : status (fst (PathRoute.DELETE Scenario.customAbout "about")) = 200)
    by (vm_compute; reflexivity).
  destruct (reset_then_get_defaults Scenario.customAbout "about" H)
    as (p & page & _ & _ & _ & _ & _ & _ & Hagain).
  exact Hagain.
Defined.

Lemma save_inv (now : Z) (c c' : SEOPage.coll) (site p : string) (d d' : SEOPage.doc) :
  SEOPage.save now c site p d = Ok (d', c') ->
  c' = <[(site, p) := d']> c
  /\ SEOPage.slug d' = SEOPage.slug d
  /\ SEOPage.metaTitle d' = SEOPage.metaTitle d
  /\ SEOPage.metaDescription d' = SEOPage.metaDescription d
  /\ SEOPage.robots d' = SEOPage.robots d
  /\ SEOPage.pageCategory d' = SEOPage.pageCategory d
  /\ SEOPage.openGraph d' = SEOPage.openGraph d
  /\ SEOPage.isCustom d' = SEOPage.isCustom d.
Proof.
  unfold SEOPage.save. destruct (List.find _ _); [discriminate|].
  destruct (c !! (site, p)); intros [= <- <-]; repeat split; reflexivity.
Qed.

Lemma PUT_200 vcs (now : Z) (user : User) (w : World.t) (param : string)
    (vd : PathRoute.UpdateData) :
  status (fst (PathRoute.PUT vcs now user w param vd)) = 200 ->
  exists p page d',
    PathRoute.decodePath param = Ok p
    /\ PP.getPredefinedPageByPath p = Some page
    /\ World.seoPages (snd (PathRoute.PUT vcs now user w param vd))
       = <[(PathRoute.siteId, p) := d']> (World.seoPages w)
    /\ let old := World.seoPages w !! (PathRoute.siteId, p) in
       SEOPage.slug d' = stored old SEOPage.slug (PathRoute.slug vd) (PP.defaultSlug page)
       /\ SEOPage.metaTitle d'
          = stored old SEOPage.metaTitle (PathRoute.metaTitle vd) (PP.defaultTitle page)
       /\ SEOPage.metaDescription d'
          = stored old SEOPage.metaDescription (PathRoute.metaDescription vd)
              (PP.defaultDescription page)
       /\ SEOPage.robots d'
          = stored old SEOPage.robots (PathRoute.robots vd) "index,follow"
       /\ SEOPage.pageCategory d'
          = stored old SEOPage.pageCategory (PathRoute.pageCategory vd)
              (PP.categoryName (PP.category page))
       /\ SEOPage.isCustom d' = true.
Proof.
  unfold PathRoute.PUT, PathRoute.predefined, PathRoute.secure. hstep.
  destruct (PathRoute.decodePath param) as [p|msg]; hstep.
  2:{ unfold caught. destruct (includes _ _); cbn; discriminate. }
  destruct (PP.getPredefinedPageByPath p) as [page|] eqn:Hp; hstep;
    [|cbn; discriminate].
  unfold SEOPage.findOne.
  repeat (break_match; hstep; try (cbn; discriminate)).
  all: try (unfold caught; destruct (includes _ _); cbn; discriminate).
  all: intros _; exists p, page.
  all: fresh_ids.
  all: match goal with
       | H : SEOPage.save _ _ _ _ _ = Ok (?d, _) |- _ =>
           exists d; apply save_inv in H;
           destruct H as (-> & Hs & Ht & Hd & Hr & Hc & _ & Hi)
       end.
  all: split; [reflexivity|]; split; [exact Hp|].
  all: try match goal with
           | H : SeoUtils.createRedirectSafely ?n ?w0 ?s ?f ?d ?c ?a = (_, _) |- _ =>
               let Hf := fresh in
               pose proof (proj2 (createRedirectSafely_frame n w0 s f d c a)) as Hf;
               rewrite H in Hf; cbn in Hf; cbn [World.seoPages World.log]; rewrite Hf
           end.
  all: cbn [World.seoPages World.withSeoPages World.log World.freshId fst snd].
  all: split; [reflexivity|].
  all: match goal with
       | H : _ !! _ = _ |- _ => rewrite H
       end.
  all: unfold stored; cbn in Hs, Ht, Hd, Hr, Hc, Hi.
  all: repeat split; assumption.
Qed.

Lemma GET_fields (w : World.t) (param p : string) (page : PP.PredefinedPage) :
  PathRoute.decodePath param = Ok p ->
  PP.getPredefinedPageByPath p = Some page ->
  let seo := World.seoPages w !! (PathRoute.siteId, p) in
  let field k := get k (dataOf (fst (PathRoute.GET w param))) in
  status (fst (PathRoute.GET w param)) = 200
  /\ field "slug" = Some (JStr (or_else (seo ≫= SEOPage.slug) (PP.defaultSlug page)))
  /\ field "metaTitle"
     = Some (JStr (or_else (seo ≫= SEOPage.metaTitle) (PP.defaultTitle page)))
  /\ field "metaDescription"
     = Some (JStr (or_else (seo ≫= SEOPage.metaDescription) (PP.defaultDescription page)))
  /\ field "robots" = Some (JStr (or_else (seo ≫= SEOPage.robots) "index,follow"))
  /\ field "pageCategory"
     = Some (JStr (or_else (seo ≫= SEOPage.pageCategory)
                     (PP.categoryName (PP.category page))))
  /\ field "isCustom" = Some (JBool (from_option SEOPage.isCustom false seo))
  /\ field "hasCustomSeo" = Some (JBool (bool_decide (is_Some seo))).
Proof.
  intros Hd Hp seo field. subst field. unfold PathRoute.GET, PathRoute.predefined.
  hstep. rewrite Hd. hstep. rewrite Hp. hstep. unfold SEOPage.findOne. fold seo.
  repeat split; reflexivity.
Qed.

Lemma or_else_stored (old : option SEOPage.doc) (f : SEOPage.doc -> option string)
    (new : option string) (dflt : string) :
  (forall s, new = Some s -> s <> EmptyString ->
     or_else (stored old f new dflt) dflt = s)
  /\ (new = None -> or_else (stored old f new dflt) dflt = or_else (old ≫= f) dflt).
Proof.
  split.
  - intros s -> Hs. destruct old as [rec|]; cbn; destruct s; done.
  - intros ->. destruct old as [rec|]; cbn; [reflexivity|]. destruct dflt; reflexivity.
Qed.

(** X5. *)
Theorem put_then_get (vcs : string -> Security) (now : Z) (user : User)
    (w : World.t) (param : string) (vd : PathRoute.UpdateData) :
  status (fst (PathRoute.PUT vcs now user w param vd)) = 200 ->
  let w' := snd (PathRoute.PUT vcs now user w param vd) in
  let before k := get k (dataOf (fst (PathRoute.GET w param))) in
  let after k := get k (dataOf (fst (PathRoute.GET w' param))) in
  status (fst (PathRoute.GET w' param)) = 200
  /\ after "isCustom" = Some (JBool true)
  /\ after "hasCustomSeo" = Some (JBool true)
  /\ Updated (PathRoute.slug vd) (before "slug") (after "slug")
  /\ Updated (PathRoute.metaTitle vd) (before "metaTitle") (after "metaTitle")
  /\ Updated (PathRoute.metaDescription vd) (before "metaDescription")
       (after "metaDescription")
  /\ Updated (PathRoute.robots vd) (before "robots") (after "robots")
  /\ Updated (PathRoute.pageCategory vd) (before "pageCategory") (after "pageCategory").
Proof.
  intros H w' before after.
  destruct (PUT_200 vcs now user w param vd H)
    as (p & page & d' & Hd & Hp & Hw & Hs & Ht & Hm & Hr & Hc & Hi).
  destruct (GET_fields w param p page Hd Hp) as (_ & B1 & B2 & B3 & B4 & B5 & _).
  destruct (GET_fields w' param p page Hd Hp) as (A0 & A1 & A2 & A3 & A4 & A5 & A6 & A7).
  fold w' in Hw. rewrite Hw, lookup_insert_eq in A1, A2, A3, A4, A5, A6, A7.
  cbn [mbind option_bind from_option] in A1, A2, A3, A4, A5, A6, A7.
  rewrite Hs in A1. rewrite Ht in A2. rewrite Hm in A3. rewrite Hr in A4.
  rewrite Hc in A5. rewrite Hi in A6.
  subst before after. cbv beta.
  split; [exact A0|]. split; [exact A6|].
  split; [rewrite A7; do 2 f_equal; apply bool_decide_eq_true; eexists; reflexivity|].
  rewrite A1, A2, A3, A4, A5, B1, B2, B3, B4, B5.
  repeat split.
  all: try (intros s E Hne; do 2 f_equal; exact (proj1 (or_else_stored _ _ _ _) s E Hne)).
  all: intros E; do 2 f_equal; exact (proj2 (or_else_stored _ _ _ _) E).
Qed.

Lemma put_then_get_witness :
  get "slug" (dataOf (fst (PathRoute.GET Scenario.customAbout "about")))
  = Some (JStr "about-x").
Proof.
  assert (H : status (fst (PathRoute.PUT Scenario.acceptAll 10 Scenario.admin
                             Scenario.emptyWorld "about" Scenario.backToX)) = 200)
    by (vm_compute; reflexivity).
  destruct (put_then_get Scenario.acceptAll 10 Scenario.admin Scenario.emptyWorld
              "about" Scenario.backToX H) as (_ & _ & _ & [Hs _] & _).
  apply (Hs "about-x"); [reflexivity|discriminate].
Defined.

(** ** The listing: pages, order and rows *)

Lemma insertByPath_Permutation cmp (v : PagesRoute.PageView) (l : list PagesRoute.PageView) :
  PagesRoute.insertByPath cmp v l ≡ₚ v :: l.
Proof.
  induction l as [|u l IH]; cbn; [reflexivity|].
  destruct (cmp _ _ <=? 0)%Z; [reflexivity|].
  rewrite IH. apply Permutation_swap.
Qed.

Lemma sortByPath_Permutation cmp (l : list PagesRoute.PageView) :
  PagesRoute.sortByPath cmp l ≡ₚ l.
Proof.
  induction l as [|v l IH]; cbn; [reflexivity|].
  rewrite insertByPath_Permutation. f_equiv. exact IH.
Qed.

Lemma rowsOf_reply (s : json) (rows : list json) (rest : list (string * json)) :
  rowsOf (JObj [("success", s); ("data", JObj (("pages", JArr rows) :: rest))]) = rows.
Proof. reflexivity. Qed.

Lemma paginationOf_reply (s p a b hn hp : json) (t tp : nat) (rest : list (string * json)) :
  let j := JObj [("success", s);
                 ("data", JObj (("pages", p)
                   :: ("pagination", JObj [("page", a); ("limit", b);
                         ("total", JNum (Z.of_nat t));
                         ("totalPages", JNum (Z.of_nat tp));
                         ("hasNext", hn); ("hasPrev", hp)]) :: rest))] in
  paginationOf "total" j = t /\ paginationOf "totalPages" j = tp.
Proof.
  unfold paginationOf. cbn. rewrite !Nat2Z.id. split; reflexivity.
Qed.

Lemma seoPageMap_lookup (c : SEOPage.coll) (site p : string) :
  PagesRoute.seoPageMap (SEOPage.find c site) !! p = c !! (site, p).
Proof.
  unfold PagesRoute.seoPageMap, SEOPage.find.
  set (l := map _ (List.filter _ _)).
  assert (Hin : forall q d, (q, d) ∈ l <-> c !! (site, q) = Some d).
  { intros q d. subst l. rewrite list_elem_of_In, in_map_iff. split.
    - intros ([[s q'] d'] & [= <- <-] & Hf). apply filter_In in Hf as [Hf Hs].
      cbn in Hs. apply String.eqb_eq in Hs. subst s.
      apply list_elem_of_In, elem_of_map_to_list in Hf. exact Hf.
    - intros H. exists ((site, q), d). split; [reflexivity|]. apply filter_In.
      split; [apply list_elem_of_In, elem_of_map_to_list; exact H|].
      cbn. apply String.eqb_refl. }
  assert (Hnd : NoDup l.*1).
  { subst l. rewrite <- list_fmap_compose.
    apply (NoDup_fmap_2_strong _); [|apply NoDup_ListNoDup, List.NoDup_filter, NoDup_ListNoDup, NoDup_map_to_list].
    intros [[s1 q1] d1] [[s2 q2] d2] H1 H2 E. cbn in E. subst q2.
    apply list_elem_of_In, filter_In in H1 as [H1 E1].
    apply list_elem_of_In, filter_In in H2 as [H2 E2].
    cbn in E1, E2. apply String.eqb_eq in E1, E2. subst s1 s2.
    apply list_elem_of_In, elem_of_map_to_list in H1, H2. congruence. }
  apply option_eq. intros d.
  rewrite <- elem_of_list_to_map by (rewrite fmap_reverse, reverse_Permutation; exact Hnd).
  rewrite elem_of_reverse. apply Hin.
Qed.

(** The rows that match a query, in the order of the listing: what the
    listing cuts its pages from. *)
Lemma listing_rows (cmp : string -> string -> Z) (lower : string -> string) (c : SEOPage.coll) (s cat : option string) (ic : option bool)
    (site : string) :
  exists L : list PagesRoute.PageView,
    List.length L <= List.length PP.PREDEFINED_PAGES
    /\ (s = None -> cat = None -> ic = None ->
        L ≡ₚ map (fun page => PagesRoute.compose (c !! (site, PP.path page)) page)
               PP.PREDEFINED_PAGES)
    /\ forall i l,
         let j := PagesRoute.listing cmp lower c (PagesRoute.mkQuery i l s cat ic site) in
         rowsOf j = map PagesRoute.viewJson (take l (drop ((i - 1) * l) L))
         /\ paginationOf "total" j = List.length L
         /\ paginationOf "totalPages" j = PagesRoute.ceilDiv (List.length L) l.
Proof.
  unfold PagesRoute.listing. cbv zeta.
  cbn [PagesRoute.page PagesRoute.limit PagesRoute.search PagesRoute.category
       PagesRoute.isCustom PagesRoute.siteId].
  eexists. split; [|split].
  3:{ intros i l. cbv zeta. rewrite rowsOf_reply. split; [reflexivity|].
      apply paginationOf_reply. }
  - rewrite (Permutation_length (sortByPath_Permutation _ _)).
    set (all := map _ PP.PREDEFINED_PAGES).
    assert (Hall : List.length all = List.length PP.PREDEFINED_PAGES)
      by (subst all; rewrite length_map; reflexivity).
    rewrite <- Hall.
    assert (Hf : forall (f : PagesRoute.PageView -> bool) l,
               List.length (List.filter f l) <= List.length l).
    { intros f l. induction l as [|x l IH]; cbn; [lia|]. destruct (f x); cbn; lia. }
    destruct (truthy s), (truthy cat), ic;
      repeat (etransitivity; [apply Hf|]); lia.
  - intros -> -> ->. cbn [truthy].
    rewrite (sortByPath_Permutation _ _).
    erewrite map_ext; [reflexivity|].
    intros page. cbv beta. rewrite seoPageMap_lookup. reflexivity.
Qed.

Lemma composed_paths (c : SEOPage.coll) (site : string) :
  map PagesRoute.v_path
    (map (fun page => PagesRoute.compose (c !! (site, PP.path page)) page)
       PP.PREDEFINED_PAGES)
  = PP.getAllPredefinedPaths.
Proof. rewrite map_map. reflexivity. Qed.

Lemma chunks_cover {A : Type} (l : nat) :
  forall (k : nat) (L : list A),
    List.length L <= k * l ->
    concat (map (fun i => take l (drop (i * l) L)) (seq 0 k)) = L.
Proof.
  induction k as [|k IH]; intros L HL.
  - destruct L; [reflexivity|cbn in HL; lia].
  - cbn [seq map concat]. rewrite <- seq_shift, map_map. cbn [Nat.mul Nat.add drop].
    transitivity (take l L ++ drop l L); [|apply take_drop]. f_equal.
    etransitivity; [|apply (IH (drop l L)); rewrite length_drop; lia].
    f_equal. apply map_ext. intros i. rewrite drop_drop.
    replace (l + i * l) with (S i * l) by lia. reflexivity.
Qed.

Lemma ceilDiv_covers (n l : nat) : 0 < l -> n <= PagesRoute.ceilDiv n l * l.
Proof.
  intros Hl. unfold PagesRoute.ceilDiv.
  pose proof (Nat.div_mod_eq (n + l - 1) l) as E.
  pose proof (Nat.mod_upper_bound (n + l - 1) l) as B. nia.
Qed.

(** X7. Walking the pages of a listing from the first to the last yields
    every matching row exactly once, in order. *)
Theorem pagination_covers (cmp : string -> string -> Z) (lower : string -> string) (c : SEOPage.coll)
    (q : PagesRoute.QueryParams) :
  0 < PagesRoute.limit q ->
  let rows i := rowsOf (PagesRoute.listing cmp lower c (atPage q i)) in
  let whole :=
    rowsOf (PagesRoute.listing cmp lower c
              (withLimit (atPage q 1) (List.length PP.PREDEFINED_PAGES))) in
  let n := paginationOf "totalPages" (PagesRoute.listing cmp lower c q) in
  concat (map rows (seq 1 n)) = whole
  /\ paginationOf "total" (PagesRoute.listing cmp lower c q) = List.length whole
  /\ (forall i, List.length (rows i) <= PagesRoute.limit q)
  /\ (forall i, n < i -> rows i = []).
Proof.
  destruct q as [pg l s cat ic site]. cbn [PagesRoute.limit]. intros Hl.
  unfold atPage, withLimit.
  cbn [PagesRoute.page PagesRoute.limit PagesRoute.search PagesRoute.category
       PagesRoute.isCustom PagesRoute.siteId].
  destruct (listing_rows cmp lower c s cat ic site) as (L & HL & _ & Hrows).
  assert (Hwhole : rowsOf (PagesRoute.listing cmp lower c
                     (PagesRoute.mkQuery 1 (List.length PP.PREDEFINED_PAGES) s cat ic site))
                   = map PagesRoute.viewJson L).
  { rewrite (proj1 (Hrows 1 _)). cbn [Nat.sub Nat.mul drop].
    rewrite take_ge by exact HL. reflexivity. }
  destruct (Hrows pg l) as (_ & Ht & Htp).
  cbv zeta. rewrite Hwhole, Ht, Htp, length_map.
  split; [|split; [reflexivity|split]].
  - rewrite <- seq_shift, map_map.
    rewrite (map_ext _ (fun i => map PagesRoute.viewJson (take l (drop (i * l) L)))).
    2:{ intros i. rewrite (proj1 (Hrows (S i) l)). do 3 f_equal. lia. }
    rewrite <- (map_map (fun i => take l (drop (i * l) L)) (map PagesRoute.viewJson)).
    rewrite <- concat_map. f_equal. apply chunks_cover. apply ceilDiv_covers. exact Hl.
  - intros i. rewrite (proj1 (Hrows i l)), length_map, length_take. lia.
  - intros i Hi. rewrite (proj1 (Hrows i l)).
    rewrite drop_ge; [rewrite take_nil; reflexivity|].
    pose proof (ceilDiv_covers (List.length L) l Hl). nia.
Qed.

Lemma rowPath_viewJson (v : PagesRoute.PageView) :
  rowPath (PagesRoute.viewJson v) = PagesRoute.v_path v.
Proof. reflexivity. Qed.

(** X6. Whatever the store holds, the unfiltered listing has exactly one
    row per catalog page. *)
Theorem listing_lists_catalog (cmp : string -> string -> Z) (lower : string -> string) (c : SEOPage.coll)
    (site : string) (lim : nat) :
  List.length PP.PREDEFINED_PAGES <= lim ->
  let j := PagesRoute.listing cmp lower c (PagesRoute.mkQuery 1 lim None None None site) in
  map rowPath (rowsOf j) ≡ₚ PP.getAllPredefinedPaths
  /\ paginationOf "total" j = List.length PP.PREDEFINED_PAGES.
Proof.
  intros Hlim.
  destruct (listing_rows cmp lower c None None None site) as (L & HL & HP & Hrows).
  specialize (HP eq_refl eq_refl eq_refl).
  apply (Permutation_map PagesRoute.v_path) in HP. rewrite composed_paths in HP.
  destruct (Hrows 1 lim) as (Hr & Ht & _). cbv zeta. rewrite Hr, Ht.
  cbn [Nat.sub Nat.mul drop]. rewrite take_ge by (etransitivity; eassumption).
  rewrite map_map, (map_ext _ PagesRoute.v_path) by apply rowPath_viewJson.
  split; [exact HP|].
  rewrite <- (length_map PagesRoute.v_path L), (Permutation_length HP).
  unfold PP.getAllPredefinedPaths. apply length_map.
Qed.

Lemma pagination_covers_witness :
  let q := PagesRoute.mkQuery 1 10 None None None Scenario.site in
  paginationOf "total"
    (PagesRoute.listing Scenario.byteOrder toLowerCase (World.seoPages Scenario.seeded) q)
  = List.length
      (rowsOf (PagesRoute.listing Scenario.byteOrder toLowerCase (World.seoPages Scenario.seeded)
                 (withLimit (atPage q 1) (List.length PP.PREDEFINED_PAGES)))).
Proof.
  intros q.
  apply (pagination_covers Scenario.byteOrder toLowerCase (World.seoPages Scenario.seeded) q).
  cbn. lia.
Defined.

Lemma listing_lists_catalog_witness :
  map rowPath
    (rowsOf (PagesRoute.listing Scenario.byteOrder toLowerCase (World.seoPages Scenario.customAbout)
               Scenario.everything))
  ≡ₚ PP.getAllPredefinedPaths.
Proof.
  apply (listing_lists_catalog Scenario.byteOrder toLowerCase (World.seoPages Scenario.customAbout)
           Scenario.site 100).
  vm_compute. lia.
Defined.

(** X24. The unfiltered listing of the site has, for every catalog page, a
    row that shows what GetPage answers for the page. *)
Theorem listing_agrees_with_GetPage (cmp : string -> string -> Z) (lower : string -> string) (w : World.t)
    (lim : nat) (page : PP.PredefinedPage) :
  List.length PP.PREDEFINED_PAGES <= lim ->
  In page PP.PREDEFINED_PAGES ->
  exists row,
    In row (rowsOf (PagesRoute.listing cmp lower (World.seoPages w)
                      (PagesRoute.mkQuery 1 lim None None None PathRoute.siteId)))
    /\ Forall
         (fun key => get key row
                     = get key (dataOf (fst (PathRoute.GET w (PP.path page)))))
         ["path"; "slug"; "metaTitle"; "metaDescription"; "isCustom"; "pageCategory";
          "updatedAt"; "hasCustomSeo"].
Proof.
  intros Hlim Hin.
  destruct (listing_rows cmp lower (World.seoPages w) None None None PathRoute.siteId)
    as (L & HL & HP & Hrows).
  specialize (HP eq_refl eq_refl eq_refl).
  destruct (Hrows 1 lim) as (Hr & _). cbv zeta in Hr. rewrite Hr.
  cbn [Nat.sub Nat.mul drop]. rewrite take_ge by (etransitivity; eassumption).
  set (seo := World.seoPages w !! (PathRoute.siteId, PP.path page)).
  exists (PagesRoute.viewJson (PagesRoute.compose seo page)). split.
  - apply in_map. apply list_elem_of_In. rewrite HP. apply list_elem_of_In.
    apply (in_map (fun pg => PagesRoute.compose
                               (World.seoPages w !! (PathRoute.siteId, PP.path pg)) pg)).
    exact Hin.
  - destruct (catalog_page page Hin) as (Hd & _ & Hp).
    unfold PathRoute.GET, PathRoute.predefined. hstep. rewrite Hd. hstep. rewrite Hp. hstep.
    unfold SEOPage.findOne. fold seo. repeat constructor.
Qed.

Lemma listing_agrees_with_GetPage_witness :
  exists row,
    In row (rowsOf (PagesRoute.listing Scenario.byteOrder toLowerCase
                      (World.seoPages Scenario.customAbout) Scenario.everything))
    /\ get "slug" row = Some (JStr "about-x").
Proof.
  destruct (listing_agrees_with_GetPage Scenario.byteOrder toLowerCase Scenario.customAbout 100
              Scenario.aboutPage) as (row & Hin & Hall).
  - vm_compute. lia.
  - exact aboutPage_in.
  - exists row. split; [exact Hin|].
    apply Forall_cons in Hall as [_ Hall]. apply Forall_cons in Hall as [Hslug _].
    rewrite Hslug. vm_compute. reflexivity.
Defined.

Lemma insertByPath_Sorted (cmp : string -> string -> Z) (v : PagesRoute.PageView)
    (l : list PagesRoute.PageView) :
  (forall a b, (cmp a b <= 0)%Z \/ (cmp b a <= 0)%Z) ->
  Sorted (byPath cmp) l -> Sorted (byPath cmp) (PagesRoute.insertByPath cmp v l).
Proof.
  intros cmp_total. induction 1 as [|u l Hs IH Hhd]; cbn [PagesRoute.insertByPath].
  - repeat constructor.
  - destruct (Z.leb_spec (cmp (PagesRoute.v_path v) (PagesRoute.v_path u)) 0) as [Hle|Hgt].
    + constructor; [constructor; assumption|constructor; exact Hle].
    + constructor; [exact IH|].
      assert (Huv : byPath cmp u v) by (destruct (cmp_total (PagesRoute.v_path u) (PagesRoute.v_path v)); [assumption|lia]).
      destruct l as [|x l]; cbn [PagesRoute.insertByPath]; [constructor; exact Huv|].
      destruct (cmp (PagesRoute.v_path v) (PagesRoute.v_path x) <=? 0)%Z;
        constructor; [exact Huv|]. inversion Hhd; assumption.
Qed.

Lemma sortByPath_Sorted (cmp : string -> string -> Z) (l : list PagesRoute.PageView) :
  (forall a b, (cmp a b <= 0)%Z \/ (cmp b a <= 0)%Z) ->
  Sorted (byPath cmp) (PagesRoute.sortByPath cmp l).
Proof.
  intros cmp_total. induction l as [|v l IH]; cbn; [constructor|].
  apply insertByPath_Sorted; [exact cmp_total|exact IH].
Qed.

Lemma Sorted_drop {A : Type} (R : A -> A -> Prop) (n : nat) :
  forall l, Sorted R l -> Sorted R (drop n l).
Proof.
  induction n as [|n IH]; intros l Hl; [exact Hl|].
  destruct l as [|x l]; [constructor|]. cbn. apply IH. inversion Hl; assumption.
Qed.

Lemma Sorted_take {A : Type} (R : A -> A -> Prop) (n : nat) :
  forall l, Sorted R l -> Sorted R (take n l).
Proof.
  induction n as [|n IH]; intros l Hl; [constructor|].
  destruct l as [|x l]; [constructor|]. cbn. inversion Hl as [|? ? Hs Hhd]; subst.
  constructor; [apply IH; exact Hs|].
  destruct l as [|y l]; [destruct n; constructor|]. cbn. inversion Hhd; subst.
  destruct n; constructor. assumption.
Qed.

Lemma Sorted_map {A B : Type} (R : A -> A -> Prop) (S : B -> B -> Prop) (f : A -> B) :
  (forall a b, R a b -> S (f a) (f b)) ->
  forall l, Sorted R l -> Sorted S (map f l).
Proof.
  intros Hf. induction 1 as [|x l Hs IH Hhd]; cbn; constructor; [exact IH|].
  destruct Hhd; constructor. apply Hf. assumption.
Qed.

Lemma byteOrder_total (a b : string) :
  (Scenario.byteOrder a b <= 0)%Z \/ (Scenario.byteOrder b a <= 0)%Z.
Proof.
  unfold Scenario.byteOrder. rewrite (String.compare_antisym b a).
  destruct (String.compare a b); cbn; lia.
Qed.

(** X8. Under a total comparator the rows of every page of the listing
    are in ascending order of their paths. *)
Theorem listing_rows_sorted (cmp : string -> string -> Z) (lower : string -> string) (c : SEOPage.coll)
    (q : PagesRoute.QueryParams) :
  (forall a b, (cmp a b <= 0)%Z \/ (cmp b a <= 0)%Z) ->
  Sorted (fun a b => (cmp a b <= 0)%Z)
    (map rowPath (rowsOf (PagesRoute.listing cmp lower c q))).
Proof.
  intros Htotal. unfold PagesRoute.listing. cbv zeta. rewrite rowsOf_reply.
  rewrite map_map.
  apply (Sorted_map (byPath cmp)); [intros u v H; exact H|].
  apply Sorted_take, Sorted_drop, sortByPath_Sorted. exact Htotal.
Qed.

Lemma listing_rows_sorted_witness :
  Sorted (fun a b => (Scenario.byteOrder a b <= 0)%Z)
    (map rowPath
       (rowsOf (PagesRoute.listing Scenario.byteOrder toLowerCase
                  (World.seoPages Scenario.seeded) Scenario.everything))).
Proof.
  apply (listing_rows_sorted Scenario.byteOrder toLowerCase (World.seoPages Scenario.seeded)
           Scenario.everything).
  exact byteOrder_total.
Defined.

Lemma listing_fresh_after_upsert_witness :
  let cached := snd (Scenario.listPages 25 Scenario.customAbout) in
  let written := snd (PagesRoute.POST Scenario.acceptAll 30 Scenario.admin cached
                        Scenario.aboutAsZ) in
  body (fst (Scenario.listPages 40 written)) = body (Scenario.fresh written).
Proof.
  intros cached written.
  apply (listing_fresh_after_upsert Scenario.acceptAll Scenario.hashQuery
           Scenario.cacheHeaders Scenario.byteOrder toLowerCase 30 40 Scenario.admin cached
           Scenario.aboutAsZ false Scenario.everything).
  - reflexivity.
  - vm_compute. reflexivity.
Defined.

(** ** The admin page *)

Lemma count_members (l : list string) :
  NoDup l ->
  forall P : list string,
    NoDup P -> (forall x, x ∈ P -> x ∈ l) ->
    List.length (List.filter (fun x => bool_decide (x ∈ P)) l) = List.length P.
Proof.
  induction 1 as [|x l Hx Hl IH]; intros P HP Hsub.
  - destruct P as [|y P]; [reflexivity|]. exfalso.
    specialize (Hsub y ltac:(left)). inversion Hsub.
  - cbn [List.filter]. destruct (decide (x ∈ P)) as [Hin|Hout].
    + rewrite bool_decide_eq_true_2 by exact Hin. cbn [List.length].
      apply elem_of_Permutation in Hin as [P' HP'].
      rewrite HP' in HP. apply NoDup_cons in HP as [HxP' HP'nd].
      rewrite (Permutation_length HP'). cbn [List.length]. f_equal.
      rewrite <- (IH P' HP'nd).
      * f_equal. apply List.filter_ext_in. intros y Hy. apply list_elem_of_In in Hy.
        apply bool_decide_ext. rewrite HP'. rewrite elem_of_cons. split; [|tauto].
        intros [-> | H]; [contradiction|exact H].
      * intros y Hy. assert (Hyl : y ∈ x :: l) by (apply Hsub; rewrite HP'; right; exact Hy).
        apply elem_of_cons in Hyl as [-> | H]; [contradiction|exact H].
    + rewrite bool_decide_eq_false_2 by exact Hout. apply IH; [exact HP|].
      intros y Hy. assert (Hyl : y ∈ x :: l) by (apply Hsub; exact Hy).
      apply elem_of_cons in Hyl as [-> | H]; [contradiction|exact H].
Qed.

Lemma find_row (p : string) (vs : list PagesRoute.PageView) :
  bool_decide
    (is_Some (List.find (SEOPagesPage.hasPath p) (map PagesRoute.viewJson vs)))
  = bool_decide (p ∈ map PagesRoute.v_path vs).
Proof.
  induction vs as [|v vs IH].
  - cbn. symmetry. apply bool_decide_eq_false. inversion 1.
  - cbn [map List.find].
    change (SEOPagesPage.hasPath p (PagesRoute.viewJson v)) with (PagesRoute.v_path v =? p)%string.
    destruct (String.eqb_spec (PagesRoute.v_path v) p) as [->|Hne].
    + rewrite !bool_decide_eq_true_2; [reflexivity|left|eexists; reflexivity].
    + rewrite IH. apply bool_decide_ext. rewrite elem_of_cons. split; [tauto|].
      intros [E|H]; [congruence|exact H].
Qed.

(** X10. The admin page marks as custom every page for which the listing
    reply has a row, and the listing has a row for a page whether or not
    the page has a record: after loading the first page of the unfiltered
    listing, as many pages are marked custom as the reply has rows. *)
Theorem panel_marks_listed_pages_custom (cmp : string -> string -> Z) (lower : string -> string)
    (c : SEOPage.coll) (site : string) (lim : nat) :
  let reply := PagesRoute.listing cmp lower c (PagesRoute.mkQuery 1 lim None None None site) in
  let merged := SEOPagesPage.mergedPages (rowsOf reply) in
  map SEOPagesPage.path merged = PP.getAllPredefinedPaths
  /\ (forall row, In row merged ->
        SEOPagesPage.isCustom row = bool_decide (SEOPagesPage.path row ∈ map rowPath (rowsOf reply)))
  /\ List.length (List.filter SEOPagesPage.isCustom merged)
     = Nat.min lim (List.length PP.PREDEFINED_PAGES).
Proof.
  intros reply merged.
  destruct (listing_rows cmp lower c None None None site) as (L & HL & HP & Hrows).
  specialize (HP eq_refl eq_refl eq_refl).
  apply (Permutation_map PagesRoute.v_path) in HP. rewrite composed_paths in HP.
  destruct (Hrows 1 lim) as (Hr & _). cbv zeta in Hr. fold reply in Hr.
  cbn [Nat.sub Nat.mul drop] in Hr.
  assert (Hpaths : map rowPath (rowsOf reply) = map PagesRoute.v_path (take lim L)).
  { rewrite Hr, map_map. apply map_ext. intros v. reflexivity. }
  assert (Hcustom : forall page,
            bool_decide
              (is_Some (List.find (SEOPagesPage.hasPath (PP.path page)) (rowsOf reply)))
            = bool_decide (PP.path page ∈ map rowPath (rowsOf reply))).
  { intros page. rewrite Hpaths, Hr. apply find_row. }
  split; [|split].
  - subst merged. unfold SEOPagesPage.mergedPages. rewrite map_map. reflexivity.
  - intros row Hin. subst merged. unfold SEOPagesPage.mergedPages in Hin.
    apply in_map_iff in Hin as (page & <- & _). cbn [SEOPagesPage.isCustom SEOPagesPage.path].
    apply Hcustom.
  - subst merged. unfold SEOPagesPage.mergedPages.
    transitivity (List.length
                    (List.filter (fun x => bool_decide (x ∈ map rowPath (rowsOf reply)))
                       (map PP.path PP.PREDEFINED_PAGES))).
    { generalize PP.PREDEFINED_PAGES. intros pages.
      induction pages as [|page pages IH]; [reflexivity|].
      cbn [map List.filter SEOPagesPage.isCustom]. rewrite Hcustom.
      destruct (bool_decide _); cbn [List.length]; congruence. }
    assert (HLnd : NoDup (map PagesRoute.v_path L)) by (rewrite HP; exact paths_NoDup).
    assert (Hlen : List.length L = List.length PP.PREDEFINED_PAGES).
    { rewrite <- (length_map PagesRoute.v_path L), (Permutation_length HP).
      apply length_map. }
    rewrite count_members.
    + rewrite Hpaths, length_map, length_take, Hlen. reflexivity.
    + exact paths_NoDup.
    + rewrite Hpaths, <- firstn_map.
      eapply sublist_NoDup; [exact HLnd|apply sublist_take].
    + intros x Hx. rewrite Hpaths, <- firstn_map in Hx.
      change (map PP.path PP.PREDEFINED_PAGES) with PP.getAllPredefinedPaths.
      rewrite <- HP. eapply elem_of_sublist; [exact Hx|apply sublist_take].
Qed.

(** ** Seeding *)

Lemma hasStatus_outcome (st : string) (entry : json) :
  SeedRoute.hasStatus st entry = bool_decide (seedOutcome entry = Some st).
Proof.
  unfold SeedRoute.hasStatus, seedOutcome.
  destruct (get "status" entry) as [[| | |s| |]|]; try reflexivity.
  destruct (String.eqb_spec s st) as [->|Hne].
  - symmetry. apply bool_decide_eq_true. reflexivity.
  - symmetry. apply bool_decide_eq_false. congruence.
Qed.

Lemma slugFree_subseteq (c c' : SEOPage.coll) (site : string) (s : option string)
    (p : string) :
  c ⊆ c' -> slugFree c' site s p -> slugFree c site s p.
Proof.
  intros Hsub Hfree q d Hq. apply Hfree. eapply lookup_weaken; eassumption.
Qed.

(** The three ways a seeding step can go. *)
Lemma seedStep_cases (now : Z) (user : User) (w : World.t) (page : PP.PredefinedPage) :
  let r := fst (SeedRoute.seedStep now user w page) in
  let c := World.seoPages w in
  let c' := World.seoPages (snd (SeedRoute.seedStep now user w page)) in
  (seedOutcome r = Some "skipped" /\ is_Some (c !! seedKey page) /\ c' = c)
  \/ (seedOutcome r = Some "created" /\ c !! seedKey page = None
      /\ slugFree c SeedRoute.siteId (Some (PP.defaultSlug page)) (PP.path page)
      /\ exists d, c' = <[seedKey page := d]> c /\ SEOPage.isCustom d = false)
  \/ (seedOutcome r = Some "error" /\ c !! seedKey page = None /\ c' = c
      /\ ~ slugFree c SeedRoute.siteId (Some (PP.defaultSlug page)) (PP.path page)).
Proof.
  unfold SeedRoute.seedStep, SEOPage.findOne, seedKey. cbv zeta.
  destruct (World.seoPages w !! (SeedRoute.siteId, PP.path page)) as [d|] eqn:Hrec.
  - left. cbn. eauto.
  - right. cbn [World.freshId].
    destruct (SEOPage.save _ _ _ _ _) as [[saved pages]|msg] eqn:Hsave.
    + left. cbn. split; [reflexivity|]. split; [reflexivity|].
      unfold SEOPage.save in Hsave. cbn [World.seoPages SEOPage.slug] in Hsave.
      destruct (List.find _ _) eqn:Hfind; [discriminate|]. rewrite Hrec in Hsave.
      injection Hsave as <- <-.
      split; [apply find_usesSlug_None; exact Hfind|].
      eexists. split; reflexivity.
    + right. cbn. split; [reflexivity|]. split; [reflexivity|]. split; [reflexivity|].
      intros Hfree. apply find_usesSlug_None in Hfree.
      unfold SEOPage.save in Hsave. cbn [World.seoPages SEOPage.slug] in Hsave.
      rewrite Hfree in Hsave. discriminate.
Qed.

Lemma seedStep_frame (now : Z) (user : User) (w : World.t) (page : PP.PredefinedPage) :
  let w' := snd (SeedRoute.seedStep now user w page) in
  World.redirects w' = World.redirects w
  /\ World.cache w' = World.cache w
  /\ World.auditLogs w' = World.auditLogs w.
Proof.
  unfold SeedRoute.seedStep. cbv zeta.
  destruct (SEOPage.findOne _ _ _); [done|]. cbn [World.freshId].
  destruct (SEOPage.save _ _ _ _ _) as [[saved pages]|msg]; done.
Qed.

(** A seeding run over pages with distinct paths. *)
Lemma seed_run (now : Z) (user : User) (pages : list PP.PredefinedPage) :
  NoDup (map PP.path pages) ->
  forall w,
    let rs := fst (Bulk.forEach (SeedRoute.seedStep now user) pages w) in
    let w' := snd (Bulk.forEach (SeedRoute.seedStep now user) pages w) in
    World.seoPages w ⊆ World.seoPages w'
    /\ (forall k, World.seoPages w !! k = None ->
                  (forall page, In page pages -> k <> seedKey page) ->
                  World.seoPages w' !! k = None)
    /\ Forall2 (Seeded (World.seoPages w) (World.seoPages w')) pages rs
    /\ World.redirects w' = World.redirects w
    /\ World.cache w' = World.cache w
    /\ World.auditLogs w' = World.auditLogs w.
Proof.
  induction pages as [|page pages IH]; intros Hnd w.
  - cbn. repeat split; try done.
  - rewrite forEach_cons. cbn [fst snd].
    apply NoDup_cons in Hnd as [Hnotin Hnd].
    specialize (IH Hnd (snd (SeedRoute.seedStep now user w page))).
    destruct IH as (Hsub & Hnew & Hall & Hr & Hc & Ha).
    destruct (seedStep_frame now user w page) as (Hr1 & Hc1 & Ha1).
    set (w1 := snd (SeedRoute.seedStep now user w page)) in *.
    set (w' := snd (Bulk.forEach (SeedRoute.seedStep now user) pages w1)) in *.
    assert (Hother : forall pg, In pg pages -> seedKey pg <> seedKey page).
    { intros pg Hin [= E]. apply Hnotin. rewrite <- E.
      apply list_elem_of_In, in_map, Hin. }
    assert (Hstep :
      World.seoPages w ⊆ World.seoPages w1
      /\ (forall k, k <> seedKey page -> World.seoPages w1 !! k = World.seoPages w !! k)).
    { destruct (seedStep_cases now user w page)
        as [(_ & _ & E) | [(_ & Hnone & _ & d & E & _) | (_ & _ & E & _)]];
        fold w1 in E; rewrite E.
      - done.
      - split; [apply insert_subseteq; exact Hnone|].
        intros k Hk. apply lookup_insert_ne. congruence.
      - done. }
    destruct Hstep as [Hsub1 Hsame].
    split; [etransitivity; eassumption|].
    split.
    { intros k Hk Hout. apply Hnew.
      - rewrite Hsame; [exact Hk|]. apply Hout. left. reflexivity.
      - intros pg Hin. apply Hout. right. exact Hin. }
    split; [|repeat split; congruence].
    constructor.
    + destruct (seedStep_cases now user w page)
        as [(Ho & Hsome & E) | [(Ho & Hnone & _ & d & E & _) | (Ho & Hnone & E & Hconf)]];
        fold w1 in E.
      * left. done.
      * right. left. split; [exact Ho|]. split; [exact Hnone|].
        exists d. eapply lookup_weaken; [|exact Hsub]. rewrite E. apply lookup_insert_eq.
      * right. right. split; [exact Ho|]. split; [exact Hnone|]. split.
        -- apply Hnew; [rewrite E; exact Hnone|].
           intros pg Hin Heq. exact (Hother pg Hin (eq_sym Heq)).
        -- intros Hfree. apply Hconf. rewrite <- E.
           eapply slugFree_subseteq; eassumption.
    + apply Forall2_same_length_lookup in Hall as [Hlen Hall].
      apply Forall2_same_length_lookup. split; [exact Hlen|].
      intros i pg r Hpg Hrs. specialize (Hall i pg r Hpg Hrs).
      assert (Hin : In pg pages)
        by (apply list_elem_of_In; eapply list_elem_of_lookup_2; exact Hpg).
      unfold Seeded in *. rewrite <- (Hsame (seedKey pg)) by (apply Hother, Hin).
      exact Hall.
Qed.

Lemma seed_POST_eq (now : Z) (user : User) (w : World.t) :
  let run := Bulk.forEach (SeedRoute.seedStep now user) PP.PREDEFINED_PAGES w in
  let r := fst (SeedRoute.POST now user w) in
  let tally st := Z.of_nat (List.length (List.filter (SeedRoute.hasStatus st) (fst run))) in
  snd (SeedRoute.POST now user w) = snd run
  /\ get "created" (summaryOf r) = Some (JNum (tally "created"))
  /\ get "skipped" (summaryOf r) = Some (JNum (tally "skipped"))
  /\ get "errors" (summaryOf r) = Some (JNum (tally "error")).
Proof.
  unfold SeedRoute.POST.
  destruct (Bulk.forEach _ _ _) as [rs w']. repeat split; reflexivity.
Qed.

Lemma filter_count {A B : Type} (P : A -> B -> Prop) (f : A -> bool) (g : B -> bool)
    (l : list A) (k : list B) :
  (forall a b, P a b -> f a = g b) ->
  Forall2 P l k ->
  List.length (List.filter f l) = List.length (List.filter g k).
Proof.
  intros Hfg. induction 1 as [|a b l k Hab _ IH]; [reflexivity|].
  cbn. rewrite (Hfg a b Hab). destruct (g b); cbn; congruence.
Qed.

Lemma paths_NoDup_pages : NoDup (map PP.path PP.PREDEFINED_PAGES).
Proof. exact paths_NoDup. Qed.

(** X14. Seeding never alters or removes a record; the records it adds are
    those of catalog pages; redirects, cache and audit trail stay as they
    are. *)
Theorem seeding_keeps_records (now : Z) (user : User) (w : World.t) :
  let w' := snd (SeedRoute.POST now user w) in
  (forall k d, World.seoPages w !! k = Some d -> World.seoPages w' !! k = Some d)
  /\ (forall k, is_Some (World.seoPages w' !! k) ->
        is_Some (World.seoPages w !! k)
        \/ exists page, In page PP.PREDEFINED_PAGES
                        /\ k = (SeedRoute.siteId, PP.path page))
  /\ World.redirects w' = World.redirects w
  /\ World.cache w' = World.cache w
  /\ World.auditLogs w' = World.auditLogs w.
Proof.
  intros w'. subst w'. rewrite (proj1 (seed_POST_eq now user w)).
  destruct (seed_run now user PP.PREDEFINED_PAGES paths_NoDup_pages w)
    as (Hsub & Hnew & _ & Hr & Hc & Ha).
  split; [intros k d Hk; eapply lookup_weaken; eassumption|].
  split; [|auto].
  intros k Hk. destruct (World.seoPages w !! k) as [d|] eqn:Hold; [left; eauto|].
  right.
  destruct (List.find (fun page => bool_decide (k = seedKey page)) PP.PREDEFINED_PAGES)
    as [page|] eqn:Hfind.
  - apply find_some in Hfind as [Hin Heq]. apply bool_decide_eq_true in Heq.
    exists page. split; [exact Hin|exact Heq].
  - exfalso. rewrite Hnew in Hk; [destruct Hk; discriminate|exact Hold|].
    intros page Hin ->. pose proof (find_none _ _ Hfind page Hin) as Hno.
    apply bool_decide_eq_false in Hno. done.
Qed.

Lemma outcome_tally (c c' : SEOPage.coll) (pages : list PP.PredefinedPage)
    (rs : list json) :
  Forall2 (Seeded c c') pages rs ->
  List.length (List.filter (SeedRoute.hasStatus "created") rs)
  + List.length (List.filter (SeedRoute.hasStatus "skipped") rs)
  + List.length (List.filter (SeedRoute.hasStatus "error") rs)
  = List.length rs.
Proof.
  induction 1 as [|page entry pages rs Hone _ IH]; [reflexivity|].
  cbn [List.filter List.length]. rewrite !hasStatus_outcome.
  destruct Hone as [[-> _] | [[-> _] | [-> _]]];
    repeat match goal with
           | |- context [bool_decide ?P] =>
               let b := eval vm_compute in (bool_decide P) in
               change (bool_decide P) with b
           end;
    cbn [List.length]; lia.
Qed.

(** X15. The summary of a seeding run accounts for every catalog page once:
    created, skipped and errors add up to the size of the catalog, and
    the skipped pages are those that had a record before the run. *)
Theorem seeding_tally (now : Z) (user : User) (w : World.t) :
  let r := fst (SeedRoute.POST now user w) in
  exists created skipped errors : nat,
    get "created" (summaryOf r) = Some (JNum (Z.of_nat created))
    /\ get "skipped" (summaryOf r) = Some (JNum (Z.of_nat skipped))
    /\ get "errors" (summaryOf r) = Some (JNum (Z.of_nat errors))
    /\ created + skipped + errors = List.length PP.PREDEFINED_PAGES
    /\ skipped
       = List.length
           (List.filter
              (fun page =>
                 bool_decide (is_Some (SEOPage.findOne (World.seoPages w)
                                         SeedRoute.siteId (PP.path page))))
              PP.PREDEFINED_PAGES).
Proof.
  intros r. destruct (seed_POST_eq now user w) as (_ & Hc & Hs & He).
  fold r in Hc, Hs, He.
  destruct (seed_run now user PP.PREDEFINED_PAGES paths_NoDup_pages w)
    as (_ & _ & Hall & _).
  set (rs := fst (Bulk.forEach _ _ _)) in *.
  set (c' := World.seoPages (snd (Bulk.forEach _ _ _))) in *.
  eexists _, _, _. split; [exact Hc|]. split; [exact Hs|]. split; [exact He|].
  split.
  - rewrite (Forall2_length _ _ _ Hall). exact (outcome_tally _ _ _ _ Hall).
  - symmetry. apply (filter_count (Seeded (World.seoPages w) c')); [|exact Hall].
    intros page entry Hone. rewrite hasStatus_outcome. unfold SEOPage.findOne.
    fold (seedKey page).
    destruct Hone as [[-> Hsome] | [(-> & Hnone & _) | (-> & Hnone & _)]].
    + rewrite bool_decide_eq_true_2 by exact Hsome. reflexivity.
    + rewrite Hnone. reflexivity.
    + rewrite Hnone. reflexivity.
Qed.

Lemma seed_settled (now : Z) (user : User) (pages : list PP.PredefinedPage) :
  forall w,
    Forall (Settled (World.seoPages w)) pages ->
    World.seoPages (snd (Bulk.forEach (SeedRoute.seedStep now user) pages w))
    = World.seoPages w
    /\ List.filter (SeedRoute.hasStatus "created")
         (fst (Bulk.forEach (SeedRoute.seedStep now user) pages w)) = [].
Proof.
  induction pages as [|page pages IH]; intros w Hall; [done|].
  rewrite forEach_cons. cbn [fst snd]. apply Forall_cons in Hall as [Hpage Hall].
  assert (Hstep : World.seoPages (snd (SeedRoute.seedStep now user w page))
                  = World.seoPages w
                  /\ SeedRoute.hasStatus "created"
                       (fst (SeedRoute.seedStep now user w page)) = false).
  { rewrite hasStatus_outcome.
    destruct (seedStep_cases now user w page)
      as [(-> & _ & E) | [(_ & Hnone & Hfree & _) | (-> & _ & E & _)]].
    - done.
    - destruct Hpage as [[d Hd]|Hconf]; [congruence|contradiction].
    - done. }
  destruct Hstep as [E Hno]. cbn [List.filter]. rewrite Hno.
  rewrite <- E in Hall. destruct (IH _ Hall) as [E' Hnil].
  split; [congruence|exact Hnil].
Qed.

Lemma Seeded_Settled (c c' : SEOPage.coll) (pages : list PP.PredefinedPage)
    (rs : list json) :
  c ⊆ c' -> Forall2 (Seeded c c') pages rs -> Forall (Settled c') pages.
Proof.
  intros Hsub. induction 1 as [|page entry pages rs Hone _ IH]; constructor; [|exact IH].
  destruct Hone as [[_ [d Hd]] | [(_ & _ & Hsome) | (_ & _ & _ & Hconf)]].
  - left. exists d. eapply lookup_weaken; eassumption.
  - left. exact Hsome.
  - right. exact Hconf.
Qed.

(** X16. Seeding a second time adds nothing. *)
Theorem seeding_twice_adds_nothing (now now' : Z) (user user' : User) (w : World.t) :
  let w1 := snd (SeedRoute.POST now user w) in
  let second := SeedRoute.POST now' user' w1 in
  World.seoPages (snd second) = World.seoPages w1
  /\ get "created" (summaryOf (fst second)) = Some (JNum 0).
Proof.
  intros w1 second.
  destruct (seed_POST_eq now' user' w1) as (Hw & Hc & _). fold second in Hw, Hc.
  assert (Hall : Forall (Settled (World.seoPages w1)) PP.PREDEFINED_PAGES).
  { subst w1. rewrite (proj1 (seed_POST_eq now user w)).
    destruct (seed_run now user PP.PREDEFINED_PAGES paths_NoDup_pages w)
      as (Hsub & _ & Hall & _).
    eapply Seeded_Settled; eassumption. }
  destruct (seed_settled now' user' PP.PREDEFINED_PAGES w1 Hall) as [Hstore Hnone].
  rewrite Hw, Hc, Hnone. split; [exact Hstore|reflexivity].
Qed.

Lemma status_reply (t s u cu df pr cs ss ns rc : json) :
  let r := respond 200 (JObj [
             ("success", JBool true);
             ("data", JObj [
                ("summary", JObj [
                   ("totalPredefinedPages", t); ("seededPages", s); ("unseededPages", u);
                   ("customPages", cu); ("defaultPages", df); ("seedingProgress", pr)]);
                ("categoryStats", cs); ("seedingStatus", ss); ("needsSeeding", ns);
                ("recommendations", rc)])]) in
  get "unseededPages" (summaryOf r) = Some u
  /\ get "seededPages" (summaryOf r) = Some s
  /\ get "needsSeeding" (dataOf r) = Some ns.
Proof. repeat split; reflexivity. Qed.

Lemma filter_split_length {A : Type} (f : A -> bool) (l : list A) :
  List.length (List.filter f l)
  = List.length l - List.length (List.filter (fun x => negb (f x)) l).
Proof.
  assert (H : List.length (List.filter f l)
              + List.length (List.filter (fun x => negb (f x)) l) = List.length l).
  { induction l as [|x l IH]; [reflexivity|]. cbn [List.filter].
    destruct (f x); cbn [negb List.length]; lia. }
  lia.
Qed.

Lemma seed_GET_eq (w : World.t) :
  let r := fst (SeedRoute.GET w) in
  let missing :=
    List.length
      (List.filter
         (fun page => negb (bool_decide (is_Some (World.seoPages w !! seedKey page))))
         PP.PREDEFINED_PAGES) in
  get "unseededPages" (summaryOf r) = Some (JNum (Z.of_nat missing))
  /\ get "seededPages" (summaryOf r)
     = Some (JNum (Z.of_nat (List.length PP.PREDEFINED_PAGES - missing)))
  /\ get "needsSeeding" (dataOf r) = Some (JBool (0 <? missing)%nat)
  /\ snd (SeedRoute.GET w) = w.
Proof.
  unfold SeedRoute.GET.
  set (st := map _ PP.PREDEFINED_PAGES).
  assert (Hun : List.length (List.filter (fun p => negb (SeedRoute.isSeeded p)) st)
                = List.length
                    (List.filter
                       (fun page =>
                          negb (bool_decide (is_Some (World.seoPages w !! seedKey page))))
                       PP.PREDEFINED_PAGES)).
  { subst st. generalize PP.PREDEFINED_PAGES. intros l.
    induction l as [|page l IH]; [reflexivity|].
    cbn [map List.filter SeedRoute.isSeeded]. rewrite seoPageMap_lookup.
    fold (seedKey page). destruct (negb _); cbn [List.length]; congruence. }
  assert (Hlen : List.length st = List.length PP.PREDEFINED_PAGES)
    by (subst st; apply length_map).
  cbv zeta. cbv beta iota delta [fst snd].
  match goal with
  | |- context [respond 200 (JObj [("success", JBool true);
                  ("data", JObj [("summary", JObj [("totalPredefinedPages", ?t);
                     ("seededPages", ?s); ("unseededPages", ?u); ("customPages", ?cu);
                     ("defaultPages", ?df); ("seedingProgress", ?pr)]);
                   ("categoryStats", ?cs); ("seedingStatus", ?ss); ("needsSeeding", ?ns);
                   ("recommendations", ?rc)])])] =>
      destruct (status_reply t s u cu df pr cs ss ns rc) as (-> & -> & ->)
  end.
  rewrite (filter_split_length SeedRoute.isSeeded st), Hlen, Hun.
  clear Hun Hlen. clearbody st.
  split; [|split; [|split]]; reflexivity.
Qed.

(** X17. The status endpoint, asked after a seeding run, reports as
    unseeded exactly the pages for which the run reported an error. *)
Theorem status_after_seeding (now : Z) (user : User) (w : World.t) :
  let first := SeedRoute.POST now user w in
  let st := fst (SeedRoute.GET (snd first)) in
  get "unseededPages" (summaryOf st) = get "errors" (summaryOf (fst first))
  /\ (get "needsSeeding" (dataOf st) = Some (JBool false)
      <-> get "errors" (summaryOf (fst first)) = Some (JNum 0)).
Proof.
  intros first st.
  destruct (seed_POST_eq now user w) as (Hw & _ & _ & He). fold first in Hw, He.
  destruct (seed_GET_eq (snd first)) as (Hun & _ & Hneeds & _). fold st in Hun, Hneeds.
  destruct (seed_run now user PP.PREDEFINED_PAGES paths_NoDup_pages w)
    as (Hsub & _ & Hall & _).
  rewrite <- Hw in Hsub, Hall.
  assert (Hcount :
    List.length
      (List.filter
         (fun page =>
            negb (bool_decide (is_Some (World.seoPages (snd first) !! seedKey page))))
         PP.PREDEFINED_PAGES)
    = List.length
        (List.filter (SeedRoute.hasStatus "error")
           (fst (Bulk.forEach (SeedRoute.seedStep now user) PP.PREDEFINED_PAGES w)))).
  { apply (filter_count (Seeded (World.seoPages w) (World.seoPages (snd first))));
      [|exact Hall].
    intros page entry Hone. rewrite hasStatus_outcome.
    destruct Hone as [[-> [d Hd]] | [(-> & _ & Hsome) | (-> & _ & Hnone & _)]].
    - rewrite bool_decide_eq_true_2 by (exists d; eapply lookup_weaken; eassumption).
      reflexivity.
    - rewrite bool_decide_eq_true_2 by exact Hsome. reflexivity.
    - rewrite Hnone. reflexivity. }
  rewrite Hun, Hneeds, He, Hcount. split; [reflexivity|].
  generalize (List.length
                (List.filter (SeedRoute.hasStatus "error")
                   (fst (Bulk.forEach (SeedRoute.seedStep now user)
                           PP.PREDEFINED_PAGES w)))).
  clear. intros n. split; intros H.
  - assert (Hn : (0 <? n)%nat = false) by congruence.
    apply Nat.ltb_ge in Hn. do 2 f_equal. lia.
  - injection H as H. apply (Nat2Z.inj n 0) in H. subst n. reflexivity.
Qed.

(** ** Deleting redirects *)

(** X18. The bulk deletion of redirects removes the redirects of the named
    site whose id is listed and nothing else; a list that is missing,
    empty or longer than fifty is refused with nothing removed. *)
Theorem redirects_DELETE_scoped (w : World.t) (body : RedirectsRoute.DeleteBody) :
  let r := fst (RedirectsRoute.DELETE w body) in
  let w' := snd (RedirectsRoute.DELETE w body) in
  let site := default "altiorainfotech" (RedirectsRoute.d_siteId body) in
  let ids := default [] (RedirectsRoute.redirectIds body) in
  (status r = 200 <-> 0 < List.length ids <= 50)
  /\ (status r <> 200 -> status r = 400 /\ w' = w)
  /\ (status r = 200 ->
      (forall k d,
         World.redirects w' !! k = Some d
         <-> World.redirects w !! k = Some d
             /\ ~ (fst k = site /\ Redirect._id d ∈ ids))
      /\ exists n : nat,
           get "deletedCount" (dataOf r) = Some (JNum (Z.of_nat n))
           /\ n + size (World.redirects w') = size (World.redirects w))
  /\ World.seoPages w' = World.seoPages w.
Proof.
  unfold RedirectsRoute.DELETE. hstep.
  destruct (RedirectsRoute.redirectIds body) as [[|i ids]|]; hstep;
    cbn [default from_option Datatypes.id List.length status failure respond].
  - split; [split; [discriminate|lia]|]. split; [split; reflexivity|].
    split; [discriminate|reflexivity].
  - destruct (Nat.ltb_spec 50 (S (List.length ids))) as [Hlong|Hok]; hstep;
      cbn [status failure respond RedirectsRoute.deleteMany fst snd
           World.withRedirects World.redirects World.seoPages].
    + split; [split; [discriminate|lia]|]. split; [split; reflexivity|].
      split; [discriminate|reflexivity].
    + split; [split; [lia|reflexivity]|]. split; [intros H; contradiction H; reflexivity|].
      split; [|reflexivity]. intros _. split.
      * intros k d. rewrite map_lookup_filter_Some. reflexivity.
      * eexists. split; [reflexivity|].
        rewrite <- map_size_disj_union by apply map_disjoint_filter_complement.
        rewrite map_filter_union_complement. reflexivity.
  - split; [split; [discriminate|cbn; lia]|]. split; [split; reflexivity|].
    split; [discriminate|reflexivity].
Qed.

(** X19. Deleting the redirect that a creation has just reported, by the id
    of the reply, restores the redirect collection, provided that id was
    not in use. *)
Theorem redirect_create_then_delete (vcs : string -> Security) (now : Z) (w : World.t)
    (d : RedirectsRoute.RedirectData) :
  status (fst (RedirectsRoute.POST vcs now w d)) = 200 ->
  (forall k r, World.redirects w !! k = Some r -> Redirect._id r <> World.nextId w) ->
  let first := RedirectsRoute.POST vcs now w d in
  let second :=
    RedirectsRoute.DELETE (snd first)
      (RedirectsRoute.mkDelete (Some [World.nextId w]) (Some (RedirectsRoute.siteId d))) in
  get "_id" (dataOf (fst first)) = Some (JNum (Z.of_nat (World.nextId w)))
  /\ status (fst second) = 200
  /\ get "deletedCount" (dataOf (fst second)) = Some (JNum 1)
  /\ World.redirects (snd second) = World.redirects w.
Proof.
  intros Hok Hfresh first second. subst second first. revert Hok.
  destruct (isSecure (vcs (RedirectsRoute.from d))) eqn:Hf.
  2:{ unfold RedirectsRoute.POST. hstep. rewrite Hf. cbn. discriminate. }
  destruct (isSecure (vcs (RedirectsRoute.to d))) eqn:Ht.
  2:{ unfold RedirectsRoute.POST. hstep. rewrite Hf, Ht. cbn. discriminate. }
  rewrite (redirects_POST_eq vcs now w d Hf Ht). cbv zeta.
  destruct (World.redirects w !! (RedirectsRoute.siteId d, RedirectsRoute.from d))
    as [old|] eqn:Hold; [cbn; discriminate|].
  destruct (verdict _ _ _ _); try (cbn; discriminate). intros _.
  cbn [fst snd]. split; [reflexivity|].
  unfold RedirectsRoute.DELETE.
  cbv beta iota delta [mret M_ret mbind M_bind reply world modify try run].
  cbn [RedirectsRoute.redirectIds RedirectsRoute.d_siteId default from_option Datatypes.id
       List.length Nat.ltb Nat.leb World.redirects World.withRedirects World.freshId
       RedirectsRoute.deleteMany fst snd].
  set (new := Redirect.mkDoc _ _ _ _ _).
  set (hit := fun kd : (string * string) * Redirect.doc =>
                fst (fst kd) = RedirectsRoute.siteId d
                /\ Redirect._id (snd kd) ∈ [World.nextId w]).
  assert (Hnohit : filter hit (World.redirects w) = ∅).
  { apply map_empty_filter_2. intros k r Hk [_ Hid]. apply list_elem_of_singleton in Hid.
    exact (Hfresh k r Hk Hid). }
  assert (Hhit : hit ((RedirectsRoute.siteId d, RedirectsRoute.from d), new)).
  { split; [reflexivity|]. apply list_elem_of_singleton. reflexivity. }
  assert (Hdel : filter hit (<[(RedirectsRoute.siteId d, RedirectsRoute.from d) := new]>
                               (World.redirects w))
                 = {[(RedirectsRoute.siteId d, RedirectsRoute.from d) := new]}).
  { rewrite map_filter_insert_True by exact Hhit. rewrite Hnohit. reflexivity. }
  assert (Hkeep : filter (fun kd => ~ hit kd)
                    (<[(RedirectsRoute.siteId d, RedirectsRoute.from d) := new]>
                       (World.redirects w))
                  = World.redirects w).
  { rewrite map_filter_insert_False by (intros H; apply H; exact Hhit).
    rewrite delete_id by exact Hold. apply map_filter_id.
    intros k r Hk [_ Hid]. apply list_elem_of_singleton in Hid.
    exact (Hfresh k r Hk Hid). }
  rewrite Hdel, map_size_singleton.
  split; [reflexivity|]. split; [reflexivity|]. exact Hkeep.
Qed.

Lemma redirect_create_then_delete_witness :
  World.redirects
    (snd (RedirectsRoute.DELETE
            (snd (RedirectsRoute.POST Scenario.acceptAll 7 Scenario.oneRedirect
                    (RedirectsRoute.mkData Scenario.site "b" "c" 301 "admin-1")))
            (RedirectsRoute.mkDelete (Some [World.nextId Scenario.oneRedirect])
               (Some Scenario.site))))
  = World.redirects Scenario.oneRedirect.
Proof.
  apply (redirect_create_then_delete Scenario.acceptAll 7 Scenario.oneRedirect
           (RedirectsRoute.mkData Scenario.site "b" "c" 301 "admin-1")).
  - vm_compute. reflexivity.
  - intros k r Hk.
    assert (E : World.redirects Scenario.oneRedirect
                = {[(Scenario.site, "a") := Redirect.mkDoc 0 "b" 301 "admin-1" 0]})
      by (vm_compute; reflexivity).
    rewrite E in Hk. apply lookup_singleton_Some in Hk as [_ <-]. discriminate.
Defined.

(** ** Bulk export and bulk removal *)

Lemma or_else_Some_empty (d : string) : or_else (Some d) EmptyString = d.
Proof. destruct d; reflexivity. Qed.

Lemma exportRow_agrees (w : World.t) (page : PP.PredefinedPage) :
  In page PP.PREDEFINED_PAGES ->
  Forall
    (fun key => get key (Bulk.rowJson (Bulk.exportRow w (PP.path page)))
                = get key (dataOf (fst (PathRoute.GET w (PP.path page)))))
    ["path"; "slug"; "metaTitle"; "metaDescription"; "robots"; "pageCategory";
     "isCustom"; "openGraph"; "updatedAt"].
Proof.
  intros Hin. destruct (catalog_page page Hin) as (Hd & _ & Hp).
  unfold PathRoute.GET, PathRoute.predefined. hstep. rewrite Hd. hstep. rewrite Hp. hstep.
  unfold Bulk.exportRow. rewrite Hp.
  change (SEOPage.findOne (World.seoPages w) Bulk.siteId (PP.path page))
    with (SEOPage.findOne (World.seoPages w) PathRoute.siteId (PP.path page)).
  destruct (SEOPage.findOne (World.seoPages w) PathRoute.siteId (PP.path page)) as [seo|].
  - cbn [fmap option_fmap option_map]. rewrite !or_else_Some_empty.
    assert (Hc : or_else (Some (PP.categoryName (PP.category page))) "other"
                 = PP.categoryName (PP.category page))
      by (destruct (PP.category page); reflexivity).
    rewrite Hc. repeat constructor.
  - cbn [fmap option_fmap option_map]. rewrite !or_else_Some_empty.
    assert (Hc : or_else (Some (PP.categoryName (PP.category page))) "other"
                 = PP.categoryName (PP.category page))
      by (destruct (PP.category page); reflexivity).
    rewrite Hc. repeat constructor.
Qed.

(** X11. A bulk export of catalog pages reports, page by page, the values
    that GetPage answers for the page. *)
Theorem export_agrees_with_GetPage (vcs : string -> Security)
    (limits : Bulk.Operation -> nat -> string -> Bulk.Limit) (now : Z) (user : User)
    (w : World.t) (req : Bulk.Request) (pages : list PP.PredefinedPage) :
  Bulk.operation req = Bulk.op_export ->
  Bulk.paths req = Some (map PP.path pages) ->
  Bulk.exportFormat req <> Some "csv" ->
  Bulk.isValid (limits Bulk.op_export (BulkRoute.affected req) (role user)) = true ->
  (forall page, In page pages -> In page PP.PREDEFINED_PAGES) ->
  exists rows,
    get "exportData" (dataOf (fst (BulkRoute.POST vcs limits now user w req)))
    = Some (JArr rows)
    /\ Forall2
         (fun page row =>
            Forall
              (fun key => get key row
                          = get key (dataOf (fst (PathRoute.GET w (PP.path page)))))
              ["path"; "slug"; "metaTitle"; "metaDescription"; "robots"; "pageCategory";
               "isCustom"; "openGraph"; "updatedAt"])
         pages rows.
Proof.
  intros Hop Hps Hfmt Hlim Hcat.
  unfold BulkRoute.POST. hstep. rewrite Hop, Hlim. cbn [negb]. hstep. rewrite Hps. hstep.
  rewrite bool_decide_eq_false_2 by exact Hfmt.
  eexists. split; [reflexivity|].
  rewrite map_map. clear -Hcat. induction pages as [|page pages IH]; [constructor|].
  cbn [map]. constructor.
  - apply exportRow_agrees. apply Hcat. left. reflexivity.
  - apply IH. intros pg Hpg. apply Hcat. right. exact Hpg.
Qed.

Lemma export_agrees_with_GetPage_witness :
  exists rows,
    get "exportData"
      (dataOf (fst (BulkRoute.POST Scenario.acceptAll Scenario.noLimit 20 Scenario.admin
                      Scenario.customAbout
                      (Bulk.mkRequest Bulk.op_export (Some ["/about"]) None "admin-1"
                         None None))))
    = Some (JArr rows)
    /\ Forall2
         (fun page row =>
            Forall
              (fun key => get key row
                          = get key (dataOf (fst (PathRoute.GET Scenario.customAbout
                                                    (PP.path page)))))
              ["path"; "slug"; "metaTitle"; "metaDescription"; "robots"; "pageCategory";
               "isCustom"; "openGraph"; "updatedAt"])
         [Scenario.aboutPage] rows.
Proof.
  apply (export_agrees_with_GetPage Scenario.acceptAll Scenario.noLimit 20 Scenario.admin
           Scenario.customAbout
           (Bulk.mkRequest Bulk.op_export (Some ["/about"]) None "admin-1" None None)
           [Scenario.aboutPage]).
  - reflexivity.
  - reflexivity.
  - discriminate.
  - reflexivity.
  - intros page [<- | []]. exact aboutPage_in.
Defined.

Lemma forEach_deleteStep_store (extra : list (string * json)) (flag : string) :
  forall (ps : list string) (w : World.t),
    let c' := World.seoPages (snd (Bulk.forEach (Bulk.deleteStep extra flag) ps w)) in
    (forall p, In p ps -> c' !! (Bulk.siteId, p) = None)
    /\ (forall k, (forall p, In p ps -> k <> (Bulk.siteId, p)) ->
                  c' !! k = World.seoPages w !! k).
Proof.
  induction ps as [|p ps IH]; intros w; [done|].
  rewrite forEach_cons, deleteStep_eq. cbn [fst snd].
  specialize (IH (World.withSeoPages w (delete (Bulk.siteId, p) (World.seoPages w)))).
  cbv zeta in IH. cbn [World.seoPages World.withSeoPages] in IH.
  destruct IH as [Hgone Hkept]. split.
  - intros q [<- | Hq]; [|apply Hgone; exact Hq].
    destruct (in_dec string_dec p ps) as [Hin|Hout]; [apply Hgone; exact Hin|].
    rewrite Hkept; [apply lookup_delete_eq|].
    intros q Hq [= <-]. contradiction.
  - intros k Hk. rewrite Hkept by (intros q Hq; apply Hk; right; exact Hq).
    apply lookup_delete_ne. intros <-. apply (Hk p); [left|]; reflexivity.
Qed.

(** X12. After a bulk delete or reset through the enhanced endpoint none
    of the listed paths has a record, and every other record is as it
    was. *)
Theorem bulk_removal_postcondition (vcs : string -> Security)
    (limits : Bulk.Operation -> nat -> string -> Bulk.Limit) (now : Z) (user : User)
    (w : World.t) (req : Bulk.Request) (ps : list string) :
  Bulk.operation req = Bulk.op_delete \/ Bulk.operation req = Bulk.op_reset ->
  Bulk.paths req = Some ps ->
  Bulk.isValid (limits (Bulk.operation req) (BulkRoute.affected req) (role user)) = true ->
  let w' := snd (BulkRoute.POST vcs limits now user w req) in
  status (fst (BulkRoute.POST vcs limits now user w req)) = 200
  /\ (forall p, In p ps -> SEOPage.findOne (World.seoPages w') Bulk.siteId p = None)
  /\ (forall site q, site <> Bulk.siteId \/ ~ In q ps ->
        SEOPage.findOne (World.seoPages w') site q
        = SEOPage.findOne (World.seoPages w) site q).
Proof.
  intros Hop Hps Hlim w'.
  destruct (bulk_POST_removal vcs limits now user w req ps Hop Hps Hlim)
    as (w1 & Hpost & Hstore).
  subst w'. rewrite Hpost. cbn [fst snd]. split; [reflexivity|].
  rewrite Hstore. unfold SEOPage.findOne.
  destruct Hop as [-> | ->]; cbv zeta iota.
  all: match goal with
       | |- context [Bulk.forEach (Bulk.deleteStep ?e ?f) ?l ?w0] =>
           destruct (forEach_deleteStep_store e f l w0) as [Hgone Hkept]
       end.
  all: split; [exact Hgone|].
  all: intros site q Hq; apply Hkept; intros p Hp [= -> ->]; destruct Hq; done.
Qed.

Lemma bulk_removal_postcondition_witness :
  SEOPage.findOne
    (World.seoPages
       (snd (BulkRoute.POST Scenario.acceptAll Scenario.noLimit 20 Scenario.admin
               Scenario.customAbout (Scenario.deleteRequest ["/about"]))))
    Bulk.siteId "/about" = None.
Proof.
  apply (bulk_removal_postcondition Scenario.acceptAll Scenario.noLimit 20 Scenario.admin
           Scenario.customAbout (Scenario.deleteRequest ["/about"]) ["/about"]).
  - left. reflexivity.
  - reflexivity.
  - reflexivity.
  - left. reflexivity.
Defined.

(** ** Sanitizing text and URLs *)

Lemma app_String (c : ascii) (a b : string) :
  String c a +:+ b = String c (a +:+ b).
Proof. reflexivity. Qed.

Lemma toLowerCase_app (a b : string) :
  toLowerCase (a +:+ b) = toLowerCase a +:+ toLowerCase b.
Proof.
  induction a as [|c a IH]; [reflexivity|].
  rewrite app_String. cbn [toLowerCase]. rewrite IH. reflexivity.
Qed.

Lemma afterRun_scheme (s rest : string) :
  forallb Sanitize.schemeChar (list_ascii_of_string s) = true ->
  Sanitize.afterRun (s +:+ String ":" rest) = String ":" rest.
Proof.
  induction s as [|c s IH]; [reflexivity|]. cbn [list_ascii_of_string forallb].
  intros [Hc Hs]%andb_prop. rewrite app_String. cbn [Sanitize.afterRun].
  rewrite Hc. apply IH. exact Hs.
Qed.

Lemma prefix_nil (s : string) : String.prefix EmptyString s = true.
Proof. destruct s; reflexivity. Qed.

Lemma prefix_app_colon (a s rest : string) :
  forallb Sanitize.schemeChar (list_ascii_of_string a) = true ->
  forallb Sanitize.schemeChar (list_ascii_of_string s) = true ->
  String.prefix (a +:+ ":") (s +:+ String ":" rest) = (a =? s)%string.
Proof.
  revert s. induction a as [|c a IH]; intros s Ha Hs.
  - change (EmptyString +:+ ":") with (String ":" EmptyString).
    destruct s as [|d s].
    + change (EmptyString +:+ String ":" rest) with (String ":" rest).
      cbn [String.prefix String.eqb].
      destruct (ascii_dec ":" ":"); [apply prefix_nil|contradiction].
    + cbn [list_ascii_of_string forallb] in Hs.
      apply andb_prop in Hs as [Hd _]. rewrite app_String.
      cbn [String.prefix String.eqb].
      destruct (ascii_dec ":" d) as [<-|_]; [discriminate Hd|reflexivity].
  - cbn [list_ascii_of_string forallb] in Ha. apply andb_prop in Ha as [Hc Ha].
    destruct s as [|d s].
    + rewrite app_String. change (EmptyString +:+ String ":" rest) with (String ":" rest).
      cbn [String.prefix String.eqb].
      destruct (ascii_dec c ":") as [->|_]; [discriminate Hc|reflexivity].
    + cbn [list_ascii_of_string forallb] in Hs. apply andb_prop in Hs as [Hd Hs].
      rewrite !app_String. cbn [String.prefix String.eqb].
      destruct (ascii_dec c d) as [->|Hne].
      * rewrite Ascii.eqb_refl. apply IH; assumption.
      * destruct (Ascii.eqb_spec c d); [contradiction|reflexivity].
Qed.

Lemma schemeChar_lower (c : ascii) :
  Sanitize.schemeChar (lowerAscii c) = Sanitize.schemeChar c.
Proof. destruct c as [[] [] [] [] [] [] [] []]; reflexivity. Qed.

Lemma scheme_lower (s : string) :
  forallb Sanitize.schemeChar (list_ascii_of_string (toLowerCase s))
  = forallb Sanitize.schemeChar (list_ascii_of_string s).
Proof.
  induction s as [|c s IH]; [reflexivity|].
  cbn [toLowerCase list_ascii_of_string forallb]. rewrite schemeChar_lower, IH. reflexivity.
Qed.

Lemma existsb_eqb_In (x : string) (l : list string) :
  existsb (fun y => (y =? x)%string) l = true <-> In x l.
Proof.
  rewrite existsb_exists. split.
  - intros (y & Hy & E). apply String.eqb_eq in E. subst. exact Hy.
  - intros H. exists x. split; [exact H|apply String.eqb_refl].
Qed.

(** X20. A URL that opens with a scheme is kept exactly when the scheme,
    in whatever letter case, is on the allow list, and for data only when
    an image follows; every other URL with a scheme becomes #. *)
Theorem sanitizeUrl_allows_listed_schemes (scheme rest : string) :
  isScheme scheme = true ->
  let url := scheme +:+ ":" +:+ rest in
  (Sanitize.sanitizeUrl url = url \/ Sanitize.sanitizeUrl url = "#")
  /\ (Sanitize.sanitizeUrl url = url
      <-> In (toLowerCase scheme) Sanitize.allowedSchemes
          /\ (toLowerCase scheme = "data" ->
              startsWith (toLowerCase rest) "image/" = true)).
Proof.
  intros Hs url.
  destruct scheme as [|c scheme]; [discriminate|]. cbn [isScheme] in Hs.
  apply andb_prop in Hs as [Hc Hall].
  set (sch := String c scheme) in *.
  assert (Hlower : forallb Sanitize.schemeChar (list_ascii_of_string (toLowerCase sch)) = true)
    by (rewrite scheme_lower; exact Hall).
  assert (Hurl : url = String c (scheme +:+ String ":" rest)) by reflexivity.
  assert (Hlc : toLowerCase url = toLowerCase sch +:+ String ":" (toLowerCase rest)).
  { subst url. rewrite toLowerCase_app. reflexivity. }
  assert (Hpre : forall a, forallb Sanitize.schemeChar (list_ascii_of_string a) = true ->
                           startsWith (toLowerCase url) (a +:+ ":")
                           = (a =? toLowerCase sch)%string).
  { intros a Ha. unfold startsWith. rewrite Hlc. apply prefix_app_colon; assumption. }
  assert (Htest : Sanitize.URL_REGEX_test url
                  = existsb (fun y => (y =? toLowerCase sch)%string) Sanitize.allowedSchemes).
  { unfold Sanitize.URL_REGEX_test.
    assert (Hex : existsb (fun s => startsWith (toLowerCase url) (s +:+ ":"))
                    Sanitize.allowedSchemes
                  = existsb (fun y => (y =? toLowerCase sch)%string) Sanitize.allowedSchemes).
    { unfold Sanitize.allowedSchemes. cbn [existsb].
      rewrite !Hpre by reflexivity. reflexivity. }
    rewrite Hex.
    pose proof (afterRun_scheme sch rest Hall) as Hafter.
    change (sch +:+ String ":" rest) with url in Hafter.
    rewrite Hafter, Ascii.eqb_refl. cbn [negb].
    clearbody url. subst url. rewrite Hc. cbn [negb].
    rewrite andb_false_r, !orb_false_r. reflexivity. }
  assert (Hsan : Sanitize.sanitizeUrl url
                 = if ("javascript" =? toLowerCase sch)%string then "#"
                   else if ("data" =? toLowerCase sch)%string
                           && negb (startsWith (toLowerCase url) "data:image/") then "#"
                   else if negb (existsb (fun y => (y =? toLowerCase sch)%string)
                                   Sanitize.allowedSchemes) then "#"
                   else url).
  { rewrite <- (Hpre "javascript" eq_refl), <- (Hpre "data" eq_refl), <- Htest.
    clearbody url. subst url. reflexivity. }
  assert (Hne : url <> "#").
  { rewrite Hurl. intros [= -> _]. discriminate Hc. }
  rewrite Hsan.
  destruct (String.eqb_spec "javascript" (toLowerCase sch)) as [Ej|Nj].
  { split; [right; reflexivity|]. split; [intros H; symmetry in H; contradiction|].
    intros [Hin _]. rewrite <- Ej in Hin. vm_compute in Hin.
    repeat destruct Hin as [Hin|Hin]; try discriminate Hin. contradiction. }
  destruct (String.eqb_spec "data" (toLowerCase sch)) as [Ed|Nd]; cbn [andb].
  - assert (Himg : startsWith (toLowerCase url) "data:image/"
                   = startsWith (toLowerCase rest) "image/").
    { unfold startsWith. rewrite Hlc, <- Ed. cbn [String.append].
      change ("data" +:+ String ":" (toLowerCase rest))
        with (String "d" (String "a" (String "t" (String "a" (String ":" (toLowerCase rest)))))).
      reflexivity. }
    rewrite Himg. destruct (startsWith (toLowerCase rest) "image/") eqn:Hi; cbn [negb].
    + rewrite <- Ed. cbn [existsb Sanitize.allowedSchemes].
      split; [left; reflexivity|]. split; [|reflexivity].
      intros _. split; [|reflexivity]. vm_compute. tauto.
    + split; [right; reflexivity|]. split; [intros H; symmetry in H; contradiction|].
      intros [_ H]. specialize (H (eq_sym Ed)). discriminate.
  - destruct (existsb _ Sanitize.allowedSchemes) eqn:Hex; cbn [negb].
    + split; [left; reflexivity|]. split; [|reflexivity].
      intros _. split; [apply existsb_eqb_In; exact Hex|].
      intros E. symmetry in E. contradiction.
    + split; [right; reflexivity|]. split; [intros H; symmetry in H; contradiction|].
      intros [Hin _]. apply existsb_eqb_In in Hin. congruence.
Qed.

(** X21. A URL whose first character is no letter is returned as it is. *)
Theorem sanitizeUrl_keeps_nonletter_start (c : ascii) (rest : string) :
  Sanitize.isLetter c = false ->
  Sanitize.sanitizeUrl (String c rest) = String c rest.
Proof.
  intros Hc. unfold Sanitize.sanitizeUrl, Sanitize.URL_REGEX_test, startsWith.
  cbn [toLowerCase]. rewrite Hc. cbn [negb orb].
  assert (Hl : lowerAscii c = c).
  { destruct c as [[] [] [] [] [] [] [] []]; try reflexivity; discriminate Hc. }
  rewrite Hl.
  assert (Hj : c <> "j"%char) by (intros ->; discriminate Hc).
  assert (Hd : c <> "d"%char) by (intros ->; discriminate Hc).
  cbn [String.prefix].
  destruct (ascii_dec "j" c) as [E|_]; [symmetry in E; contradiction|].
  destruct (ascii_dec "d" c) as [E|_]; [symmetry in E; contradiction|].
  cbn [andb]. rewrite orb_true_r. reflexivity.
Qed.

Lemma sanitizeUrl_allows_listed_schemes_witness :
  Sanitize.sanitizeUrl "VBScript:msgbox(1)" = "#"
  /\ Sanitize.sanitizeUrl "HTTPS://altiorainfotech.com" = "HTTPS://altiorainfotech.com".
Proof.
  split.
  - destruct (sanitizeUrl_allows_listed_schemes "VBScript" "msgbox(1)" eq_refl)
      as [[H|H] Hiff]; [|exact H].
    apply Hiff in H as [Hin _]. vm_compute in Hin.
    repeat destruct Hin as [Hin|Hin]; try discriminate Hin. contradiction.
  - apply (sanitizeUrl_allows_listed_schemes "HTTPS" "//altiorainfotech.com" eq_refl).
    split; [vm_compute; tauto|]. discriminate.
Defined.

Lemma sanitizeUrl_keeps_nonletter_start_witness :
  Sanitize.sanitizeUrl " javascript:alert(1)" = " javascript:alert(1)".
Proof.
  exact (sanitizeUrl_keeps_nonletter_start " " "javascript:alert(1)" eq_refl).
Defined.

Lemma without_check (cs : list ascii) (s : string) :
  forallb (fun c => negb (existsb (Ascii.eqb c) cs)) (list_ascii_of_string s) = true ->
  without cs s.
Proof.
  intros H c Hc Hin. rewrite forallb_forall in H. specialize (H c Hc).
  apply negb_true_iff in H. assert (existsb (Ascii.eqb c) cs = true); [|congruence].
  apply existsb_exists. exists c. split; [exact Hin|apply Ascii.eqb_refl].
Qed.

Lemma without_cons (cs : list ascii) (c : ascii) (s : string) :
  without cs (String c s) -> ~ In c cs /\ without cs s.
Proof.
  intros H. split; [apply H; left; reflexivity|].
  intros d Hd. apply H. right. exact Hd.
Qed.

Lemma hasGt_stripTags (inTag : bool) (s : string) :
  Sanitize.hasGt (Sanitize.stripTags inTag s) = true -> Sanitize.hasGt s = true.
Proof.
  revert inTag. induction s as [|c s IH]; intros inTag; [destruct inTag; cbn; congruence|].
  cbn [Sanitize.stripTags Sanitize.hasGt]. destruct inTag.
  - destruct (Ascii.eqb c ">"); [intros _; reflexivity|].
    intros H. rewrite (IH true H). apply orb_true_r.
  - destruct (Ascii.eqb c "<" && Sanitize.hasGt s) eqn:E.
    + intros H. rewrite (IH true H). apply orb_true_r.
    + cbn [Sanitize.hasGt]. destruct (Ascii.eqb c ">"); [reflexivity|].
      intros H. rewrite (IH false H). reflexivity.
Qed.

Lemma noTag_stripTags (inTag : bool) (s : string) :
  noTag (Sanitize.stripTags inTag s) = true.
Proof.
  revert inTag. induction s as [|c s IH]; intros inTag; [destruct inTag; reflexivity|].
  cbn [Sanitize.stripTags]. destruct inTag.
  - destruct (Ascii.eqb c ">"); apply IH.
  - destruct (Ascii.eqb c "<") eqn:Ec; cbn [andb].
    + destruct (Sanitize.hasGt s) eqn:Hg; [apply IH|].
      cbn [noTag]. rewrite Ec, IH. cbn [negb orb].
      destruct (Sanitize.hasGt (Sanitize.stripTags false s)) eqn:Hg'; [|reflexivity].
      apply hasGt_stripTags in Hg'. congruence.
    + cbn [noTag]. rewrite Ec, IH. reflexivity.
Qed.

Lemma stripTags_without (cs : list ascii) (inTag : bool) (s : string) :
  without cs s -> without cs (Sanitize.stripTags inTag s).
Proof.
  revert inTag. induction s as [|c s IH]; intros inTag H; [destruct inTag; exact H|].
  apply without_cons in H as [Hc Hs]. cbn [Sanitize.stripTags]. destruct inTag.
  - destruct (Ascii.eqb c ">"); apply IH; exact Hs.
  - destruct (Ascii.eqb c "<" && Sanitize.hasGt s); [apply IH; exact Hs|].
    intros d [<- | Hd]; [exact Hc|]. exact (IH false Hs d Hd).
Qed.

Lemma stripTags_plain (s : string) :
  without ["<"%char] s -> Sanitize.stripTags false s = s.
Proof.
  induction s as [|c s IH]; intros H; [reflexivity|].
  apply without_cons in H as [Hc Hs]. cbn [Sanitize.stripTags].
  destruct (Ascii.eqb_spec c "<") as [->|_]; [contradiction Hc; left; reflexivity|].
  cbn [andb]. rewrite (IH Hs). reflexivity.
Qed.

Lemma prefix_amp (pat s : string) (c : ascii) :
  c <> "&"%char -> String.prefix (String "&" pat) (String c s) = false.
Proof.
  intros Hc. cbn [String.prefix].
  destruct (ascii_dec "&" c) as [E|_]; [symmetry in E; contradiction|reflexivity].
Qed.

(** An entity replacement passes over a stretch without ampersand. *)
Lemma replaceAll_plain (pat rep a b : string) :
  without ["&"%char] a ->
  Sanitize.replaceAll (String "&" pat) rep 0 (a +:+ b)
  = a +:+ Sanitize.replaceAll (String "&" pat) rep 0 b.
Proof.
  induction a as [|c a IH]; intros H; [reflexivity|].
  apply without_cons in H as [Hc Ha]. rewrite !app_String.
  cbn [Sanitize.replaceAll].
  rewrite prefix_amp by (intros ->; apply Hc; left; reflexivity).
  rewrite (IH Ha). reflexivity.
Qed.

Lemma replaceAll_plain_all (pat rep a : string) :
  without ["&"%char] a ->
  Sanitize.replaceAll (String "&" pat) rep 0 a = a.
Proof.
  induction a as [|c a IH]; intros H; [reflexivity|].
  apply without_cons in H as [Hc Ha]. cbn [Sanitize.replaceAll].
  rewrite prefix_amp by (intros ->; apply Hc; left; reflexivity).
  rewrite (IH Ha). reflexivity.
Qed.

Lemma decodeEntities_plain (s : string) :
  without ["&"%char] s -> Sanitize.decodeEntities s = s.
Proof.
  intros H. unfold Sanitize.decodeEntities. cbv zeta.
  rewrite (replaceAll_plain_all "amp;" _ s H), (replaceAll_plain_all "lt;" _ s H),
    (replaceAll_plain_all "gt;" _ s H), (replaceAll_plain_all "quot;" _ s H),
    (replaceAll_plain_all "#x27;" _ s H), (replaceAll_plain_all "#x2F;" _ s H),
    (replaceAll_plain_all "nbsp;" _ s H).
  reflexivity.
Qed.

(** X22. From a text without ampersand every tag is removed: what is handed
    to [trim] holds no [<] with a [>] after it. *)
Theorem sanitizeTextContent_strips_tags (trim : string -> string) (text : string) :
  text <> EmptyString ->
  without ["&"%char] text ->
  exists u,
    Sanitize.sanitizeTextContent trim text = trim u
    /\ u = Sanitize.stripTags false text
    /\ noTag u = true.
Proof.
  intros Hne Hamp. exists (Sanitize.stripTags false text).
  split; [|split; [reflexivity|apply noTag_stripTags]].
  destruct text as [|c text]; [contradiction|].
  unfold Sanitize.sanitizeTextContent.
  rewrite decodeEntities_plain; [reflexivity|].
  apply stripTags_without. exact Hamp.
Qed.

Lemma sanitizeTextContent_strips_tags_witness :
  noTag (Sanitize.sanitizeTextContent (fun s => s) "a <b>bold</b> < move > c") = true.
Proof.
  destruct (sanitizeTextContent_strips_tags (fun s => s) "a <b>bold</b> < move > c")
    as (u & Hs & _ & Hn).
  - discriminate.
  - apply without_check. vm_compute. reflexivity.
  - rewrite Hs. exact Hn.
Defined.

Lemma without_app (cs : list ascii) (a b : string) :
  without cs a -> without cs b -> without cs (a +:+ b).
Proof.
  induction a as [|c a IH]; intros Ha Hb; [exact Hb|].
  apply without_cons in Ha as [Hc Ha]. rewrite app_String.
  intros d [<- | Hd]; [exact Hc|]. exact (IH Ha Hb d Hd).
Qed.

Lemma without_weaken (cs cs' : list ascii) (s : string) :
  (forall c, In c cs' -> In c cs) -> without cs s -> without cs' s.
Proof. intros Hsub H c Hc Hin. exact (H c Hc (Hsub c Hin)). Qed.

Lemma replaceAll_miss (pat rep s : string) :
  String.prefix pat (String "&" s) = false ->
  Sanitize.replaceAll pat rep 0 (String "&" s)
  = String "&" (Sanitize.replaceAll pat rep 0 s).
Proof. intros H. cbn [Sanitize.replaceAll]. rewrite H. reflexivity. Qed.

Lemma replaceAll_skip (pat rep q b : string) :
  Sanitize.replaceAll pat rep (String.length q) (q +:+ b)
  = Sanitize.replaceAll pat rep 0 b.
Proof.
  induction q as [|c q IH]; [destruct b; reflexivity|].
  rewrite app_String. cbn [String.length Sanitize.replaceAll]. exact IH.
Qed.

Lemma prefix_app (p b : string) : String.prefix p (p +:+ b) = true.
Proof.
  induction p as [|c p IH]; [apply prefix_nil|].
  rewrite app_String. cbn [String.prefix].
  destruct (ascii_dec c c); [exact IH|contradiction].
Qed.

Lemma replaceAll_hit (c : ascii) (pat rep b : string) :
  Sanitize.replaceAll (String c pat) rep 0 (String c pat +:+ b)
  = rep +:+ Sanitize.replaceAll (String c pat) rep 0 b.
Proof.
  assert (Hp : String.prefix (String c pat) (String c (pat +:+ b)) = true)
    by (rewrite <- app_String; apply prefix_app).
  rewrite app_String. cbn [Sanitize.replaceAll]. rewrite Hp.
  cbn [String.length Nat.sub]. rewrite Nat.sub_0_r, replaceAll_skip. reflexivity.
Qed.

Lemma app_assoc_string (a b c : string) : (a +:+ b) +:+ c = a +:+ (b +:+ c).
Proof. induction a as [|x a IH]; [reflexivity|]. rewrite !app_String, IH. reflexivity. Qed.

(** X23. The entities are decoded after the tags have been removed, so
    markup that arrives escaped leaves as markup. *)
Theorem sanitizeTextContent_restores_escaped_markup (trim : string -> string)
    (t : string) :
  without ["&"; "<"; ">"]%char t ->
  Sanitize.sanitizeTextContent trim ("&lt;" +:+ t +:+ "&gt;")
  = trim ("<" +:+ t +:+ ">").
Proof.
  intros Ht.
  assert (Hamp : without ["&"%char] t)
    by (eapply without_weaken; [|exact Ht]; intros c [<- | []]; left; reflexivity).
  assert (Hlt : without ["<"%char] t)
    by (eapply without_weaken; [|exact Ht]; intros c [<- | []]; right; left; reflexivity).
  pose proof without_check as Hlit.
  unfold Sanitize.sanitizeTextContent.
  change ("&lt;" +:+ t +:+ "&gt;") with (String "&" ("lt;" +:+ t +:+ "&gt;")) at 1.
  cbv iota. f_equal.
  assert (Hstrip : Sanitize.stripTags false ("&lt;" +:+ t +:+ "&gt;")
                   = "&lt;" +:+ t +:+ "&gt;").
  { apply stripTags_plain. apply without_app; [apply Hlit; reflexivity|].
    apply without_app; [exact Hlt|apply Hlit; reflexivity]. }
  rewrite Hstrip. unfold Sanitize.decodeEntities. cbv zeta.
  assert (H1 : Sanitize.replaceAll "&amp;" "&" 0 ("&lt;" +:+ t +:+ "&gt;")
               = "&lt;" +:+ t +:+ "&gt;").
  { change ("&lt;" +:+ t +:+ "&gt;") with (String "&" (("lt;" +:+ t) +:+ "&gt;")) at 1.
    rewrite app_assoc_string.
    change ("&lt;" +:+ t +:+ "&gt;") with (String "&" ("lt;" +:+ (t +:+ "&gt;"))) at 1.
    rewrite replaceAll_miss by reflexivity.
    rewrite <- app_assoc_string.
    rewrite (replaceAll_plain "amp;" "&" ("lt;" +:+ t) "&gt;")
      by (apply without_app; [apply Hlit; reflexivity|exact Hamp]).
    change "&gt;" with (String "&" "gt;") at 1.
    rewrite replaceAll_miss by reflexivity.
    rewrite (replaceAll_plain_all "amp;" "&" "gt;") by (apply Hlit; reflexivity).
    rewrite app_assoc_string. reflexivity. }
  rewrite H1.
  assert (H2 : Sanitize.replaceAll "&lt;" "<" 0 ("&lt;" +:+ t +:+ "&gt;")
               = "<" +:+ t +:+ "&gt;").
  { rewrite (replaceAll_hit "&" "lt;" "<" (t +:+ "&gt;")).
    rewrite (replaceAll_plain "lt;" "<" t "&gt;") by exact Hamp.
    change "&gt;" with (String "&" "gt;") at 1.
    rewrite replaceAll_miss by reflexivity.
    rewrite (replaceAll_plain_all "lt;" "<" "gt;") by (apply Hlit; reflexivity).
    reflexivity. }
  rewrite H2.
  assert (H3 : Sanitize.replaceAll "&gt;" ">" 0 ("<" +:+ t +:+ "&gt;")
               = "<" +:+ t +:+ ">").
  { rewrite <- app_assoc_string.
    rewrite (replaceAll_plain "gt;" ">" ("<" +:+ t) "&gt;")
      by (apply without_app; [apply Hlit; reflexivity|exact Hamp]).
    change (Sanitize.replaceAll "&gt;" ">" 0 "&gt;") with ">".
    rewrite app_assoc_string. reflexivity. }
  rewrite H3.
  assert (Hplain : without ["&"%char] ("<" +:+ t +:+ ">")).
  { apply without_app; [apply Hlit; reflexivity|].
    apply without_app; [exact Hamp|apply Hlit; reflexivity]. }
  rewrite (replaceAll_plain_all "quot;" _ _ Hplain), (replaceAll_plain_all "#x27;" _ _ Hplain),
    (replaceAll_plain_all "#x2F;" _ _ Hplain), (replaceAll_plain_all "nbsp;" _ _ Hplain).
  reflexivity.
Qed.

Lemma sanitizeTextContent_restores_escaped_markup_witness :
  Sanitize.sanitizeTextContent (fun s => s) "&lt;script src=//x.example/a.js&gt;"
  = "<script src=//x.example/a.js>".
Proof.
  apply (sanitizeTextContent_restores_escaped_markup (fun s => s) "script src=//x.example/a.js").
  apply without_check. vm_compute. reflexivity.
Defined.

(** ** What a refused bulk request leaves behind *)

#[local] Arguments Bulk.summary : simpl never.
#[local] Arguments Bulk.exported : simpl never.

Lemma secureAll_world vcs (items : list Bulk.ImportItem) (w : World.t) :
  snd (BulkRoute.secureAll vcs items w) = w.
Proof.
  induction items as [|item items IH]; [reflexivity|].
  cbn [BulkRoute.secureAll]. unfold BulkRoute.secure. hstep.
  destruct (truthy (Bulk.i_metaTitle item));
    [destruct (isSecure (vcs (default EmptyString (Bulk.i_metaTitle item))))|];
    hstep; try reflexivity.
  all: destruct (truthy (Bulk.i_metaDescription item));
    [destruct (isSecure (vcs (default EmptyString (Bulk.i_metaDescription item))))|];
    hstep; try reflexivity.
  all: destruct (BulkRoute.secureAll vcs items w) as [[r|[]] w1]; exact IH.
Qed.

Lemma summary_status (o : Bulk.Operation) (rs : list json) (n : nat) :
  status (Bulk.summary o rs n) = 200.
Proof. reflexivity. Qed.

(** X13. A bulk request that is answered with anything but 200 has written
    nothing, and neither has an export. *)
Theorem bulk_refusal_writes_nothing (vcs : string -> Security)
    (limits : Bulk.Operation -> nat -> string -> Bulk.Limit) (now : Z) (user : User)
    (w : World.t) (req : Bulk.Request) :
  (status (fst (BulkRoute.POST vcs limits now user w req)) <> 200
   \/ Bulk.operation req = Bulk.op_export ->
   snd (BulkRoute.POST vcs limits now user w req) = w)
  /\ (status (fst (PagesRoute.PUT limits now user w req)) <> 200
      \/ Bulk.operation req = Bulk.op_export ->
      snd (PagesRoute.PUT limits now user w req) = w).
Proof.
  split.
  - unfold BulkRoute.POST, BulkRoute.secure, Bulk.loop. hstep.
    destruct (Bulk.isValid _); cbn [negb]; hstep; [|reflexivity].
    destruct (Bulk.operation req) eqn:Hop.
    + destruct (Bulk.data req), (Bulk.paths req); hstep; try reflexivity.
      repeat (break_match; hstep; try reflexivity).
      all: intros [H|H]; [contradiction H; apply summary_status|discriminate].
    + destruct (Bulk.paths req); hstep; try reflexivity.
      repeat (break_match; hstep; try reflexivity).
      all: intros [H|H]; [contradiction H; apply summary_status|discriminate].
    + destruct (Bulk.paths req); hstep; try reflexivity.
      repeat (break_match; hstep; try reflexivity).
      all: intros [H|H]; [contradiction H; apply summary_status|discriminate].
    + destruct (Bulk.paths req); hstep; reflexivity.
    + destruct (Bulk.importData req) as [[|item items]|]; hstep; try reflexivity.
      pose proof (secureAll_world vcs (item :: items) w) as Hsec.
      destruct (BulkRoute.secureAll vcs (item :: items) w) as [[r|[]] w1];
        cbn [snd] in Hsec; subst w1; hstep; [reflexivity|].
      repeat (break_match; hstep; try reflexivity).
      all: intros [H|H]; [contradiction H; apply summary_status|discriminate].
  - unfold PagesRoute.PUT, Bulk.loop. hstep.
    destruct (Bulk.paths req) as [ps|]; hstep; [|reflexivity].
    destruct (Bulk.isValid _); cbn [negb]; hstep; [|reflexivity].
    destruct (0 <? _)%nat; hstep; [reflexivity|].
    destruct (Bulk.operation req) eqn:Hop.
    + destruct (Bulk.data req); hstep; try reflexivity.
      repeat (break_match; hstep; try reflexivity).
      all: intros [H|H]; [contradiction H; apply summary_status|discriminate].
    + repeat (break_match; hstep; try reflexivity).
      all: intros [H|H]; [contradiction H; apply summary_status|discriminate].
    + repeat (break_match; hstep; try reflexivity).
      all: intros [H|H]; [contradiction H; apply summary_status|discriminate].
    + reflexivity.
    + destruct (Bulk.importData req) as [[|item items]|]; hstep; try reflexivity.
      repeat (break_match; hstep; try reflexivity).
      all: intros [H|H]; [contradiction H; apply summary_status|discriminate].
Qed.

Lemma bulk_refusal_writes_nothing_witness :
  snd (PagesRoute.PUT Scenario.noLimit 20 Scenario.admin Scenario.customAbout
         (Scenario.deleteRequest ["/about"; "/not-a-real-page"]))
  = Scenario.customAbout.
Proof.
  apply (proj2 (bulk_refusal_writes_nothing Scenario.acceptAll Scenario.noLimit 20
                  Scenario.admin Scenario.customAbout
                  (Scenario.deleteRequest ["/about"; "/not-a-real-page"]))).
  left. vm_compute. lia.
Defined.

(** ** What the write handlers add *)

Lemma Within_refl (c : SEOPage.coll) : Within c c.
Proof. intros k Hk. left. exact Hk. Qed.

Lemma Within_trans (c1 c2 c3 : SEOPage.coll) :
  Within c1 c2 -> Within c2 c3 -> Within c1 c3.
Proof.
  intros H12 H23 k Hk. destruct (H23 k Hk) as [H2|Hc]; [|right; exact Hc].
  exact (H12 k H2).
Qed.

Lemma Within_delete (c : SEOPage.coll) (k : SEOPage.key) : Within c (delete k c).
Proof.
  intros k' [d Hd]. left. exists d.
  destruct (decide (k = k')) as [<-|Hne].
  - rewrite lookup_delete_eq in Hd. discriminate.
  - rewrite lookup_delete_ne in Hd by exact Hne. exact Hd.
Qed.

Lemma Within_save (now : Z) (c c' : SEOPage.coll) (site p : string)
    (d d' : SEOPage.doc) :
  SEOPage.save now c site p d = Ok (d', c') ->
  is_Some (c !! (site, p)) \/ is_Some (PP.getPredefinedPageByPath p) ->
  Within c c'.
Proof.
  unfold SEOPage.save. destruct (List.find _ _); [discriminate|].
  intros [= _ <-] Hp k Hk.
  destruct (decide (k = (site, p))) as [->|Hne].
  - destruct Hp as [Hp|Hp]; [left; exact Hp|right].
    apply bool_decide_eq_true_2. exact Hp.
  - left. rewrite lookup_insert_ne in Hk by congruence. exact Hk.
Qed.

Lemma Within_forEach {A : Type} (step : World.t -> A -> json * World.t) :
  (forall w a, Within (World.seoPages w) (World.seoPages (snd (step w a)))) ->
  forall items w,
    Within (World.seoPages w) (World.seoPages (snd (Bulk.forEach step items w))).
Proof.
  intros Hstep. induction items as [|a items IH]; intros w; [apply Within_refl|].
  rewrite forEach_cons. cbn [snd].
  eapply Within_trans; [apply (Hstep w a)|apply IH].
Qed.

Lemma Within_deleteStep (extra : list (string * json)) (flag : string)
    (w : World.t) (p : string) :
  Within (World.seoPages w) (World.seoPages (snd (Bulk.deleteStep extra flag w p))).
Proof. rewrite deleteStep_eq. apply Within_delete. Qed.

Lemma Within_updateStep (now : Z) (d : Bulk.BulkData) (by_ : string) (og : bool)
    (extra : list (string * json)) (w : World.t) (p : string) :
  Within (World.seoPages w)
    (World.seoPages (snd (Bulk.updateStep now d by_ og extra w p))).
Proof.
  unfold Bulk.updateStep, SEOPage.findOne, World.freshId.
  destruct (World.seoPages w !! (Bulk.siteId, p)) as [seoPage|] eqn:Hfound.
  - destruct (SEOPage.save _ _ _ _ _) as [[saved pages]|msg] eqn:Hsave;
      [|apply Within_refl].
    eapply Within_save; [exact Hsave|]. left. rewrite Hfound. eauto.
  - destruct (PP.getPredefinedPageByPath p) as [page|] eqn:Hpage; [|apply Within_refl].
    cbn [World.seoPages].
    destruct (SEOPage.save _ _ _ _ _) as [[saved pages]|msg] eqn:Hsave;
      [|apply Within_refl].
    eapply Within_save; [exact Hsave|]. right. rewrite Hpage. eauto.
Qed.

Lemma Within_importStep (now : Z) (by_ : string) (extra : list (string * json))
    (w : World.t) (item : Bulk.ImportItem) :
  Within (World.seoPages w)
    (World.seoPages (snd (Bulk.importStep now by_ extra w item))).
Proof.
  unfold Bulk.importStep, SEOPage.findOne, World.freshId.
  destruct (PP.getPredefinedPageByPath _) as [page|] eqn:Hpage; [|apply Within_refl].
  destruct (World.seoPages w !! _) as [seoPage|] eqn:Hfound.
  - destruct (SEOPage.save _ _ _ _ _) as [[saved pages]|msg] eqn:Hsave;
      [|apply Within_refl].
    eapply Within_save; [exact Hsave|]. right. rewrite Hpage. eauto.
  - cbn [World.seoPages].
    destruct (SEOPage.save _ _ _ _ _) as [[saved pages]|msg] eqn:Hsave;
      [|apply Within_refl].
    eapply Within_save; [exact Hsave|]. right. rewrite Hpage. eauto.
Qed.

Lemma Within_seedStep (now : Z) (user : User) (w : World.t)
    (page : PP.PredefinedPage) :
  In page PP.PREDEFINED_PAGES ->
  Within (World.seoPages w) (World.seoPages (snd (SeedRoute.seedStep now user w page))).
Proof.
  intros Hin. unfold SeedRoute.seedStep, SEOPage.findOne, World.freshId.
  destruct (World.seoPages w !! _) as [seoPage|] eqn:Hfound; [apply Within_refl|].
  cbn [World.seoPages].
  destruct (SEOPage.save _ _ _ _ _) as [[saved pages]|msg] eqn:Hsave;
    [|apply Within_refl].
  eapply Within_save; [exact Hsave|]. right.
  rewrite (proj2 (proj2 (catalog_page page Hin))). eauto.
Qed.

Ltac redirect_store :=
  try match goal with
      | H : SeoUtils.createRedirectSafely ?n ?w0 ?s ?f ?d ?c ?a = (_, _) |- _ =>
          let Hc := fresh in
          pose proof (proj2 (createRedirectSafely_frame n w0 s f d c a)) as Hc;
          rewrite H in Hc;
          cbn [snd World.seoPages World.withSeoPages World.withCache World.audit
                 World.log] in Hc
      end.

Ltac store_leaf :=
  fresh_ids; redirect_store;
  cbn [snd World.seoPages World.withSeoPages World.withCache World.audit World.log];
  try match goal with
      | Hc : World.seoPages ?t = _ |- context [World.seoPages ?t] => rewrite Hc
      end;
  try apply Within_refl.

Lemma Within_PathRoute_PUT vcs (now : Z) (user : User) (w : World.t) (param : string)
    (vd : PathRoute.UpdateData) :
  Within (World.seoPages w) (World.seoPages (snd (PathRoute.PUT vcs now user w param vd))).
Proof.
  unfold PathRoute.PUT, PathRoute.predefined, PathRoute.secure. hstep.
  repeat (break_match; hstep; try apply Within_refl).
  all: store_leaf.
  all: try (eapply Within_save; [eassumption|]; right; eauto).
Qed.

Lemma Within_PathRoute_DELETE (w : World.t) (param : string) :
  Within (World.seoPages w) (World.seoPages (snd (PathRoute.DELETE w param))).
Proof.
  unfold PathRoute.DELETE, PathRoute.predefined. hstep.
  destruct (PathRoute.decodePath param) as [p|]; hstep; [|apply Within_refl].
  destruct (PP.getPredefinedPageByPath p); hstep; [|apply Within_refl].
  unfold SEOPage.findOneAndDelete, SEOPage.findOne.
  destruct (World.seoPages w !! _); apply Within_delete.
Qed.

Lemma Within_PagesRoute_POST vcs (now : Z) (user : User) (w : World.t)
    (vd : PagesRoute.PageData) :
  Within (World.seoPages w) (World.seoPages (snd (PagesRoute.POST vcs now user w vd))).
Proof.
  unfold PagesRoute.POST. hstep.
  repeat (break_match; hstep; try apply Within_refl).
  all: store_leaf.
  all: try (eapply Within_save; [eassumption|]; right; eauto).
Qed.

Lemma Within_loop {A : Type} (step : World.t -> A -> json * World.t)
    (items : list A) (w : World.t) :
  (forall w a, Within (World.seoPages w) (World.seoPages (snd (step w a)))) ->
  Within (World.seoPages w) (World.seoPages (snd (Bulk.loop step items w))).
Proof.
  intros Hstep. unfold Bulk.loop.
  pose proof (Within_forEach step Hstep items w) as H.
  destruct (Bulk.forEach step items w) as [rs w']. exact H.
Qed.

Lemma Within_PagesRoute_PUT limits (now : Z) (user : User) (w : World.t)
    (req : Bulk.Request) :
  Within (World.seoPages w) (World.seoPages (snd (PagesRoute.PUT limits now user w req))).
Proof.
  unfold PagesRoute.PUT. hstep.
  destruct (Bulk.paths req) as [ps|]; hstep; [|apply Within_refl].
  destruct (negb _); hstep; [apply Within_refl|].
  destruct (0 <? _)%nat; hstep; [apply Within_refl|].
  destruct (Bulk.operation req); hstep.
  - destruct (Bulk.data req) as [data|]; hstep; [|apply Within_refl].
    pose proof (Within_loop (Bulk.updateStep now data (Bulk.updatedBy req) false []) ps w
                  (Within_updateStep now data (Bulk.updatedBy req) false [])) as H.
    destruct (Bulk.loop _ ps w) as [[r|rs] w']; exact H.
  - pose proof (Within_loop (Bulk.deleteStep [] "deleted") ps w
                  (Within_deleteStep [] "deleted")) as H.
    destruct (Bulk.loop _ ps w) as [[r|rs] w']; exact H.
  - pose proof (Within_loop (Bulk.deleteStep [("reset", JBool true)] "hadCustomData") ps w
                  (Within_deleteStep [("reset", JBool true)] "hadCustomData")) as H.
    destruct (Bulk.loop _ ps w) as [[r|rs] w']; exact H.
  - apply Within_refl.
  - destruct (Bulk.importData req) as [[|item items]|]; hstep; try apply Within_refl.
    pose proof (Within_loop
                  (Bulk.importStep now (Bulk.updatedBy req) [("imported", JBool true)])
                  (item :: items) w
                  (Within_importStep now (Bulk.updatedBy req) [("imported", JBool true)]))
      as H.
    destruct (Bulk.loop _ (item :: items) w) as [[r|rs] w']; exact H.
Qed.

Lemma Within_SeedRoute_POST (now : Z) (user : User) (w : World.t) :
  Within (World.seoPages w) (World.seoPages (snd (SeedRoute.POST now user w))).
Proof.
  unfold SeedRoute.POST.
  assert (H : forall items w0,
             (forall page, In page items -> In page PP.PREDEFINED_PAGES) ->
             Within (World.seoPages w0)
               (World.seoPages (snd (Bulk.forEach (SeedRoute.seedStep now user) items w0)))).
  { induction items as [|page items IH]; intros w0 Hin; [apply Within_refl|].
    rewrite forEach_cons. cbn [snd].
    eapply Within_trans; [apply Within_seedStep, Hin; left; reflexivity|].
    apply IH. intros q Hq. apply Hin. right. exact Hq. }
  specialize (H PP.PREDEFINED_PAGES w (fun _ Hin => Hin)).
  destruct (Bulk.forEach _ _ w) as [rs w']. exact H.
Qed.

Ltac loop_leaf lem :=
  cbn [snd World.seoPages World.audit];
  match goal with
  | H : Bulk.forEach ?step ?items ?w0 = (_, _) |- _ =>
      let Hw := fresh in
      pose proof (Within_forEach step lem items w0) as Hw;
      rewrite H in Hw; exact Hw
  end.

Lemma Within_BulkRoute_POST vcs limits (now : Z) (user : User) (w : World.t)
    (req : Bulk.Request) :
  Within (World.seoPages w)
    (World.seoPages (snd (BulkRoute.POST vcs limits now user w req))).
Proof.
  unfold BulkRoute.POST, BulkRoute.secure, Bulk.loop. hstep.
  destruct (Bulk.isValid _); cbn [negb]; hstep; [|apply Within_refl].
  destruct (Bulk.operation req) eqn:Hop.
  - destruct (Bulk.data req) as [data|], (Bulk.paths req) as [ps|]; hstep;
      try apply Within_refl.
    repeat (break_match; hstep; try apply Within_refl).
    all: loop_leaf (Within_updateStep now data (Bulk.updatedBy req) true
                      [("action", JStr "updated")]).
  - destruct (Bulk.paths req) as [ps|]; hstep; try apply Within_refl.
    repeat (break_match; hstep; try apply Within_refl).
    all: loop_leaf (Within_deleteStep [("action", JStr "deleted")] "deleted").
  - destruct (Bulk.paths req) as [ps|]; hstep; try apply Within_refl.
    repeat (break_match; hstep; try apply Within_refl).
    all: loop_leaf (Within_deleteStep [("action", JStr "reset")] "hadCustomData").
  - destruct (Bulk.paths req); hstep; apply Within_refl.
  - destruct (Bulk.importData req) as [[|item items]|]; hstep; try apply Within_refl.
    pose proof (secureAll_world vcs (item :: items) w) as Hsec.
    destruct (BulkRoute.secureAll vcs (item :: items) w) as [[r|[]] w1];
      cbn [snd] in Hsec; subst w1; hstep; [apply Within_refl|].
    repeat (break_match; hstep; try apply Within_refl).
    all: loop_leaf (Within_importStep now (Bulk.updatedBy req)
                      [("action", JStr "imported")]).
Qed.

(** X25. No write handler adds a record for a path that the catalog does
    not have: whatever the request, every record that the store holds
    after the per-path update or reset, the upsert, either bulk endpoint
    or the seeding was in the store before or is the record of a page of
    the catalog. *)
Theorem writes_add_catalog_pages_only (vcs : string -> Security)
    (limits : Bulk.Operation -> nat -> string -> Bulk.Limit) (now : Z) (user : User)
    (w : World.t) :
  (forall param vd,
     Within (World.seoPages w)
       (World.seoPages (snd (PathRoute.PUT vcs now user w param vd))))
  /\ (forall param,
        Within (World.seoPages w) (World.seoPages (snd (PathRoute.DELETE w param))))
  /\ (forall vd,
        Within (World.seoPages w)
          (World.seoPages (snd (PagesRoute.POST vcs now user w vd))))
  /\ (forall req,
        Within (World.seoPages w)
          (World.seoPages (snd (PagesRoute.PUT limits now user w req))))
  /\ (forall req,
        Within (World.seoPages w)
          (World.seoPages (snd (BulkRoute.POST vcs limits now user w req))))
  /\ Within (World.seoPages w) (World.seoPages (snd (SeedRoute.POST now user w))).
Proof.
  split; [intros; apply Within_PathRoute_PUT|].
  split; [intros; apply Within_PathRoute_DELETE|].
  split; [intros; apply Within_PagesRoute_POST|].
  split; [intros; apply Within_PagesRoute_PUT|].
  split; [intros; apply Within_BulkRoute_POST|].
  apply Within_SeedRoute_POST.
Qed.
